(** * Rater-agreement analyzer: manual ELAN coding vs. automated coding

    A shallow embedding of [merge_results_for_comparison.py] (record loader,
    aligner, agreement engine, discrepancy detector, report conclusion) and of
    the per-file extraction loop of [coded_json_analyzer.py].
    The two stages that run before it are embedded as modules of their
    own: [prepare_and_mask.py] (module [prepare_and_mask]) and
    [2_run_llm_coding.py] (module [run_llm_coding]).

    Conventions of the embedding.
    - A pandas/numpy float is a [cell]: either a number or [NaN].  A number
      is the rational value of a float64 ([float64] says that a rational is
      one, and far from overflow; infinities are not modelled).  The
      arithmetic of the script itself - the differences of the discrepancy
      detector, the averages of the report, the decimal constants of the
      threshold tests - rounds as float64 does ([round64]).  The
      statistics of [sklearn], [pandas] and [scipy] are library routines
      whose order of summation is not part of their contract; they are
      given by their defining formulas over the rationals, which is what
      they compute on the integer-valued scores of the study (counts of
      ideas, categories and descriptors) up to the last rounding: the
      sums are exact there ([absolute_differences_sum_exactly]).
    - [print] and [logger] output is a list of structured messages [Msg].
    - A Python computation that may raise is a [Run]: the messages printed
      so far together with either a value or the exception raised.
    - The parts of scipy, pandas and pingouin that cannot be expressed over
      the rationals (square root, the p-value of the t distribution, the ICC
      table) are fields of a [Numerics] record that every definition takes
      as a parameter. *)

From Stdlib Require Import Ascii String QArith Qabs Lqa Lia.
From stdpp Require Import gmap strings list sorting.

Local Open Scope string_scope.
Local Open Scope list_scope.

(* ===================================================================== *)
(** ** Floats with NaN *)
(* ===================================================================== *)

Inductive cell : Type :=
| Num (q : Q)
| NaN.

Definition is_num (c : cell) : bool :=
  match c with Num _ => true | NaN => false end.

(** *** float64 rounding *)

(** [floor (log2 (n / d))] for positive [n] and [d]. *)
Definition floor_log2 (n d : Z) : Z :=
  let e := (Z.log2 n - Z.log2 d)%Z in
  if (0 <=? e)%Z
  then (if (n <? d * 2 ^ e)%Z then e - 1 else e)%Z
  else (if (n * 2 ^ (- e) <? d)%Z then e - 1 else e)%Z.

(** [n / d] rounded to the nearest integer, ties to the even one. *)
Definition round_half_even (n d : Z) : Z :=
  let q := (n / d)%Z in
  let r := (n mod d)%Z in
  match (2 * r ?= d)%Z with
  | Lt => q
  | Gt => (q + 1)%Z
  | Eq => if Z.even q then q else (q + 1)%Z
  end.

(** The float64 nearest to a rational (IEEE 754 binary64, round to nearest,
    ties to even): 53 significant bits, the spacing never below [2^-1074].
    The result is in lowest terms.  Overflow is not modelled. *)
Definition round64 (q : Q) : Q :=
  let n := Z.abs (Qnum q) in
  let d := Zpos (Qden q) in
  if (n =? 0)%Z then 0%Q
  else
    let e := floor_log2 n d in
    let k := Z.max (e - 52) (-1074) in
    let m := if (0 <=? k)%Z then round_half_even n (d * 2 ^ k)
             else round_half_even (n * 2 ^ (- k)) d in
    let m := (Z.sgn (Qnum q) * m)%Z in
    if (0 <=? k)%Z then inject_Z (m * 2 ^ k)
    else Qred (m # Z.to_pos (2 ^ (- k))).

(** The rationals that are float64 numbers, away from overflow: rounding
    leaves them as they are, and sums and differences of a few of them
    stay finite. *)
Definition float64 (q : Q) : Prop :=
  (round64 q == q)%Q ∧ (Qabs q <= inject_Z (2 ^ 1000))%Q.

(** [x - y] and [x + y] on floats. *)
Definition float_sub (x y : Q) : Q := round64 (x - y).

Definition float_add (x y : Q) : Q := round64 (x + y).

(** [a - b] on two Series entries: NaN is absorbing. *)
Definition cell_sub (a b : cell) : cell :=
  match a, b with
  | Num x, Num y => Num (float_sub x y)
  | _, _ => NaN
  end.

(** [abs(a)]. *)
Definition cell_abs (a : cell) : cell :=
  match a with
  | Num x => Num (Qabs x)
  | NaN => NaN
  end.

(** [a >= t]: every comparison with NaN is [False]. *)
Definition cell_ge (a : cell) (t : Q) : bool :=
  match a with
  | Num x => Qle_bool t x
  | NaN => false
  end.

(** [a < t]: every comparison with NaN is [False]. *)
Definition cell_lt (a : cell) (t : Q) : bool :=
  match a with
  | Num x => negb (Qle_bool t x)
  | NaN => false
  end.

(* ===================================================================== *)
(** ** Exceptions, printed messages, and the [Run] monad *)
(* ===================================================================== *)

Inductive exn : Type :=
| FileNotFoundError
| JSONDecodeError
| AttributeError
| TypeError
| KeyError (key : string)
| ValueError (msg : string)
| OSError
| LibraryError.

Inductive Outcome (A : Type) : Type :=
| Return (a : A)
| Raise (e : exn).
Arguments Return {A} a.
Arguments Raise {A} e.

Definition is_return {A} (o : Outcome A) : bool :=
  match o with Return _ => true | Raise _ => false end.

(** Sequencing of steps that may raise. *)
#[global] Instance Outcome_ret : MRet Outcome := fun A a => Return a.
#[global] Instance Outcome_bind : MBind Outcome := fun A B f o =>
  match o with
  | Return a => f a
  | Raise e => Raise e
  end.

(** Qualitative tiers printed after each dimension. *)
Inductive Tier : Type := Excellent | Good | Acceptable | Moderate | Poor.

(** One dimension's summary statistics: the dict stored in
    [results[metric]].  The key ['icc'] is present only when the ICC pass
    added it. *)
Record Stats : Type := mkStats {
  correlation : cell;
  p_value : cell;
  mae : cell;
  mean_difference : cell;
  std_difference : cell;
  n : nat;
  icc : option cell
}.

(** One printed line of the discrepancy table:
    [['ParticipantID', manual_col, claude_col, f'{metric}_Diff']]. *)
Record DiscrepancyFlag : Type := mkFlag {
  flag_subject : string;
  flag_dimension : string;
  flag_manual : cell;
  flag_automated : cell;
  flag_difference : cell
}.

Inductive Msg : Type :=
(* load_claude_json_files *)
| FoundFiles (count : nat)
| Loaded (participant_id : string)
| ErrorLoading (file_name : string) (e : exn)
| SuccessfullyLoaded (count : nat)
(* coded_json_analyzer *)
| ExtractedFrom (file_name : string)
| FailedToParse (file_name : string)
| ErrorProcessing (file_name : string) (e : exn)
| Processed (ok total : nat)
(* load_manual_coding *)
| LoadedManual (count : nat)
(* merge_datasets *)
| MergedDataset (count : nat)
| WarnManualOnly (count : nat) (ids : gset string)
| WarnClaudeOnly (count : nat) (ids : gset string)
(* calculate_agreement_statistics *)
| NoValidData (metric : string)
| MetricStats (metric : string) (s : Stats)
| Interpretation (metric : string) (t : Tier)
| ICCValue (metric : string) (v : cell)
| Reliability (metric : string) (t : Tier)
| CouldNotCalculateICC (metric : string) (e : exn)
(* analyze_discrepancies *)
| DiscrepancyHeader (threshold : Q)
| LargeDiscrepancies (metric : string) (count : nat) (rows : list DiscrepancyFlag)
| NoLargeDiscrepancies (metric : string)
(* main *)
| ErrorDuringAnalysis (e : exn).

Definition Run (A : Type) : Type := (list Msg * Outcome A)%type.

Definition raise {A} (e : exn) : Run A := ([], Raise e).
Definition print (m : Msg) : Run unit := ([m], Return tt).
Definition lift {A} (o : Outcome A) : Run A := ([], o).

Definition run_bind {A B} (f : A -> Run B) (m : Run A) : Run B :=
  match m with
  | (out, Return a) => let '(out', r) := f a in (out ++ out', r)
  | (out, Raise e) => (out, Raise e)
  end.

#[global] Instance Run_ret : MRet Run := fun A a => ([], Return a).
#[global] Instance Run_bind : MBind Run := fun A B f m => run_bind f m.

Definition printed {A} (r : Run A) : list Msg := fst r.
Definition outcome {A} (r : Run A) : Outcome A := snd r.

(* ===================================================================== *)
(** ** Strings: [str.split('_')[0]], [Path.stem], glob suffix match *)
(* ===================================================================== *)

(** [s.split('_')[0]]: the part of [s] before the first underscore. *)
Fixpoint split_underscore_first (s : string) : string :=
  match s with
  | EmptyString => EmptyString
  | String c rest =>
      if Ascii.eqb c "_"%char then EmptyString
      else String c (split_underscore_first rest)
  end.

Definition ends_with (suffix s : string) : bool :=
  let ls := String.length s in
  let lx := String.length suffix in
  (lx <=? ls)%nat && String.eqb (String.substring (ls - lx) lx s) suffix.

(** [Path.stem] of a name that ends in [.json]. *)
Definition stem (file_name : string) : string :=
  String.substring 0 (String.length file_name - 5) file_name.

(* ===================================================================== *)
(** ** Step 1: load the automated-coding JSON files *)
(* ===================================================================== *)

(** JSON values as [json.load] returns them.  A [string] is a sequence
    of 8-bit characters. *)
#[local] Set Warnings "-register-all".
Inductive jsonval : Type :=
| JsNull
| JsBool (b : bool)
| JsNumber (q : Q)
| JsString (s : string)
| JsArray (items : list jsonval)
| JsObject (members : list (string * jsonval)).

(** Python truthiness, as used by [a or b]. *)
Definition truthy (v : jsonval) : bool :=
  match v with
  | JsNull => false
  | JsBool b => b
  | JsNumber q => negb (Qeq_bool q 0)
  | JsString s => negb (String.eqb s "")
  | JsArray items => match items with [] => false | _ :: _ => true end
  | JsObject members => match members with [] => false | _ :: _ => true end
  end.

Definition py_or (a b : jsonval) : jsonval := if truthy a then a else b.

(** A Python dict with string keys, in insertion order: [d.get(key)]. *)
Fixpoint dict_get {V} (key : string) (l : list (string * V)) : option V :=
  match l with
  | [] => None
  | (k, v) :: rest => if String.eqb k key then Some v else dict_get key rest
  end.

(** [v.get(key)] on a JSON value: only a dict has the method. *)
Definition js_get (key : string) (v : jsonval) : Outcome (option jsonval) :=
  match v with
  | JsObject members => Return (dict_get key members)
  | _ => Raise AttributeError
  end.

(** The strings of a list, when all its items are strings. *)
Fixpoint strings_of (items : list jsonval) : option (list string) :=
  match items with
  | [] => Some []
  | JsString s :: rest => cons s <$> strings_of rest
  | _ :: _ => None
  end.

(** The characters of a string, each as a string. *)
Fixpoint characters (s : string) : list string :=
  match s with
  | EmptyString => []
  | String c rest => String c EmptyString :: characters rest
  end.

(** [sep.join(v)]: [v] must be iterable (a list, a string or a dict, whose
    iteration gives its keys) and every item a string; [TypeError]
    otherwise. *)
Definition py_join (sep : string) (v : jsonval) : Outcome string :=
  match v with
  | JsArray items =>
      match strings_of items with
      | Some strings => Return (String.concat sep strings)
      | None => Raise TypeError
      end
  | JsString s => Return (String.concat sep (characters s))
  | JsObject members => Return (String.concat sep (fst <$> members))
  | JsNull | JsBool _ | JsNumber _ => Raise TypeError
  end.

(** [len(v)]: [TypeError] unless [v] is a list, a string or a dict. *)
Definition py_len (v : jsonval) : Outcome nat :=
  match v with
  | JsArray items => Return (length items)
  | JsString s => Return (String.length s)
  | JsObject members => Return (length members)
  | JsNull | JsBool _ | JsNumber _ => Raise TypeError
  end.

(** The nested ["creativity_metrics"] object.  A numeric field is [None]
    when the key is absent, [Some None] when it is JSON [null], and
    [Some (Some q)] when it is a number (other values would make pandas
    build a column of objects, which the embedding does not cover).
    [categories_used] is [None] when the key is absent, and any JSON value
    otherwise. *)
Record CreativityMetrics : Type := mkMetrics {
  fluency : option (option Q);
  flexibility : option (option Q);
  elaboration_total : option (option Q);
  elaboration_density : option (option Q);
  categories_used : option jsonval
}.

(** [{}], the default of [data.get('creativity_metrics', {})]. *)
Definition no_metrics : CreativityMetrics := mkMetrics None None None None None.

(** A top-level JSON object.  The identifier keys hold any JSON value,
    [JsNull] when absent; [creativity_metrics] is [None] when the key is
    absent and [Some None] when its value is not an object;
    [transcript_id], [quality_flags] and [repetition_check] are [None]
    when the key is absent, and any JSON value otherwise. *)
Record CodedJson : Type := mkCoded {
  transcript_id : option jsonval;
  participant_id : jsonval;
  ParticipantID_key : jsonval;
  creativity_metrics : option (option CreativityMetrics);
  quality_flags : option jsonval;
  repetition_check : option jsonval
}.

(** What [json.load] makes of a file. *)
Inductive FileContent : Type :=
| Malformed                 (* json.load raises *)
| NotAnObject               (* valid JSON, but not a dict at top level *)
| Object (data : CodedJson).

Record File : Type := mkFile {
  file_name : string;
  content : FileContent
}.

(** [Path(folder).glob("*_coded.json")]. *)
Definition glob_coded (folder : list File) : list File :=
  filter (fun f => Is_true (ends_with "_coded.json" (file_name f))) folder.

(** A row of [claude_df]. *)
Record ClaudeRow : Type := mkClaude {
  c_ParticipantID : string;
  Fluency_Claude : cell;
  Flexibility_Claude : cell;
  Elaboration_Claude : cell;
  ElabDensity_Claude : cell
}.

(** [d.get(key, np.nan)] stored in a float column: an absent key gives NaN,
    and pandas reads [None] as missing too. *)
Definition get_or_nan (field : option (option Q)) : cell :=
  match field with
  | Some (Some q) => Num q
  | Some None => NaN
  | None => NaN
  end.

(** The record dict built from the metrics section. *)
Definition claude_record (pid : string) (cm : CreativityMetrics) : ClaudeRow :=
  {| c_ParticipantID := pid;
     Fluency_Claude := get_or_nan (fluency cm);
     Flexibility_Claude := get_or_nan (flexibility cm);
     Elaboration_Claude := get_or_nan (elaboration_total cm);
     ElabDensity_Claude := get_or_nan (elaboration_density cm) |}.

(** The value stored under ['Categories_Claude']: the categories joined
    by commas when they come as a list, which raises [TypeError] when an
    item of the list is not a string; any other value as it is. *)
Definition Categories_Claude (cm : CreativityMetrics) : Outcome jsonval :=
  match categories_used cm with
  | Some (JsArray items) =>
      joined ← py_join "," (JsArray items); mret (JsString joined)
  | Some v => mret v
  | None => mret (JsString "")
  end.

(** The body of the [try] block of [load_claude_json_files] for one file:
    [json.load], the identifier ([participant_id] or [ParticipantID] or the
    file stem, cut at the first underscore), the metrics section, and the
    record.  (The text column ['Categories_Claude'] is carried along
    unread; it is left out of the row, but building it can raise.) *)
Definition load_record (json_file : File) : Outcome ClaudeRow :=
  match content json_file with
  | Malformed => Raise JSONDecodeError
  | NotAnObject => Raise AttributeError
  | Object data =>
      match py_or (py_or (participant_id data) (ParticipantID_key data))
                  (JsString (stem (file_name json_file))) with
      | JsString pid =>
          let pid := split_underscore_first pid in
          match creativity_metrics data with
          | Some None => Raise AttributeError
          | Some (Some cm) => Categories_Claude cm;; Return (claude_record pid cm)
          | None => Categories_Claude no_metrics;; Return (claude_record pid no_metrics)
          end
      | _ => Raise AttributeError
      end
  end.

(** The [for json_file in json_files] loop with its [try]/[except
    Exception]/[continue]. *)
Fixpoint load_loop (json_files : list File) (claude_data : list ClaudeRow)
  : Run (list ClaudeRow) :=
  match json_files with
  | [] => mret claude_data
  | json_file :: rest =>
      match load_record json_file with
      | Return record =>
          print (Loaded (c_ParticipantID record));;
          load_loop rest (claude_data ++ [record])
      | Raise e =>
          print (ErrorLoading (file_name json_file) e);;
          load_loop rest claude_data
      end
  end.

(** [pd.DataFrame(claude_data)]: a frame built from an empty list of
    records has no columns at all; otherwise the columns are the keys of
    the records. *)
Inductive ClaudeFrame : Type :=
| NoColumns
| Frame (rows : list ClaudeRow).

Definition pd_DataFrame (claude_data : list ClaudeRow) : ClaudeFrame :=
  match claude_data with
  | [] => NoColumns
  | _ :: _ => Frame claude_data
  end.

Definition frame_rows (df : ClaudeFrame) : list ClaudeRow :=
  match df with
  | NoColumns => []
  | Frame rows => rows
  end.

Definition load_claude_json_files (json_folder : list File) : Run ClaudeFrame :=
  let json_files := glob_coded json_folder in
  match json_files with
  | [] => raise FileNotFoundError
  | _ :: _ =>
      print (FoundFiles (length json_files));;
      claude_data ← load_loop json_files [];
      let claude_df := pd_DataFrame claude_data in
      print (SuccessfullyLoaded (length (frame_rows claude_df)));;
      mret claude_df
  end.

(* ===================================================================== *)
(** ** [coded_json_analyzer.py]: per-file extraction *)
(* ===================================================================== *)

(** The extracted dict.  The values read with [.get] are JSON values,
    [JsNull] standing for Python's [None]; the numeric metrics are [None]
    when absent or null. *)
Record Extracted : Type := mkExtracted {
  x_transcript_id : jsonval;
  x_file_name : string;
  x_fluency : option Q;
  x_flexibility : option Q;
  x_elaboration_total : option Q;
  x_elaboration_density : option Q;
  x_categories_used : string;
  x_unclear_audio : jsonval;
  x_very_short_story : jsonval;
  x_very_long_story : jsonval;
  x_unusual_structure : jsonval;
  x_quality_notes : jsonval;
  x_descriptors_in_stage_1_count : nat;
  x_descriptors_repeated_in_stage_2_count : nat;
  x_new_elaborations_in_stage_2 : string;
  x_new_elaborations_count : nat
}.

(** [d.get(key, None)]. *)
Definition get_or_none (field : option (option Q)) : option Q :=
  match field with
  | Some v => v
  | None => None
  end.

(** The dict literal of [extract_metrics_from_file], entry by entry in
    the order Python evaluates them: the first entry that raises decides
    the exception. *)
Definition extracted_data (file_path : File) (data : CodedJson) : Outcome Extracted :=
  cm ← match creativity_metrics data with
       | None => Return no_metrics
       | Some (Some cm) => Return cm
       | Some None => Raise AttributeError
       end;
  categories ← py_join ", " (default (JsArray []) (categories_used cm));
  let flags := default (JsObject []) (quality_flags data) in
  unclear_audio ← js_get "unclear_audio" flags;
  very_short_story ← js_get "very_short_story" flags;
  very_long_story ← js_get "very_long_story" flags;
  unusual_structure ← js_get "unusual_structure" flags;
  notes ← js_get "notes" flags;
  let repetition := default (JsObject []) (repetition_check data) in
  stage_1 ← js_get "descriptors_in_stage_1" repetition;
  stage_1_count ← py_len (default (JsArray []) stage_1);
  repeated ← js_get "descriptors_repeated_in_stage_2" repetition;
  repeated_count ← py_len (default (JsArray []) repeated);
  new_elaborations ← js_get "new_elaborations_in_stage_2" repetition;
  new_elaborations_text ← py_join ", " (default (JsArray []) new_elaborations);
  new_elaborations_count ← py_len (default (JsArray []) new_elaborations);
  mret {| x_transcript_id := default (JsString "unknown") (transcript_id data);
          x_file_name := file_name file_path;
          x_fluency := get_or_none (fluency cm);
          x_flexibility := get_or_none (flexibility cm);
          x_elaboration_total := get_or_none (elaboration_total cm);
          x_elaboration_density := get_or_none (elaboration_density cm);
          x_categories_used := categories;
          x_unclear_audio := default JsNull unclear_audio;
          x_very_short_story := default JsNull very_short_story;
          x_very_long_story := default JsNull very_long_story;
          x_unusual_structure := default JsNull unusual_structure;
          x_quality_notes := default (JsString "") notes;
          x_descriptors_in_stage_1_count := stage_1_count;
          x_descriptors_repeated_in_stage_2_count := repeated_count;
          x_new_elaborations_in_stage_2 := new_elaborations_text;
          x_new_elaborations_count := new_elaborations_count |}.

(** [extract_metrics_from_file]: the dict, or [None] after logging when
    anything in the [try] block raised. *)
Definition extract_metrics_from_file (file_path : File) : Run (option Extracted) :=
  match content file_path with
  | Malformed =>
      print (FailedToParse (file_name file_path));; mret None
  | NotAnObject =>
      print (ErrorProcessing (file_name file_path) AttributeError);; mret None
  | Object data =>
      match extracted_data file_path data with
      | Return extracted =>
          print (ExtractedFrom (file_name file_path));;
          mret (Some extracted)
      | Raise e =>
          print (ErrorProcessing (file_name file_path) e);; mret None
      end
  end.

Fixpoint collect_loop (coded_files : list File) (all_metrics : list Extracted)
  : Run (list Extracted) :=
  match coded_files with
  | [] => mret all_metrics
  | file_path :: rest =>
      metrics ← extract_metrics_from_file file_path;
      match metrics with
      | Some m => collect_loop rest (all_metrics ++ [m])
      | None => collect_loop rest all_metrics
      end
  end.

(** [find_coded_json_files]: the files matching [*_coded.json] (none when
    the folder does not exist). *)
Definition find_coded_json_files (folder_path : list File) : Run (list File) :=
  let coded_files := glob_coded folder_path in
  print (FoundFiles (length coded_files));;
  mret coded_files.

Definition collect_all_metrics (folder_path : list File) : Run (list Extracted) :=
  coded_files ← find_coded_json_files folder_path;
  all_metrics ← collect_loop coded_files [];
  print (Processed (length all_metrics) (length coded_files));;
  mret all_metrics.

(* ===================================================================== *)
(** ** Step 2: load the manual coding *)
(* ===================================================================== *)

(** A row of the spreadsheet as [pd.read_excel] returns it, with the
    columns of the documented layout
    [ParticipantID | Fluency | Flexibility | Elaboration | ElabDensity].
    (Reading the file is pandas' work; the optional demographic columns are
    carried along unread and are left out.) *)
Record ExcelRow : Type := mkExcel {
  xl_ParticipantID : string;
  Fluency : cell;
  Flexibility : cell;
  Elaboration : cell;
  ElabDensity : cell
}.

(** A row of [manual_df] after [rename(columns=rename_dict)] and the
    selection of [keep_cols]. *)
Record ManualRow : Type := mkManual {
  m_ParticipantID : string;
  Fluency_Manual : cell;
  Flexibility_Manual : cell;
  Elaboration_Manual : cell;
  Elaboration_Density_Manual : cell
}.

Definition rename_row (r : ExcelRow) : ManualRow :=
  {| m_ParticipantID := xl_ParticipantID r;
     Fluency_Manual := Fluency r;
     Flexibility_Manual := Flexibility r;
     Elaboration_Manual := Elaboration r;
     Elaboration_Density_Manual := ElabDensity r |}.

Definition load_manual_coding (sheet : list ExcelRow) : Run (list ManualRow) :=
  let manual_df := rename_row <$> sheet in
  print (LoadedManual (length manual_df));;
  mret manual_df.

(* ===================================================================== *)
(** ** Step 3: merge the two tables *)
(* ===================================================================== *)

(** A row of [merged_df]: the manual columns, the automated columns, and
    the columns added later by [analyze_discrepancies]. *)
Record MergedRow : Type := mkMerged {
  left : ManualRow;
  right : ClaudeRow;
  derived : gmap string cell
}.

Definition ParticipantID (r : MergedRow) : string := m_ParticipantID (left r).

(** [manual_df.merge(claude_df, on='ParticipantID', how='inner')] on two
    frames that both have the key column: every manual row, in order, is
    paired with every automated row that carries the same identifier. *)
Definition pd_merge_inner (manual_df : list ManualRow) (claude_rows : list ClaudeRow)
  : list MergedRow :=
  m ← manual_df;
  c ← filter (fun c => c_ParticipantID c = m_ParticipantID m) claude_rows;
  [mkMerged m c ∅].

Definition manual_ids (manual_df : list ManualRow) : gset string :=
  list_to_set (m_ParticipantID <$> manual_df).

Definition claude_ids (claude_rows : list ClaudeRow) : gset string :=
  list_to_set (c_ParticipantID <$> claude_rows).

(** [if s: print(...)] for a set [s]. *)
Definition warn_if_nonempty (mk : nat -> gset string -> Msg) (s : gset string)
  : Run unit :=
  if decide (s = ∅) then mret tt else print (mk (size s) s).

Definition merge_datasets (manual_df : list ManualRow) (claude_df : ClaudeFrame)
  : Run (list MergedRow) :=
  match claude_df with
  | NoColumns => raise (KeyError "ParticipantID")
  | Frame claude_rows =>
      let merged_df := pd_merge_inner manual_df claude_rows in
      print (MergedDataset (length merged_df));;
      let manual_only := manual_ids manual_df ∖ claude_ids claude_rows in
      let claude_only := claude_ids claude_rows ∖ manual_ids manual_df in
      warn_if_nonempty WarnManualOnly manual_only;;
      warn_if_nonempty WarnClaudeOnly claude_only;;
      mret merged_df
  end.

(* ===================================================================== *)
(** ** Columns of the merged frame, addressed by name *)
(* ===================================================================== *)

Definition merged_columns : list (string * (MergedRow -> cell)) :=
  [ ("Fluency_Manual", fun r => Fluency_Manual (left r));
    ("Flexibility_Manual", fun r => Flexibility_Manual (left r));
    ("Elaboration_Manual", fun r => Elaboration_Manual (left r));
    ("Elaboration_Density_Manual", fun r => Elaboration_Density_Manual (left r));
    ("Fluency_Claude", fun r => Fluency_Claude (right r));
    ("Flexibility_Claude", fun r => Flexibility_Claude (right r));
    ("Elaboration_Claude", fun r => Elaboration_Claude (right r));
    ("ElabDensity_Claude", fun r => ElabDensity_Claude (right r)) ].

(** [merged_df[name]]: the column accessor, or [None] where pandas raises
    [KeyError]. *)
Definition column (name : string) : option (MergedRow -> cell) :=
  dict_get name merged_columns.

(** [merged_df[[manual_col, claude_col]].dropna()] as a list of pairs
    (manual, automated): the rows where both values are present. *)
Definition dropna (mc cc : MergedRow -> cell) (merged_df : list MergedRow)
  : list (Q * Q) :=
  r ← merged_df;
  match mc r, cc r with
  | Num m, Num a => [(m, a)]
  | _, _ => []
  end.

(* ===================================================================== *)
(** ** Numeric library routines *)
(* ===================================================================== *)

Inductive Rater : Type := Manual | Claude.

(** What a run takes from its environment: the library routines that
    leave the rationals, and the writes to the output folder.
    - [fsqrt]: the floating-point square root;
    - [pearson_pvalue n r]: the two-sided p-value scipy derives from the
      sample size and the coefficient;
    - [PINGOUIN_AVAILABLE]: whether [import pingouin] succeeded;
    - [pg_ICC2]: [pg.intraclass_corr] on the long-format table followed by
      the selection of the ICC2 row: a value, or an exception;
    - [makedirs]: [os.makedirs(folder, exist_ok=True)], relative to the
      output folder ([""] is the output folder itself);
    - [to_csv]: [merged_df.to_csv] to [merged_comparison.csv];
    - [savefig]: [plt.savefig] of the drawn figure under a file name;
    - [write_report]: [open(output_file, 'w')] and the writes that follow,
      for the report of a table and its results.
    Each of the four writes either succeeds or raises. *)
Record Numerics : Type := mkNumerics {
  fsqrt : Q -> Q;
  pearson_pvalue : nat -> Q -> Q;
  PINGOUIN_AVAILABLE : bool;
  pg_ICC2 : list (string * Rater * cell) -> Outcome cell;
  makedirs : string -> Outcome unit;
  to_csv : list MergedRow -> Outcome unit;
  savefig : string -> Outcome unit;
  write_report : list MergedRow -> list (string * Stats) -> Outcome unit
}.

Definition Qsum (l : list Q) : Q := foldr Qplus 0%Q l.

Definition Qlen (l : list Q) : Q := inject_Z (Z.of_nat (length l)).

Definition Qmean (l : list Q) : Q := (Qsum l / Qlen l)%Q.

Definition Qsign (q : Q) : Q := inject_Z (Z.sgn (Qnum q)).

Definition Qclip (lo hi q : Q) : Q :=
  if Qle_bool hi q then hi else if Qle_bool q lo then lo else q.

(** [(x == x[0]).all()]. *)
Definition is_constant (xs : list Q) : bool :=
  match xs with
  | [] => true
  | x0 :: _ => forallb (fun x => Qeq_bool x x0) xs
  end.

Section Engine.

Context (lib : Numerics).

(** [scipy.stats.pearsonr(x, y)] on two samples of equal length:
    - fewer than two observations: [ValueError];
    - a constant input: the coefficient is not defined, scipy warns and
      returns NaN for both the statistic and the p-value;
    - two observations: the product of the signs, p-value 1;
    - otherwise the normalised dot product of the centred samples, clipped
      to [-1, 1], and its p-value. *)
Definition pearsonr (xs ys : list Q) : Outcome (cell * cell) :=
  let n := length xs in
  if (n <? 2)%nat then Raise (ValueError "x and y must have length at least 2.")
  else if is_constant xs || is_constant ys then Return (NaN, NaN)
  else if (n =? 2)%nat then
    let dx := (nth 1 xs 0 - nth 0 xs 0)%Q in
    let dy := (nth 1 ys 0 - nth 0 ys 0)%Q in
    Return (Num (Qsign dx * Qsign dy)%Q, Num 1%Q)
  else
    let xm := (fun x => x - Qmean xs)%Q <$> xs in
    let ym := (fun y => y - Qmean ys)%Q <$> ys in
    let normxm := fsqrt lib (Qsum ((fun x => x * x)%Q <$> xm)) in
    let normym := fsqrt lib (Qsum ((fun y => y * y)%Q <$> ym)) in
    let r := Qsum (zip_with (fun x y => (x / normxm) * (y / normym))%Q xm ym) in
    let r := Qclip (-1) 1 r in
    Return (Num r, Num (pearson_pvalue lib n r)).

(** [sklearn.metrics.mean_absolute_error] on a non-empty sample: the
    mean of the absolute differences, as a rational number (see the
    conventions: the roundings of the library are not modelled). *)
Definition mean_absolute_error (valid_data : list (Q * Q)) : cell :=
  Num (Qmean ((fun p => Qabs (fst p - snd p)) <$> valid_data)).

(** [Series.mean()] of the signed differences. *)
Definition series_mean (ds : list Q) : cell :=
  match ds with
  | [] => NaN
  | _ :: _ => Num (Qmean ds)
  end.

(** [Series.std()], the sample standard deviation (ddof = 1): NaN below two
    observations. *)
Definition series_std (ds : list Q) : cell :=
  if (length ds <? 2)%nat then NaN
  else
    let mu := Qmean ds in
    let ss := Qsum ((fun d => (d - mu) * (d - mu))%Q <$> ds) in
    Num (fsqrt lib (ss / (Qlen ds - 1))).

(** The [if corr >= 0.90 ... else] ladder.  A decimal constant of the
    script is the float64 nearest to it. *)
Definition correlation_tier (corr : cell) : Tier :=
  if cell_ge corr (round64 (90 # 100)) then Excellent
  else if cell_ge corr (round64 (80 # 100)) then Good
  else if cell_ge corr (round64 (70 # 100)) then Acceptable
  else Poor.

(** The ladder applied to the ICC. *)
Definition reliability_tier (icc_result : cell) : Tier :=
  if cell_ge icc_result (round64 (90 # 100)) then Excellent
  else if cell_ge icc_result (round64 (75 # 100)) then Good
  else if cell_ge icc_result (round64 (50 # 100)) then Moderate
  else Poor.

(** [results]: a Python dict, kept in insertion order. *)
Definition Results : Type := list (string * Stats).

Fixpoint dict_set (key : string) (v : Stats) (d : Results) : Results :=
  match d with
  | [] => [(key, v)]
  | (k, w) :: rest =>
      if String.eqb k key then (k, v) :: rest else (k, w) :: dict_set key v rest
  end.

(** The six statistics of one dimension, from its valid pairs. *)
Definition stats_of (valid_data : list (Q * Q)) (corr p : cell) : Stats :=
  let diffs := (fun p => (fst p - snd p)%Q) <$> valid_data in
  {| correlation := corr;
     p_value := p;
     mae := mean_absolute_error valid_data;
     mean_difference := series_mean diffs;
     std_difference := series_std diffs;
     n := length valid_data;
     icc := None |}.

(** The first [for metric in metrics] loop of
    [calculate_agreement_statistics]. *)
Fixpoint agreement_loop (remaining : list string) (merged_df : list MergedRow)
  (results : Results) : Run Results :=
  match remaining with
  | [] => mret results
  | metric :: rest =>
      let manual_col := metric +:+ "_Manual" in
      let claude_col := metric +:+ "_Claude" in
      match column manual_col, column claude_col with
      | Some mc, Some cc =>
          let valid_data := dropna mc cc merged_df in
          if (length valid_data =? 0)%nat then
            print (NoValidData metric);;
            agreement_loop rest merged_df results
          else
            '(corr, p) ← lift (pearsonr (fst <$> valid_data) (snd <$> valid_data));
            let st := stats_of valid_data corr p in
            print (MetricStats metric st);;
            print (Interpretation metric (correlation_tier corr));;
            agreement_loop rest merged_df (dict_set metric st results)
      | None, _ => raise (KeyError manual_col)
      | Some _, None => raise (KeyError claude_col)
      end
  end.

(** [calculate_icc]: the two columns stacked in long format (one row per
    subject and rater), NaN rows dropped, handed to pingouin. *)
Definition calculate_icc (df : list MergedRow) (metric : string) : Outcome cell :=
  let manual_col := metric +:+ "_Manual" in
  let claude_col := metric +:+ "_Claude" in
  match column manual_col, column claude_col with
  | Some mc, Some cc =>
      let data_long :=
        ((fun r => (ParticipantID r, Manual, mc r)) <$> df)
        ++ ((fun r => (ParticipantID r, Claude, cc r)) <$> df) in
      let data_long := filter (fun t => Is_true (is_num (snd t))) data_long in
      pg_ICC2 lib data_long
  | None, _ => Raise (KeyError manual_col)
  | Some _, None => Raise (KeyError claude_col)
  end.

Definition set_icc (st : Stats) (v : cell) : Stats :=
  {| correlation := correlation st;
     p_value := p_value st;
     mae := mae st;
     mean_difference := mean_difference st;
     std_difference := std_difference st;
     n := n st;
     icc := Some v |}.

(** The second loop, run only when pingouin was imported.  Each iteration
    is wrapped in [try]/[except Exception]: a failure of [calculate_icc], or
    the [KeyError] of [results[metric]] for a dimension that has no entry,
    is printed and the loop goes on. *)
Fixpoint icc_loop (remaining : list string) (merged_df : list MergedRow)
  (results : Results) : Run Results :=
  match remaining with
  | [] => mret results
  | metric :: rest =>
      match calculate_icc merged_df metric with
      | Raise e =>
          print (CouldNotCalculateICC metric e);;
          icc_loop rest merged_df results
      | Return icc_result =>
          match dict_get metric results with
          | None =>
              print (CouldNotCalculateICC metric (KeyError metric));;
              icc_loop rest merged_df results
          | Some st =>
              print (ICCValue metric icc_result);;
              print (Reliability metric (reliability_tier icc_result));;
              icc_loop rest merged_df (dict_set metric (set_icc st icc_result) results)
          end
      end
  end.

(** The fixed list of analysed dimensions. *)
Definition metrics : list string := ["Fluency"; "Flexibility"; "Elaboration"].

Definition calculate_agreement_statistics (merged_df : list MergedRow) : Run Results :=
  results ← agreement_loop metrics merged_df [];
  if PINGOUIN_AVAILABLE lib then icc_loop metrics merged_df results
  else mret results.

End Engine.

(* ===================================================================== *)
(** ** Step 5: discrepancies *)
(* ===================================================================== *)

(** [merged_df[name] = values], row by row. *)
Definition set_derived (name : string) (v : cell) (r : MergedRow) : MergedRow :=
  {| left := left r; right := right r; derived := <[name := v]> (derived r) |}.

(** Reading back a column that was just assigned. *)
Definition get_derived (name : string) (r : MergedRow) : cell :=
  match derived r !! name with
  | Some v => v
  | None => NaN
  end.

(** A row of the printed table
    [discrepancies[['ParticipantID', manual_col, claude_col, f'{metric}_Diff']]]. *)
Definition flag_row (metric : string) (mc cc : MergedRow -> cell) (r : MergedRow)
  : DiscrepancyFlag :=
  {| flag_subject := ParticipantID r;
     flag_dimension := metric;
     flag_manual := mc r;
     flag_automated := cc r;
     flag_difference := get_derived (metric +:+ "_Diff") r |}.

Fixpoint discrepancy_loop (remaining : list string) (merged_df : list MergedRow)
  (threshold : Q) : Run (list MergedRow) :=
  match remaining with
  | [] => mret merged_df
  | metric :: rest =>
      let manual_col := metric +:+ "_Manual" in
      let claude_col := metric +:+ "_Claude" in
      match column manual_col, column claude_col with
      | Some mc, Some cc =>
          let merged_df :=
            (fun r => set_derived (metric +:+ "_Diff") (cell_sub (mc r) (cc r)) r)
              <$> merged_df in
          let merged_df :=
            (fun r => set_derived (metric +:+ "_AbsDiff")
                        (cell_abs (get_derived (metric +:+ "_Diff") r)) r)
              <$> merged_df in
          let discrepancies :=
            filter (fun r => Is_true (cell_ge (get_derived (metric +:+ "_AbsDiff") r) threshold))
                   merged_df in
          (if (0 <? length discrepancies)%nat
           then print (LargeDiscrepancies metric (length discrepancies)
                         (flag_row metric mc cc <$> discrepancies))
           else print (NoLargeDiscrepancies metric));;
          discrepancy_loop rest merged_df threshold
      | None, _ => raise (KeyError manual_col)
      | Some _, None => raise (KeyError claude_col)
      end
  end.

(** [def analyze_discrepancies(merged_df, threshold=2)]: the threshold is
    [None] when the caller leaves it out. *)
Definition analyze_discrepancies (merged_df : list MergedRow) (threshold : option Q)
  : Run (list MergedRow) :=
  let threshold := default 2%Q threshold in
  print (DiscrepancyHeader threshold);;
  discrepancy_loop metrics merged_df threshold.

(** The flags a run printed, in order. *)
Definition flags_in (out : list Msg) : list DiscrepancyFlag :=
  m ← out;
  match m with
  | LargeDiscrepancies _ _ rows => rows
  | _ => []
  end.

Definition discrepancy_flags (merged_df : list MergedRow) (threshold : option Q)
  : list DiscrepancyFlag :=
  flags_in (printed (analyze_discrepancies merged_df threshold)).

(* ===================================================================== *)
(** ** Step 7: the report and its conclusion *)
(* ===================================================================== *)

Definition cell_add (a b : cell) : cell :=
  match a, b with
  | Num x, Num y => Num (float_add x y)
  | _, _ => NaN
  end.

(** [np.mean] of a Python list of floats: NaN for the empty list, NaN as
    soon as one entry is NaN; otherwise the sum divided by the count.
    numpy adds fewer than eight numbers one after the other, from the
    left, starting from zero, each addition rounding; the list averaged
    here has one entry per dimension, three at most.  (From eight numbers
    on numpy adds in blocks, which this definition does not follow.) *)
Definition np_mean (l : list cell) : cell :=
  match l with
  | [] => NaN
  | _ :: _ =>
      match foldl cell_add (Num 0) l with
      | Num s => Num (round64 (s / inject_Z (Z.of_nat (length l))))
      | NaN => NaN
      end
  end.

Inductive Conclusion : Type :=
| ExcellentAgreement
| GoodToModerateAgreement
| PoorAgreement.

Definition conclusion_text (c : Conclusion) : string :=
  match c with
  | ExcellentAgreement =>
      "CONCLUSION: Excellent agreement between manual and automated coding."
  | GoodToModerateAgreement =>
      "CONCLUSION: Good to moderate agreement between manual and automated coding."
  | PoorAgreement =>
      "CONCLUSION: Poor agreement between manual and automated coding."
  end.

Definition recommendation_text (c : Conclusion) : string :=
  match c with
  | ExcellentAgreement =>
      "Recommendation: Automated system is appropriate for coding remaining transcripts."
  | GoodToModerateAgreement =>
      "Recommendation: Consider using automated system with manual review of flagged cases."
  | PoorAgreement =>
      "Recommendation: Manual coding required for all transcripts, or refine automated system."
  end.

(** The [if]/[elif]/[else] on the two averages. *)
Definition overall_assessment (avg_corr avg_mae : cell) : Conclusion :=
  if cell_ge avg_corr (round64 (85 # 100)) && cell_lt avg_mae (round64 (15 # 10))
  then ExcellentAgreement
  else if cell_ge avg_corr (round64 (70 # 100)) && cell_lt avg_mae (round64 (25 # 10))
  then GoodToModerateAgreement
  else PoorAgreement.

(** The content of the report file. *)
Record Report : Type := mkReport {
  sample_size : nat;
  agreement_section : list (string * Stats);
  avg_corr : cell;
  avg_mae : cell;
  conclusion : Conclusion
}.

Definition generate_summary_report (merged_df : list MergedRow)
  (results : list (string * Stats)) : Report :=
  let avg_corr := np_mean ((fun kv => correlation (snd kv)) <$> results) in
  let avg_mae := np_mean ((fun kv => mae (snd kv)) <$> results) in
  {| sample_size := length merged_df;
     agreement_section := results;
     avg_corr := avg_corr;
     avg_mae := avg_mae;
     conclusion := overall_assessment avg_corr avg_mae |}.

(* ===================================================================== *)
(** ** Step 6: the comparison plots *)
(* ===================================================================== *)

(** The [for metric in metrics] loop of [create_visualizations], reduced to
    what decides whether a figure is written: the rows with both values
    (the identifier column is never missing), the [continue] when there are
    none, and the correlation computed for the title.  Drawing is
    matplotlib's work; the result is the list of the files saved, relative
    to the output folder. *)
Fixpoint visualization_loop (lib : Numerics) (remaining : list string)
    (merged_df : list MergedRow) (saved : list string) : Outcome (list string) :=
  match remaining with
  | [] => Return saved
  | metric :: rest =>
      let manual_col := metric +:+ "_Manual" in
      let claude_col := metric +:+ "_Claude" in
      match column manual_col, column claude_col with
      | Some mc, Some cc =>
          let plot_data := dropna mc cc merged_df in
          if (length plot_data =? 0)%nat then
            visualization_loop lib rest merged_df saved
          else
            match pearsonr lib (fst <$> plot_data) (snd <$> plot_data) with
            | Return _ =>
                visualization_loop lib rest merged_df
                  (saved ++ [metric +:+ "_comparison.png"])
            | Raise e => Raise e
            end
      | None, _ => Raise (KeyError manual_col)
      | Some _, None => Raise (KeyError claude_col)
      end
  end.

Definition create_visualizations (lib : Numerics) (merged_df : list MergedRow)
  : Outcome (list string) :=
  visualization_loop lib metrics merged_df [].

(** [create_visualizations] with the file system: [os.makedirs] on the
    plot folder, then the loop, each figure saved as soon as it is drawn.
    Each of these writes can raise. *)
Fixpoint save_loop (lib : Numerics) (remaining : list string)
    (merged_df : list MergedRow) : Outcome unit :=
  match remaining with
  | [] => Return tt
  | metric :: rest =>
      let manual_col := metric +:+ "_Manual" in
      let claude_col := metric +:+ "_Claude" in
      match column manual_col, column claude_col with
      | Some mc, Some cc =>
          let plot_data := dropna mc cc merged_df in
          if (length plot_data =? 0)%nat then save_loop lib rest merged_df
          else
            pearsonr lib (fst <$> plot_data) (snd <$> plot_data);;
            savefig lib (metric +:+ "_comparison.png");;
            save_loop lib rest merged_df
      | None, _ => Raise (KeyError manual_col)
      | Some _, None => Raise (KeyError claude_col)
      end
  end.

Definition save_visualizations (lib : Numerics) (merged_df : list MergedRow)
  : Outcome unit :=
  makedirs lib "plots";;
  save_loop lib metrics merged_df.

(* ===================================================================== *)
(** ** The whole run *)
(* ===================================================================== *)

(** Steps 1 to 3 of [main] and of [quick_stats]. *)
Definition load_and_merge (json_folder : list File) (sheet : list ExcelRow)
  : Run (list MergedRow) :=
  claude_df ← load_claude_json_files json_folder;
  manual_df ← load_manual_coding sheet;
  merge_datasets manual_df claude_df.

(** The [try] block of [main]: the seven steps, with the writes to the
    output folder (the lines that announce a step or a saved file are left
    out of the printed output). *)
Definition main_steps (lib : Numerics) (json_folder : list File) (sheet : list ExcelRow)
  : Run (list MergedRow * Results * Report) :=
  merged_df ← load_and_merge json_folder sheet;
  lift (makedirs lib "");;
  lift (to_csv lib merged_df);;
  results ← calculate_agreement_statistics lib merged_df;
  merged_df ← analyze_discrepancies merged_df (Some 2%Q);
  lift (save_visualizations lib merged_df);;
  lift (write_report lib merged_df results);;
  mret (merged_df, results, generate_summary_report merged_df results).

(** [quick_stats]: the statistics without the other outputs. *)
Definition quick_stats (lib : Numerics) (sheet : list ExcelRow) (json_folder : list File)
  : Run (list MergedRow * Results) :=
  merged_df ← load_and_merge json_folder sheet;
  results ← calculate_agreement_statistics lib merged_df;
  mret (merged_df, results).

(** [main]: everything printed, and the artefacts when no step raised. *)
Definition main (lib : Numerics) (json_folder : list File) (sheet : list ExcelRow)
  : list Msg * option (list MergedRow * Results * Report) :=
  match main_steps lib json_folder sheet with
  | (out, Return artefacts) => (out, Some artefacts)
  | (out, Raise e) => (out ++ [ErrorDuringAnalysis e], None)
  end.

(* ===================================================================== *)
(** ** Views used to state the properties *)
(* ===================================================================== *)

(** The manual and the automated value of a dimension in an aligned row,
    through the same column names the code builds. *)
Definition manual_value (metric : string) (r : MergedRow) : cell :=
  match column (metric +:+ "_Manual") with
  | Some mc => mc r
  | None => NaN
  end.

Definition automated_value (metric : string) (r : MergedRow) : cell :=
  match column (metric +:+ "_Claude") with
  | Some cc => cc r
  | None => NaN
  end.

(** The flags one dimension contributes, read off the rows. *)
Definition flags_of_metric (metric : string) (mc cc : MergedRow -> cell) (T : Q)
  (merged_df : list MergedRow) : list DiscrepancyFlag :=
  r ← merged_df;
  match mc r, cc r with
  | Num m, Num a =>
      if Qle_bool T (Qabs (float_sub m a))
      then [mkFlag (ParticipantID r) metric (Num m) (Num a) (Num (float_sub m a))]
      else []
  | _, _ => []
  end.

(** What the detector prints, dimension by dimension. *)
Definition flags_spec (remaining : list string) (T : Q) (df : list MergedRow)
  : list DiscrepancyFlag :=
  metric ← remaining;
  match column (metric +:+ "_Manual"), column (metric +:+ "_Claude") with
  | Some mc, Some cc => flags_of_metric metric mc cc T df
  | _, _ => []
  end.

(** The valid pairs of a dimension: (manual, automated) for the rows where
    both values are present, in row order. *)
Definition valid_pairs (metric : string) (merged_df : list MergedRow) : list (Q * Q) :=
  r ← merged_df;
  match manual_value metric r, automated_value metric r with
  | Num m, Num a => [(m, a)]
  | _, _ => []
  end.

(** The six statistics of an entry of [results], without the optional
    ['icc'] key. *)
Definition core (st : Stats) : Stats :=
  {| correlation := correlation st;
     p_value := p_value st;
     mae := mae st;
     mean_difference := mean_difference st;
     std_difference := std_difference st;
     n := n st;
     icc := None |}.

(** The entry the first loop stores for a dimension, as a function of its
    valid pairs alone: none when there is no valid pair or when the
    correlation routine raises. *)
Definition entry_of (lib : Numerics) (valid_data : list (Q * Q)) : option Stats :=
  match valid_data with
  | [] => None
  | _ :: _ =>
      match pearsonr lib (fst <$> valid_data) (snd <$> valid_data) with
      | Return (corr, p) => Some (stats_of lib valid_data corr p)
      | Raise _ => None
      end
  end.

(** The exception scipy raises for a sample of fewer than two points. *)
Definition single_pair_error : exn :=
  ValueError "x and y must have length at least 2.".

(** The value a run returned, if it returned. *)
Definition returned {A} (r : Run A) : option A :=
  match outcome r with
  | Return a => Some a
  | Raise _ => None
  end.

(** A sample without variance: all its values are equal. *)
Definition constant_sample (xs : list Q) : Prop :=
  forall x y, x ∈ xs -> y ∈ xs -> (x == y)%Q.

(** Comparisons of a float with a constant, as propositions: both fail on
    NaN. *)
Definition at_least (c : cell) (t : Q) : Prop := ∃ q, c = Num q ∧ (t <= q)%Q.

Definition below (c : cell) (t : Q) : Prop := ∃ q, c = Num q ∧ (q < t)%Q.

(** A cell that holds a float64 number or NaN. *)
Definition float64_cell (c : cell) : Prop :=
  match c with
  | Num q => float64 q
  | NaN => True
  end.

(** An aligned table whose scores in the analysed dimensions are float64
    numbers or NaN. *)
Definition float64_table (merged_df : list MergedRow) : Prop :=
  forall r metric, r ∈ merged_df -> metric ∈ metrics ->
    float64_cell (manual_value metric r) ∧ float64_cell (automated_value metric r).

(** A result set whose correlations and MAEs are float64 numbers or NaN. *)
Definition float64_results (results : list (string * Stats)) : Prop :=
  forall key st, (key, st) ∈ results ->
    float64_cell (correlation st) ∧ float64_cell (mae st).

(** The sum of a list of floats, added one after the other from zero. *)
Definition float_sum (qs : list Q) : Q := foldl float_add 0%Q qs.

(** A table whose elaboration-density cells are replaced, row by row. *)
Definition with_density (dm dc : cell) (r : MergedRow) : MergedRow :=
  {| left := {| m_ParticipantID := m_ParticipantID (left r);
                Fluency_Manual := Fluency_Manual (left r);
                Flexibility_Manual := Flexibility_Manual (left r);
                Elaboration_Manual := Elaboration_Manual (left r);
                Elaboration_Density_Manual := dm |};
     right := {| c_ParticipantID := c_ParticipantID (right r);
                 Fluency_Claude := Fluency_Claude (right r);
                 Flexibility_Claude := Flexibility_Claude (right r);
                 Elaboration_Claude := Elaboration_Claude (right r);
                 ElabDensity_Claude := dc |};
     derived := derived r |}.

Definition change_density (g : MergedRow -> cell * cell) (df : list MergedRow)
  : list MergedRow :=
  (fun r => with_density (fst (g r)) (snd (g r)) r) <$> df.

(* ===================================================================== *)
(** ** Worked examples *)
(* ===================================================================== *)

(** Square root to six decimals. *)
Definition sqrt_approx (q : Q) : Q :=
  Z.sqrt (Qnum q * 10 ^ 12 / Zpos (Qden q)) # 1000000.

(** The environment of the examples: pingouin not installed, every write
    succeeds.  Every example below has two observations or a constant input
    whenever the correlation is computed, so that scipy's p-value is 1 or
    NaN and the [pearson_pvalue] field is never consulted. *)
Definition example_numerics : Numerics :=
  {| fsqrt := sqrt_approx;
     pearson_pvalue := fun _ _ => 0%Q;
     PINGOUIN_AVAILABLE := false;
     pg_ICC2 := fun _ => Raise LibraryError;
     makedirs := fun _ => Return tt;
     to_csv := fun _ => Return tt;
     savefig := fun _ => Return tt;
     write_report := fun _ _ => Return tt |}.

Definition metrics_section (f x e : Z) (d : Q) : option (option CreativityMetrics) :=
  Some (Some (mkMetrics (Some (Some (inject_Z f))) (Some (Some (inject_Z x)))
                        (Some (Some (inject_Z e))) (Some (Some d))
                        (Some (JsArray [JsString "character"; JsString "action"])))).

Definition coded_file (name pid : string) (f x e : Z) (d : Q) : File :=
  mkFile name (Object (mkCoded (Some (JsString pid)) (JsString pid) JsNull
                         (metrics_section f x e d) None None)).

Definition excel_row (pid : string) (f x e : Z) (d : Q) : ExcelRow :=
  mkExcel pid (Num (inject_Z f)) (Num (inject_Z x)) (Num (inject_Z e)) (Num d).

Definition aligned (pid : string) (mf mx me : cell) (af ax ae : cell) : MergedRow :=
  mkMerged (mkManual pid mf mx me NaN) (mkClaude pid af ax ae NaN) ∅.

(** Subject P01 coded by hand only, P02 by the model only, P03 by both with
    Fluency 4 (manual) and 6 (automated). *)
Definition one_common_subject_sheet : list ExcelRow :=
  [excel_row "P01" 5 3 1 (1 # 5); excel_row "P03" 4 3 1 (1 # 4)].

Definition one_common_subject_folder : list File :=
  [coded_file "P02_coded.json" "P02" 5 3 1 (1 # 5);
   coded_file "P03_coded.json" "P03" 6 3 1 (1 # 6)].

Definition one_common_subject_merged : list MergedRow :=
  [mkMerged (mkManual "P03" (Num 4) (Num 3) (Num 1) (Num (1 # 4)))
            (mkClaude "P03" (Num 6) (Num 3) (Num 1) (Num (1 # 6))) ∅].

(** Two subjects whose manual Fluency is the same (5 and 5). *)
Definition flat_fluency_merged : list MergedRow :=
  [aligned "P01" (Num 5) (Num 1) (Num 1) (Num 3) (Num 1) (Num 2);
   aligned "P02" (Num 5) (Num 2) (Num 2) (Num 4) (Num 2) (Num 1)].

(** One subject whose Fluency is 0.3 by hand and 0.1 by the model. *)
Definition decimal_scores_merged : list MergedRow :=
  [aligned "P01" (Num (round64 (3 # 10))) (Num 3) (Num 1)
                 (Num (round64 (1 # 10))) (Num 3) (Num 1)].

(** Results in which each of the three dimensions has the correlation 0.7
    and the MAE 1. *)
Definition correlations_of_070 : list (string * Stats) :=
  (fun metric => (metric, mkStats (Num (round64 (7 # 10))) (Num 0) (Num 1)
                            (Num 0) (Num 1) 3 None)) <$> metrics.


(** Three subjects: P02 lacks the automated Elaboration score, P03 lacks
    the manual Fluency and Flexibility scores. *)
Definition partly_missing_merged : list MergedRow :=
  [aligned "P01" (Num 5) (Num 3) (Num 1) (Num 5) (Num 2) (Num 1);
   aligned "P02" (Num 3) (Num 2) (Num 4) (Num 6) (Num 3) NaN;
   aligned "P03" NaN NaN (Num 2) (Num 2) (Num 2) (Num 5)].


(** The record a file contributes to the automated table, if it loads. *)
Definition loadable (f : File) : option ClaudeRow :=
  match load_record f with
  | Return record => Some record
  | Raise _ => None
  end.

(** The dict a file contributes to the extractor's summary, if any. *)
Definition extractable (f : File) : option Extracted :=
  match outcome (extract_metrics_from_file f) with
  | Return (Some m) => Some m
  | _ => None
  end.

(** A folder with one good record, one file that is not valid JSON, and a
    file the glob pattern does not match. *)
Definition folder_with_malformed : list File :=
  [coded_file "P02_coded.json" "P02" 5 3 1 (1 # 5);
   mkFile "P09_coded.json" Malformed;
   mkFile "notes.txt" Malformed].

(** A folder whose only coded file is not valid JSON. *)
Definition folder_all_malformed : list File :=
  [mkFile "P09_coded.json" Malformed].




(* ===================================================================== *)
(** ** Further views *)
(* ===================================================================== *)

(** [c in s] for a character. *)
Fixpoint contains_char (c : ascii) (s : string) : bool :=
  match s with
  | EmptyString => false
  | String d rest => Ascii.eqb d c || contains_char c rest
  end.

(** The per-file error lines of the loader. *)
Definition is_load_error (m : Msg) : bool :=
  match m with
  | ErrorLoading _ _ => true
  | _ => false
  end.

(** The per-file failure lines of the extractor. *)
Definition is_extract_failure (m : Msg) : bool :=
  match m with
  | FailedToParse _ | ErrorProcessing _ _ => true
  | _ => false
  end.

(** A file as the coding stage names it, [f"{participant_id}_coded.json"],
    whose JSON carries no usable identifier of its own. *)
Definition coded_output_name (participant_id : string) : string :=
  participant_id +:+ "_coded.json".

(** A value of an identifier key that Python's [or] skips. *)
Definition falsy (v : jsonval) : Prop := truthy v = false.

(** A manual sheet with an identifier that contains an underscore, and a
    coded file for the same subject. *)
Definition sheet_with_underscore : list ExcelRow :=
  [excel_row "P01_A" 5 3 1 (1 # 5); excel_row "P02" 4 3 1 (1 # 4)].

Definition folder_with_underscore : list File :=
  [coded_file "P01_A_coded.json" "P01_A" 5 3 1 (1 # 5);
   coded_file "P02_coded.json" "P02" 6 3 1 (1 # 6)].

(** The same numeric library with another pingouin: installed or not, and
    with another ICC routine. *)
Definition with_pingouin (lib : Numerics) (available : bool)
    (pg : list (string * Rater * cell) -> Outcome cell) : Numerics :=
  {| fsqrt := fsqrt lib;
     pearson_pvalue := pearson_pvalue lib;
     PINGOUIN_AVAILABLE := available;
     pg_ICC2 := pg;
     makedirs := makedirs lib;
     to_csv := to_csv lib;
     savefig := savefig lib;
     write_report := write_report lib |}.

(** The results without their optional ['icc'] keys. *)
Definition strip_icc (results : Results) : Results :=
  (fun kv => (fst kv, core (snd kv))) <$> results.

Definition outcome_map {A B} (f : A -> B) (o : Outcome A) : Outcome B :=
  match o with
  | Return a => Return (f a)
  | Raise e => Raise e
  end.

(** Tiers and conclusions from worst to best. *)
Definition tier_rank (t : Tier) : nat :=
  match t with
  | Poor => 0
  | Acceptable | Moderate => 1
  | Good => 2
  | Excellent => 3
  end.

Definition conclusion_rank (c : Conclusion) : nat :=
  match c with
  | PoorAgreement => 0
  | GoodToModerateAgreement => 1
  | ExcellentAgreement => 2
  end.

(** Concrete float64 numbers are recognised by computation. *)
Ltac float64_number :=
  split; [vm_compute; reflexivity|vm_compute; discriminate].

Ltac float64_cells :=
  vm_compute; repeat split; first [exact I | reflexivity | discriminate].

(** Case analysis on the thresholds of a ladder of [if]/[elif] tests. *)
Ltac ladder :=
  repeat match goal with
         | |- context [round64 ?c] =>
             let v := eval vm_compute in (round64 c) in
             change (round64 c) with v
         end;
  repeat match goal with
         | |- context [Qle_bool ?t ?x] =>
             let E := fresh "E" in
             destruct (Qle_bool t x) eqn:E;
             [apply Qle_bool_iff in E
             |apply not_true_iff_false in E; rewrite Qle_bool_iff in E]
         end;
  cbn; try lia; exfalso; lra.

(** The statistics returned on [partly_missing_merged]. *)
Definition partly_missing_results : Results :=
  Eval vm_compute in
    default [] (returned (calculate_agreement_statistics example_numerics
                            partly_missing_merged)).

(** The two columns one iteration of the detector adds to a row. *)
Definition annotate_metric (metric : string) (r : MergedRow) : MergedRow :=
  match column (metric +:+ "_Manual"), column (metric +:+ "_Claude") with
  | Some mc, Some cc =>
      set_derived (metric +:+ "_AbsDiff") (cell_abs (cell_sub (mc r) (cc r)))
        (set_derived (metric +:+ "_Diff") (cell_sub (mc r) (cc r)) r)
  | _, _ => r
  end.

(** The row once the detector has gone through all the dimensions. *)
Definition annotate (r : MergedRow) : MergedRow :=
  foldl (fun r metric => annotate_metric metric r) r metrics.

(** The names of the derived columns. *)
Definition derived_names : list string :=
  metric ← metrics; [metric +:+ "_Diff"; metric +:+ "_AbsDiff"].

(** The long-format table [calculate_icc] hands to pingouin: the manual
    scores of all rows, then the automated scores of all rows, without the
    missing ones. *)
Definition icc_long_table (metric : string) (df : list MergedRow)
  : list (string * Rater * cell) :=
  filter (fun t => Is_true (is_num (snd t)))
    (((fun r => (ParticipantID r, Manual, manual_value metric r)) <$> df)
     ++ ((fun r => (ParticipantID r, Claude, automated_value metric r)) <$> df)).

(** [manual - automated] for a dimension of a row. *)
Definition score_difference (metric : string) (r : MergedRow) : cell :=
  cell_sub (manual_value metric r) (automated_value metric r).

(* ===================================================================== *)
(** * [2_run_llm_coding.py]: the coding stage *)
(* ===================================================================== *)

(** The stage that writes the [*_coded.json] files which the comparison
    reads.  The API, the JSON parser and the clock are services of the
    environment; the output directory is a map from file names to
    contents; the decorative banner lines of [main] are left out of the
    printed output. *)

Module run_llm_coding.

(* --------------------------------------------------------------------- *)
(** ** Python strings *)
(* --------------------------------------------------------------------- *)

(** A Python [str]: a sequence of code points. *)
Definition pystr : Type := list N.

(** An ASCII literal as a [str]. *)
Definition str (s : string) : pystr :=
  (fun c => N_of_ascii c) <$> list_ascii_of_string s.

Definition newline : pystr := [10%N].

(** The lines of a multi-line literal, joined by newlines. *)
Fixpoint join_lines (lines : list pystr) : pystr :=
  match lines with
  | [] => []
  | [l] => l
  | l :: rest => l ++ newline ++ join_lines rest
  end.

(** [c.isspace()]: the code points Python counts as whitespace. *)
Definition isspace (c : N) : bool :=
  ((9 <=? c) && (c <=? 13) || (28 <=? c) && (c <=? 32)
   || (c =? 133) || (c =? 160) || (c =? 5760)
   || (8192 <=? c) && (c <=? 8202)
   || (c =? 8232) || (c =? 8233) || (c =? 8239) || (c =? 8287)
   || (c =? 12288))%N.

Fixpoint lstrip (s : pystr) : pystr :=
  match s with
  | [] => []
  | c :: rest => if isspace c then lstrip rest else s
  end.

Definition rstrip (s : pystr) : pystr := reverse (lstrip (reverse s)).

(** [s.strip()]. *)
Definition strip (s : pystr) : pystr := rstrip (lstrip s).

(** The first index from [i] on at which [sub] occurs, [s] being the text
    from index [i] on. *)
Fixpoint find_from (sub s : pystr) (i : nat) : option nat :=
  if bool_decide (sub `prefix_of` s) then Some i
  else match s with
       | [] => None
       | _ :: rest => find_from sub rest (S i)
       end.

(** [s.find(sub, start)]: the lowest index from [start] on where [sub]
    occurs, or [-1]. *)
Definition py_find (s sub : pystr) (start : Z) : Z :=
  let len := Z.of_nat (length s) in
  let start := if (start <? 0)%Z then Z.max 0 (start + len) else start in
  if (len <? start)%Z then (-1)%Z
  else match find_from sub (drop (Z.to_nat start) s) (Z.to_nat start) with
       | Some i => Z.of_nat i
       | None => (-1)%Z
       end.

(** [sub in s]. *)
Definition py_in (sub s : pystr) : bool :=
  negb (py_find s sub 0 =? -1)%Z.

(** [s[start:stop]], with Python's treatment of negative and overlong
    indices. *)
Definition py_slice (s : pystr) (start stop : Z) : pystr :=
  let len := Z.of_nat (length s) in
  let clamp i := if (i <? 0)%Z then Z.max 0 (i + len) else Z.min i len in
  take (Z.to_nat (clamp stop - clamp start)) (drop (Z.to_nat (clamp start)) s).

(* --------------------------------------------------------------------- *)
(** ** Values, exceptions and the services of the environment *)
(* --------------------------------------------------------------------- *)

(** JSON values as [json.loads] returns them (numbers as rationals). *)
#[local] Set Warnings "-register-all".
Inductive json : Type :=
| JNull
| JBool (b : bool)
| JNumber (q : Q)
| JString (s : pystr)
| JArray (items : list json)
| JObject (members : list (pystr * json)).

(** A Python dict, in insertion order. *)
Definition dict : Type := list (pystr * json).

(** [d[key] = v]. *)
Fixpoint setitem (key : pystr) (v : json) (d : dict) : dict :=
  match d with
  | [] => [(key, v)]
  | (k, w) :: rest =>
      if bool_decide (k = key) then (k, v) :: rest else (k, w) :: setitem key v rest
  end.

(** [d[key]], or [None] where Python raises [KeyError]. *)
Fixpoint getitem (key : pystr) (d : dict) : option json :=
  match d with
  | [] => None
  | (k, w) :: rest => if bool_decide (k = key) then Some w else getitem key rest
  end.

(** The exceptions that occur, with [str(e)] where a library chooses the
    text. *)
Inductive Exception : Type :=
| JSONDecodeError (e : pystr)
| FileNotFoundError
| IndexError
| AttributeError
| TypeError
| KeyError (key : pystr)
| UnboundLocalError (name : pystr)
| OtherException (e : pystr).

Inductive Try (A : Type) : Type :=
| Ok (a : A)
| Except (e : Exception).
Arguments Ok {A} a.
Arguments Except {A} e.

Inductive ContentBlock : Type :=
| TextBlock (text : pystr)
| OtherBlock.

(** The response object of [client.messages.create]. *)
Record Message : Type := mkMessage {
  message_id : pystr;
  message_model : pystr;
  message_content : list ContentBlock;
  usage_input_tokens : Z;
  usage_output_tokens : Z
}.

(** The keyword arguments of [client.messages.create]. *)
Record Request : Type := mkRequest {
  request_model : string;
  max_tokens : Z;
  temperature : Q;
  system : pystr;
  messages : list (string * pystr)
}.

(** A prepared transcript, an object of the JSON list in the input
    file: the three keys the stage reads ([None] for an absent key). *)
Record Transcript : Type := mkTranscript {
  participant_id : option string;
  stage_1_context : option pystr;
  stage_2_story : option pystr
}.

(** The environment variable and the input files of a run ([None] when
    unset or missing). *)
Record Env : Type := mkEnv {
  LLM_API_KEY : option pystr;
  prompt_file : option pystr;
  input_file : option (list Transcript)
}.

(* --------------------------------------------------------------------- *)
(** ** Transcripts, results and files *)
(* --------------------------------------------------------------------- *)

(** The error message in the second component of the result, by the
    handler that built it. *)
Inductive error_msg : Type :=
| JSON_parsing_error (e : pystr) (response_preview : pystr)
| API_error (e : Exception).

(** The pair [(coded_data, None)] or [(None, error_msg)].  The messages
    are never empty, so [if error:] in [main] tells the two apart. *)
Inductive Coding : Type :=
| Coded (coded_data : dict)
| Failed (error : error_msg).

(** The summary dict of [main]. *)
Record Summary : Type := mkSummary {
  total_transcripts : nat;
  successfully_coded : nat;
  already_coded : nat;
  errors_count : nat;
  error_details : list (string * error_msg);
  summary_input_tokens : Q;
  summary_output_tokens : Q;
  estimated_cost_usd : Q;
  timestamp : pystr
}.

(** The content of a file of the output directory: the JSON text of a
    coded transcript or of the summary, or what is left of a file whose
    writing was interrupted. *)
Inductive FileData : Type :=
| CodedFile (coded_data : dict)
| SummaryFile (summary : Summary)
| Incomplete.

(** How [open(name, 'w')] followed by [json.dump(data, f)] ends. *)
Inductive Written : Type :=
| Saved                          (* the file holds the text of the data *)
| NotOpened (e : Exception)      (* [open] raised: no file is created *)
| Interrupted (e : Exception).   (* [json.dump] raised: the file stays, incomplete *)

(** What the environment provides: the API behind the client, the JSON
    parser, the clock, and the file system under the output directory
    ([mkdir] for [output_dir.mkdir(parents=True, exist_ok=True)], [write]
    for writing a file).  The API may answer differently from call to
    call; [World] is whatever the answers of the environment depend on. *)
Record Services (World : Type) : Type := mkServices {
  messages_create : Request -> World -> Try Message * World;
  json_loads : pystr -> Try json;
  strftime : World -> pystr;
  mkdir : World -> Try unit;
  write : string -> FileData -> World -> Written
}.
Arguments messages_create {World} _ _ _.
Arguments json_loads {World} _ _.
Arguments strftime {World} _ _.
Arguments mkdir {World} _ _.
Arguments write {World} _ _ _ _.

Inductive Line : Type :=
| ApiKeyNotFound
| ApiKeyLoaded
| ClientInitialized
| PromptLoaded (characters : nat) (beginning : pystr)
| PromptError
| TranscriptsNotFound
| LoadedTranscripts (count : nat)
| Processing (i n : nat) (participant_id : string)
| AlreadyCoded
| ErrorLine (error : error_msg)
| Done
| CodingComplete (total coded skipped failed : nat)
| ErrorsOccurred (details : list (string * error_msg))
| TokenUsage (input output cost : Q).

(** What a run does to the outside, in order. *)
Inductive Event : Type :=
| Print (line : Line)
| Create (request : Request)
| Sleep.

(** The running lists and totals of the loop of [main]. *)
Record Tally : Type := mkTally {
  results : list string;
  errors : list (string * error_msg);
  skipped : list string;
  total_input_tokens : Q;
  total_output_tokens : Q
}.

Definition empty_tally : Tally :=
  {| results := []; errors := []; skipped := [];
     total_input_tokens := 0; total_output_tokens := 0 |}.

(** [skipped.append(participant_id)], [errors.append({...})] and
    [results.append(participant_id)]. *)
Definition append_skipped (participant_id : string) (t : Tally) : Tally :=
  {| results := results t; errors := errors t;
     skipped := skipped t ++ [participant_id];
     total_input_tokens := total_input_tokens t;
     total_output_tokens := total_output_tokens t |}.

Definition append_error (participant_id : string) (error : error_msg) (t : Tally)
  : Tally :=
  {| results := results t;
     errors := errors t ++ [(participant_id, error)];
     skipped := skipped t;
     total_input_tokens := total_input_tokens t;
     total_output_tokens := total_output_tokens t |}.

Definition append_result (participant_id : string) (t : Tally) : Tally :=
  {| results := results t ++ [participant_id];
     errors := errors t; skipped := skipped t;
     total_input_tokens := total_input_tokens t;
     total_output_tokens := total_output_tokens t |}.

(** [total_input_tokens += input] and [total_output_tokens += output]. *)
Definition add_tokens (input output : Q) (t : Tally) : Tally :=
  {| results := results t; errors := errors t; skipped := skipped t;
     total_input_tokens := total_input_tokens t + input;
     total_output_tokens := total_output_tokens t + output |}.

(* --------------------------------------------------------------------- *)
(** ** [code_transcript_with_claude] *)
(* --------------------------------------------------------------------- *)

(** The f-string of the user message. *)
Definition user_message (stage_1 stage_2 : pystr) : pystr :=
  join_lines
    [str "Please code this transcript according to the instructions.";
     [];
     str "Stage 1 Context (for reference only, do not code):";
     stage_1;
     [];
     str "Stage 2 Story (CODE THIS):";
     stage_2;
     [];
     str "Remember:";
     str "- Use Stage 1 to understand context and resolve pronouns";
     str "- Check Stage 1 for repeated descriptors (don't count as new elaborations)";
     str "- Code ONLY Stage 2 elements";
     str "- Output valid JSON format"].

Definition request_for (system_prompt user_message : pystr) : Request :=
  {| request_model := "claude-sonnet-4-20250514";
     max_tokens := 4096;
     temperature := 0;
     system := system_prompt;
     messages := [("user", user_message)] |}.

Definition fence : pystr := str "```".
Definition fence_json : pystr := str "```json".

(** The handling of markdown code blocks: the text that is handed to
    [json.loads]. *)
Definition strip_code_block (response_text : pystr) : pystr :=
  if py_in fence_json response_text then
    let json_start := (py_find response_text fence_json 0 + 7)%Z in
    let json_end := py_find response_text fence json_start in
    strip (py_slice response_text json_start json_end)
  else if py_in fence response_text then
    let json_start := (py_find response_text fence 0 + 3)%Z in
    let json_end := py_find response_text fence json_start in
    strip (py_slice response_text json_start json_end)
  else response_text.

Definition api_metadata_key : pystr := str "_api_metadata".

Definition api_metadata (message : Message) (timestamp : pystr) : json :=
  JObject [(str "call_id", JString (message_id message));
           (str "model", JString (message_model message));
           (str "timestamp", JString timestamp);
           (str "input_tokens", JNumber (inject_Z (usage_input_tokens message)));
           (str "output_tokens", JNumber (inject_Z (usage_output_tokens message)))].

Section stage.
Context {World : Type} (client : Services World).

(** The state a run acts on: the files of the output directory, the
    world behind the API, and what the run did so far. *)
Record Machine : Type := mkMachine {
  output_dir : gmap string FileData;
  world : World;
  trace : list Event
}.

(** Computations that act on the machine and may raise. *)
Definition M (A : Type) : Type := Machine -> Try A * Machine.

#[local] Instance M_ret : MRet M := fun A a m => (Ok a, m).
#[local] Instance M_bind : MBind M := fun A B f x m =>
  match x m with
  | (Ok a, m') => f a m'
  | (Except e, m') => (Except e, m')
  end.

Definition raise_exception {A} (e : Exception) : M A := fun m => (Except e, m).

(** The machine after one more event. *)
Definition log (e : Event) (m : Machine) : Machine :=
  {| output_dir := output_dir m; world := world m; trace := trace m ++ [e] |}.

(** The machine after a file was written. *)
Definition store (name : string) (data : FileData) (m : Machine) : Machine :=
  {| output_dir := <[name := data]> (output_dir m); world := world m;
     trace := trace m |}.

Definition emit (e : Event) : M unit := fun m => (Ok tt, log e m).

(** [output_file.exists()]. *)
Definition file_exists (name : string) : M bool := fun m =>
  (Ok (bool_decide (is_Some (output_dir m !! name))), m).

(** [with open(name, 'w') as f: json.dump(data, f)], outside any [try]:
    an exception of [open] or of [json.dump] ends the run, and after the
    second the file is there, incomplete. *)
Definition write_file (name : string) (data : FileData) : M unit := fun m =>
  match write client name data (world m) with
  | Saved => (Ok tt, store name data m)
  | NotOpened e => (Except e, m)
  | Interrupted e => (Except e, store name Incomplete m)
  end.

(** [output_dir.mkdir(parents=True, exist_ok=True)]. *)
Definition make_output_dir : M unit := fun m => (mkdir client (world m), m).

(** [client.messages.create(...)], with what it raised, if anything. *)
Definition create (request : Request) : M (Try Message) := fun m =>
  let '(r, w) := messages_create client request (world m) in
  (Ok r, log (Create request)
           {| output_dir := output_dir m; world := w; trace := trace m |}).

(** [time.strftime('%Y-%m-%d %H:%M:%S')]. *)
Definition time_strftime : M pystr := fun m => (Ok (strftime client (world m)), m).

Definition code_transcript_with_claude (system_prompt : pystr)
    (transcript : Transcript) : M Coding :=
  match stage_1_context transcript with
  | None => raise_exception (KeyError (str "stage_1_context"))
  | Some stage_1 =>
  match stage_2_story transcript with
  | None => raise_exception (KeyError (str "stage_2_story"))
  | Some stage_2 =>
      message ← create (request_for system_prompt (user_message stage_1 stage_2));
      match message with
      | Except (JSONDecodeError _) =>
          (* the first handler reads [response_text], not yet assigned *)
          raise_exception (UnboundLocalError (str "response_text"))
      | Except e => mret (Failed (API_error e))
      | Ok message =>
          match message_content message with
          | [] => mret (Failed (API_error IndexError))
          | OtherBlock :: _ => mret (Failed (API_error AttributeError))
          | TextBlock text :: _ =>
              let response_text := strip_code_block text in
              match json_loads client response_text with
              | Except (JSONDecodeError e) =>
                  mret (Failed (JSON_parsing_error e (py_slice response_text 0 300)))
              | Except e => mret (Failed (API_error e))
              | Ok (JObject coded_data) =>
                  timestamp ← time_strftime;
                  mret (Coded (setitem api_metadata_key
                                 (api_metadata message timestamp) coded_data))
              | Ok _ => mret (Failed (API_error TypeError))
              end
          end
      end
  end
  end.

(* --------------------------------------------------------------------- *)
(** ** [main] *)
(* --------------------------------------------------------------------- *)

Definition load_system_prompt (env : Env) : Try pystr :=
  match prompt_file env with
  | None => Except FileNotFoundError
  | Some text => Ok text
  end.

(** [coded_data['_api_metadata'][key]] as a number to add to a total. *)
Definition metadata_tokens (key : pystr) (coded_data : dict) : Try Q :=
  match getitem api_metadata_key coded_data with
  | Some (JObject metadata) =>
      match getitem key metadata with
      | Some (JNumber q) => Ok q
      | Some (JBool b) => Ok (if b then 1%Q else 0%Q)
      | Some _ => Except TypeError
      | None => Except (KeyError key)
      end
  | Some _ => Except TypeError
  | None => Except (KeyError api_metadata_key)
  end.

(** The [if '_api_metadata' in coded_data] statement. *)
Definition track_tokens (coded_data : dict) (t : Tally) : Try Tally :=
  match getitem api_metadata_key coded_data with
  | None => Ok t
  | Some _ =>
      match metadata_tokens (str "input_tokens") coded_data with
      | Except e => Except e
      | Ok input =>
          match metadata_tokens (str "output_tokens") coded_data with
          | Except e => Except e
          | Ok output =>
              Ok (add_tokens input output t)
          end
      end
  end.

Definition lift_try {A} (r : Try A) : M A := fun m => (r, m).

(** The loop over [enumerate(transcripts, 1)]; [n] is [len(transcripts)]
    and [i] the number of the first transcript of the list. *)
Fixpoint coding_loop (system_prompt : pystr) (n i : nat)
    (transcripts : list Transcript) (t : Tally) : M Tally :=
  match transcripts with
  | [] => mret t
  | transcript :: rest =>
      match participant_id transcript with
      | None => raise_exception (KeyError (str "participant_id"))
      | Some participant_id =>
          emit (Print (Processing i n participant_id));;
          let output_file := coded_output_name participant_id in
          already ← file_exists output_file;
          if already : bool then
            emit (Print AlreadyCoded);;
            coding_loop system_prompt n (S i) rest (append_skipped participant_id t)
          else
            coding ← code_transcript_with_claude system_prompt transcript;
            match coding with
            | Failed error =>
                emit (Print (ErrorLine error));;
                coding_loop system_prompt n (S i) rest
                  (append_error participant_id error t)
            | Coded coded_data =>
                write_file output_file (CodedFile coded_data);;
                t ← lift_try (track_tokens coded_data t);
                emit (Print Done);;
                (if (i <? n)%nat then emit Sleep else mret tt);;
                coding_loop system_prompt n (S i) rest (append_result participant_id t)
            end
      end
  end.

Definition summary_file : string := "_coding_summary.json".

Definition summary_of (transcripts : list Transcript) (t : Tally)
    (timestamp : pystr) : Summary :=
  {| total_transcripts := length transcripts;
     successfully_coded := length (results t);
     already_coded := length (skipped t);
     errors_count := length (errors t);
     error_details := errors t;
     summary_input_tokens := total_input_tokens t;
     summary_output_tokens := total_output_tokens t;
     estimated_cost_usd :=
       (total_input_tokens t / 1000000 * 3) + (total_output_tokens t / 1000000 * 15);
     timestamp := timestamp |}.

Definition main (env : Env) : M unit :=
  match LLM_API_KEY env with
  | None | Some [] => emit (Print ApiKeyNotFound)
  | Some (_ :: _) =>
      emit (Print ApiKeyLoaded);;
      emit (Print ClientInitialized);;
      match load_system_prompt env with
      | Except FileNotFoundError => emit (Print PromptError)
      | Except e => raise_exception e
      | Ok system_prompt =>
          emit (Print (PromptLoaded (length system_prompt)
                         (py_slice system_prompt 0 200)));;
          match input_file env with
          | None => emit (Print TranscriptsNotFound)
          | Some transcripts =>
              emit (Print (LoadedTranscripts (length transcripts)));;
              make_output_dir;;
              t ← coding_loop system_prompt (length transcripts) 1 transcripts
                    empty_tally;
              timestamp ← time_strftime;
              let summary := summary_of transcripts t timestamp in
              write_file summary_file (SummaryFile summary);;
              emit (Print (CodingComplete (length transcripts) (length (results t))
                             (length (skipped t)) (length (errors t))));;
              match errors t with
              | [] => mret tt
              | _ :: _ => emit (Print (ErrorsOccurred (errors t)))
              end;;
              emit (Print (TokenUsage (total_input_tokens t) (total_output_tokens t)
                             (estimated_cost_usd summary)))
          end
      end
  end.

End stage.

End run_llm_coding.

(* ===================================================================== *)
(** ** The coding stage: views and worked examples *)
(* ===================================================================== *)

Module run_llm_coding_examples.
Import run_llm_coding.

(** The number of API calls in a trace. *)
Definition is_create (e : Event) : bool :=
  match e with
  | Create _ => true
  | _ => false
  end.

Definition api_calls (trace : list Event) : nat :=
  length (filter (fun e => Is_true (is_create e)) trace).

(** A transcript for which no coded file exists yet. *)
Definition not_yet_coded (files : gmap string FileData) (t : Transcript) : bool :=
  match participant_id t with
  | Some pid => bool_decide (files !! coded_output_name pid = None)
  | None => false
  end.

(** The transcripts of a list that still wait for their coded file. *)
Definition pending (files : gmap string FileData) (transcripts : list Transcript)
  : list Transcript :=
  filter (fun t => Is_true (not_yet_coded files t)) transcripts.





(** A reply that wraps an empty JSON object in a tagged code block. *)
Definition fenced_reply : pystr :=
  str "Here is the coding:" ++ newline ++ fence_json ++ newline
  ++ str "{}" ++ newline ++ fence ++ newline ++ str "Done.".

(** The same reply cut off before the closing fence. *)
Definition cut_off_reply : pystr :=
  fence_json ++ newline ++ str "{}".

(** An API that answers the first call with a fenced object and every
    later call with prose; a parser that only knows the empty object; a
    clock that stands still; a file system on which every write succeeds.
    The world is the number of calls so far. *)
Definition example_client : Services nat :=
  {| messages_create := fun _ calls =>
       (Ok {| message_id := str "msg_1";
              message_model := str "claude-sonnet-4-20250514";
              message_content :=
                [TextBlock (if (calls =? 0)%nat then fenced_reply
                            else str "I cannot code this.")];
              usage_input_tokens := 1200;
              usage_output_tokens := 300 |},
        S calls);
     json_loads := fun text =>
       if bool_decide (text = str "{}") then Ok (JObject [])
       else Except (JSONDecodeError (str "Expecting value"));
     strftime := fun _ => str "2025-01-01 00:00:00";
     mkdir := fun _ => Ok tt;
     write := fun _ _ _ => Saved |}.

(** The same services on a disk that is full: a file can be opened, but
    writing to it fails. *)
Definition full_disk_client : Services nat :=
  {| messages_create := messages_create example_client;
     json_loads := json_loads example_client;
     strftime := strftime example_client;
     mkdir := fun _ => Ok tt;
     write := fun _ _ _ =>
       Interrupted (OtherException (str "[Errno 28] No space left on device")) |}.

Definition example_env : Env :=
  {| LLM_API_KEY := Some (str "key");
     prompt_file := Some (str "Code the story.");
     input_file :=
       Some [mkTranscript (Some "P01") (Some (str "Once")) (Some (str "Then"));
             mkTranscript (Some "P02") (Some (str "Once")) (Some (str "Then"));
             mkTranscript (Some "P03") (Some (str "Once")) (Some (str "Then"))] |}.

(** An output directory in which P02 is already coded. *)
Definition example_machine : Machine (World := nat) :=
  {| output_dir := {[ "P02_coded.json" := CodedFile [] ]};
     world := 0%nat;
     trace := [] |}.

End run_llm_coding_examples.

(* ===================================================================== *)
(** * [prepare_and_mask.py]: the preparation stage *)
(* ===================================================================== *)

(** The stage that writes the prepared transcripts which the coding stage
    reads.  The regular-expression engine and [str.lower] are services of
    the library; the decorative banner lines are left out of the printed
    output. *)

Module prepare_and_mask.
Import run_llm_coding.

(** The functions of [re] and [str] the stage calls: [re.sub(pattern,
    repl, text)], the start of the match of [re.search(pattern, text,
    re.IGNORECASE)], [re.escape] and [str.lower]. *)
Record Library : Type := mkLibrary {
  re_sub : pystr -> pystr -> pystr -> pystr;
  re_search_ignorecase : pystr -> pystr -> option nat;
  re_escape : pystr -> pystr;
  lower : pystr -> pystr
}.

(** A file of the raw directory; reading it may raise. *)
Record RawFile : Type := mkRawFile {
  name : string;
  text : Try pystr
}.

Inductive ErrorEntry : Type :=
| NoStage2Content (participant_id : string)
| Raised (participant_id : string) (e : Exception).

Inductive Issue : Type :=
| RobotLabelPresent (transcript_id : string)
| ExperimenterLabelPresent (transcript_id : string).

Inductive Line : Type :=
| RawDirectoryNotFound
| ProcessingFrom
| NoStage2Marker (file_name : string)
| NoStage2Found (participant_id : string)
| Prepared (participant_id : string)
| NotProcessed (participant_id : string) (e : Exception)
| ProcessingSummary (found processed failed : nat)
| ErrorsEncountered (errors : list ErrorEntry)
| IssuesFound (issues : list Issue)
| AllLabelsMasked
| OutputSaved.

(** What a run leaves behind: the printed lines, the output file if it
    was written, and how the run ended. *)
Record Run : Type := mkRun {
  printed_lines : list Line;
  output_file : option (list Transcript);
  ending : Try unit
}.

(* --------------------------------------------------------------------- *)
(** ** File names *)
(* --------------------------------------------------------------------- *)

(** [Path.glob('*.txt')]. *)
Definition glob_txt (folder : list RawFile) : list RawFile :=
  filter (fun f => Is_true (ends_with ".txt" (name f))) folder.

(** [sorted(...)] of paths of one directory: by name, byte by byte. *)
Definition name_le (f g : RawFile) : Prop := Is_true (String.leb (name f) (name g)).

#[local] Instance name_le_dec : RelDecision name_le :=
  fun f g => Is_true_dec (String.leb (name f) (name g)).

Definition sorted (files : list RawFile) : list RawFile := merge_sort name_le files.

(** [name.rfind('.')]. *)
Fixpoint rfind_dot (s : string) (i : nat) (found : option nat) : option nat :=
  match s with
  | EmptyString => found
  | String c rest =>
      rfind_dot rest (S i) (if Ascii.eqb c "."%char then Some i else found)
  end.

(** [Path.stem]: the name without its last suffix. *)
Definition stem (name : string) : string :=
  match rfind_dot name 0 None with
  | Some i =>
      if (0 <? i)%nat && (i <? String.length name - 1)%nat
      then String.substring 0 i name
      else name
  | None => name
  end.

(** [s.split('.')[0]]. *)
Fixpoint split_dot_first (s : string) : string :=
  match s with
  | EmptyString => EmptyString
  | String c rest =>
      if Ascii.eqb c "."%char then EmptyString
      else String c (split_dot_first rest)
  end.

(* --------------------------------------------------------------------- *)
(** ** [mask_speaker_labels] and [parse_transcript] *)
(* --------------------------------------------------------------------- *)

Definition mask_speaker_labels (lib : Library) (text : pystr) : pystr :=
  let text := re_sub lib (str "\bPEPPER\s+\[") (str "PROMPT [") text in
  let text := re_sub lib (str "\bEXPERIMENTER\s+\[") (str "PROMPT [") text in
  text.

Definition markers : list pystr :=
  [str "Stage 2";
   str "Stage B";
   str "What happened next?";
   str "What do you think happened next?";
   str "What do you think might happen?"].

(** The [for marker in markers] loop: the split position of the first
    marker of the list that is found, if any. *)
Fixpoint find_split (lib : Library) (markers : list pystr) (content : pystr)
  : option nat :=
  match markers with
  | [] => None
  | marker :: rest =>
      if py_in (lower lib marker) (lower lib content) then
        match re_search_ignorecase lib (re_escape lib marker) content with
        | Some split_pos => Some split_pos
        | None => find_split lib rest content
        end
      else find_split lib rest content
  end.

(** [parse_transcript]: what it prints, and the two stages or what
    reading the file raised. *)
Definition parse_transcript (lib : Library) (filepath : RawFile)
  : list Line * Try (pystr * pystr) :=
  match text filepath with
  | Except e => ([], Except e)
  | Ok content =>
      match find_split lib markers content with
      | Some split_pos =>
          let stage_1 := py_slice content 0 (Z.of_nat split_pos) in
          let stage_2 := drop split_pos content in
          ([], Ok (strip stage_1, strip stage_2))
      | None => ([NoStage2Marker (name filepath)], Ok (strip content, []))
      end
  end.

(* --------------------------------------------------------------------- *)
(** ** [main] *)
(* --------------------------------------------------------------------- *)

(** The loop over the transcript files. *)
Fixpoint process_files (lib : Library) (files : list RawFile)
    (transcripts : list Transcript) (errors : list ErrorEntry)
  : list Line * (list Transcript * list ErrorEntry) :=
  match files with
  | [] => ([], (transcripts, errors))
  | file :: rest =>
      let participant_id := split_dot_first (stem (name file)) in
      let '(out, parsed) := parse_transcript lib file in
      match parsed with
      | Except e =>
          let '(out', r) := process_files lib rest transcripts
                              (errors ++ [Raised participant_id e]) in
          (out ++ [NotProcessed participant_id e] ++ out', r)
      | Ok (stage_1_raw, stage_2_raw) =>
          match stage_2_raw with
          | [] =>
              let '(out', r) := process_files lib rest transcripts
                                  (errors ++ [NoStage2Content participant_id]) in
              (out ++ [NoStage2Found participant_id] ++ out', r)
          | _ :: _ =>
              let transcript :=
                {| participant_id := Some participant_id;
                   stage_1_context := Some (mask_speaker_labels lib stage_1_raw);
                   stage_2_story := Some (mask_speaker_labels lib stage_2_raw) |} in
              let '(out', r) := process_files lib rest (transcripts ++ [transcript])
                                  errors in
              (out ++ [Prepared participant_id] ++ out', r)
          end
      end
  end.

(** [t[key]] on a transcript dict. *)
Definition transcript_text (t : Transcript) : pystr :=
  default [] (stage_1_context t) ++ str " " ++ default [] (stage_2_story t).

(** The verification loop.  The issue lines read [t['transcript_id']], a
    key the transcripts do not have. *)
Fixpoint verify (transcripts : list Transcript) (issues : list Issue)
  : Try (list Issue) :=
  match transcripts with
  | [] => Ok issues
  | t :: rest =>
      let full_text := transcript_text t in
      if py_in (str "ROBOT:") full_text then Except (KeyError (str "transcript_id"))
      else if py_in (str "EXPERIMENTER:") full_text
           then Except (KeyError (str "transcript_id"))
           else verify rest issues
  end.

Definition main (lib : Library) (raw_dir : option (list RawFile)) : Run :=
  match raw_dir with
  | None =>
      {| printed_lines := [RawDirectoryNotFound]; output_file := None; ending := Ok tt |}
  | Some folder =>
      let '(out, (transcripts, errors)) :=
        process_files lib (sorted (glob_txt folder)) [] [] in
      let written :=
        match transcripts with
        | [] => None
        | _ :: _ => Some transcripts
        end in
      let summary :=
        [ProcessingSummary (length (glob_txt folder)) (length transcripts)
           (length errors)]
        ++ match errors with
           | [] => []
           | _ :: _ => [ErrorsEncountered errors]
           end in
      match verify transcripts [] with
      | Except e =>
          {| printed_lines := [ProcessingFrom] ++ out ++ summary;
             output_file := written;
             ending := Except e |}
      | Ok issues =>
          {| printed_lines := [ProcessingFrom] ++ out ++ summary
                        ++ match issues with
                           | [] => [AllLabelsMasked]
                           | _ :: _ => [IssuesFound issues]
                           end
                        ++ [OutputSaved];
             output_file := written;
             ending := Ok tt |}
      end
  end.

End prepare_and_mask.

(* ===================================================================== *)
(** ** The preparation stage: views and worked examples *)
(* ===================================================================== *)

Module prepare_and_mask_examples.
Import run_llm_coding prepare_and_mask.

(** The participant identifier [main] derives from a file name. *)
Definition participant_of (file : RawFile) : string :=
  split_dot_first (stem (name file)).

(** A transcript in which the verification finds one of its labels. *)
Definition labelled (t : Transcript) : bool :=
  py_in (str "ROBOT:") (transcript_text t)
  || py_in (str "EXPERIMENTER:") (transcript_text t).


(** What the loop of [main] makes of one file: a transcript or an error
    entry. *)
Definition processed (lib : Library) (file : RawFile) : Transcript + ErrorEntry :=
  match snd (parse_transcript lib file) with
  | Except e => inr (Raised (participant_of file) e)
  | Ok (_, []) => inr (NoStage2Content (participant_of file))
  | Ok (stage_1_raw, (_ :: _) as stage_2_raw) =>
      inl {| participant_id := Some (participant_of file);
             stage_1_context := Some (mask_speaker_labels lib stage_1_raw);
             stage_2_story := Some (mask_speaker_labels lib stage_2_raw) |}
  end.

Definition prepared (lib : Library) (file : RawFile) : option Transcript :=
  match processed lib file with
  | inl t => Some t
  | inr _ => None
  end.

Definition failure (lib : Library) (file : RawFile) : option ErrorEntry :=
  match processed lib file with
  | inl _ => None
  | inr e => Some e
  end.

(** The lines the loop of [main] prints. *)
Definition loop_line (line : Line) : bool :=
  match line with
  | NoStage2Marker _ | NoStage2Found _ | Prepared _ | NotProcessed _ _ => true
  | _ => false
  end.

(** Where the two stages meet: the file the preparation stage writes and
    the file the coding stage reads, both relative to the working
    directory. *)
Definition prepared_output_path : string :=
  "data/processed/transcripts_prepared_masked.json".

Definition coding_input_path : string :=
  "data/processed/transcripts_prepared_masked_ok.json".

(** The files of transcripts after a run of the preparation stage. *)
Definition after_preparation (r : Run) (files : gmap string (list Transcript))
  : gmap string (list Transcript) :=
  match output_file r with
  | Some transcripts => <[prepared_output_path := transcripts]> files
  | None => files
  end.

(** The environment of a run of the coding stage on these files. *)
Definition coding_env (key prompt : option pystr)
    (files : gmap string (list Transcript)) : Env :=
  {| LLM_API_KEY := key;
     prompt_file := prompt;
     input_file := files !! coding_input_path |}.

(** An engine for ASCII text that knows the two label patterns and
    literal patterns. *)
Definition ascii_lower (c : N) : N :=
  if ((65 <=? c) && (c <=? 90))%N then (c + 32)%N else c.

Definition ascii_word (c : N) : bool :=
  ((48 <=? c) && (c <=? 57) || (65 <=? c) && (c <=? 90)
   || (97 <=? c) && (c <=? 122) || (c =? 95))%N.

Fixpoint matches_ignorecase (pattern text : pystr) : bool :=
  match pattern, text with
  | [], _ => true
  | p :: pattern, c :: text =>
      (ascii_lower p =? ascii_lower c)%N && matches_ignorecase pattern text
  | _ :: _, [] => false
  end.

Fixpoint search_ignorecase (pattern text : pystr) (i : nat) : option nat :=
  if matches_ignorecase pattern text then Some i
  else match text with
       | [] => None
       | _ :: rest => search_ignorecase pattern rest (S i)
       end.

(** The length of a match of [label\s+\[] at the head of [text], if any. *)
Definition label_match (label text : pystr) : option nat :=
  if bool_decide (label `prefix_of` text) then
    let rest := drop (length label) text in
    let spaces := length rest - length (lstrip rest) in
    match lstrip rest with
    | 91%N :: _ => if (0 <? spaces)%nat then Some (length label + spaces + 1)%nat
                   else None
    | _ => None
    end
  else None.

(** [re.sub] for the pattern [\blabel\s+\[]; [skip] characters of a match
    are still to be dropped, [boundary] tells whether the previous
    character is no word character. *)
Fixpoint sub_label (label repl text : pystr) (skip : nat) (boundary : bool)
  : pystr :=
  match text with
  | [] => []
  | c :: rest =>
      match skip with
      | S skip => sub_label label repl rest skip (negb (ascii_word c))
      | O =>
          match (if boundary then label_match label text else None) with
          | Some n => repl ++ sub_label label repl rest (n - 1) (negb (ascii_word c))
          | None => c :: sub_label label repl rest 0 (negb (ascii_word c))
          end
      end
  end.

Definition ascii_library : Library :=
  {| re_sub := fun pattern repl text =>
       if bool_decide (pattern = str "\bPEPPER\s+\[")
       then sub_label (str "PEPPER") repl text 0 true
       else if bool_decide (pattern = str "\bEXPERIMENTER\s+\[")
            then sub_label (str "EXPERIMENTER") repl text 0 true
            else text;
     re_search_ignorecase := fun pattern text => search_ignorecase pattern text 0;
     re_escape := fun pattern => pattern;
     lower := fun s => ascii_lower <$> s |}.

(** A raw directory: a transcript that still names the robot, one without
    a second stage, one that cannot be read, and a file that is no
    transcript. *)
Definition example_raw_dir : list RawFile :=
  [mkRawFile "P02.txt" (Ok (str "PEPPER [00:01] Tell me a story."));
   mkRawFile "P01.8yo.txt"
     (Ok (str "PEPPER [00:01] ROBOT: hello  Stage 2 EXPERIMENTER  [00:09] and then?"));
   mkRawFile "P03.txt" (Except (OtherException (str "cannot decode")));
   mkRawFile "notes.md" (Ok (str "Stage 2"))].

End prepare_and_mask_examples.

(* ===================================================================== *)
(** * Properties *)
(* ===================================================================== *)

#[local] Set Warnings "-clear-no-such-hyp".

(* ===================================================================== *)
(** ** The [Run] monad *)
(* ===================================================================== *)

Lemma print_then_eq {A} (m : Msg) (k : Run A) :
  (print m;; k) = (m :: printed k, outcome k).
Proof. destruct k as [out r]. reflexivity. Qed.

Lemma lift_return_bind {A B} (a : A) (f : A -> Run B) :
  (lift (Return a) ≫= f) = f a.
Proof.
  unfold lift, mbind, Run_bind, run_bind. destruct (f a) as [out r]. reflexivity.
Qed.

Lemma lift_raise_bind {A B} (e : exn) (f : A -> Run B) :
  (lift (Raise e) ≫= f) = ([], Raise e).
Proof. reflexivity. Qed.

Lemma printed_bind {A B} (m : Run A) (f : A -> Run B) :
  printed (m ≫= f) =
  printed m ++ match outcome m with
               | Return a => printed (f a)
               | Raise _ => []
               end.
Proof.
  destruct m as [out [a|e]]; cbn.
  - destruct (f a) as [out' r]. reflexivity.
  - by rewrite app_nil_r.
Qed.

Lemma outcome_bind {A B} (m : Run A) (f : A -> Run B) :
  outcome (m ≫= f) =
  match outcome m with
  | Return a => outcome (f a)
  | Raise e => Raise e
  end.
Proof.
  destruct m as [out [a|e]]; cbn; [|reflexivity].
  destruct (f a) as [out' r]. reflexivity.
Qed.

Lemma returned_Some {A} (r : Run A) a : returned r = Some a ↔ outcome r = Return a.
Proof.
  unfold returned. destruct (outcome r); split; congruence.
Qed.

(* ===================================================================== *)
(** ** The loader loops *)
(* ===================================================================== *)

Lemma load_loop_outcome json_files : forall claude_data,
  outcome (load_loop json_files claude_data)
  = Return (claude_data ++ omap loadable json_files).
Proof.
  induction json_files as [|f rest IH]; intros claude_data.
  - cbn. by rewrite app_nil_r.
  - cbn [load_loop omap list_omap]. unfold loadable at 1.
    destruct (load_record f) as [record|e];
      rewrite print_then_eq; cbn [outcome snd]; rewrite IH.
    + by rewrite <- app_assoc.
    + reflexivity.
Qed.

Lemma load_loop_error_printed json_files : forall claude_data f e,
  f ∈ json_files -> load_record f = Raise e ->
  ErrorLoading (file_name f) e ∈ printed (load_loop json_files claude_data).
Proof.
  induction json_files as [|g rest IH]; intros claude_data f e Hin Hf.
  - by apply elem_of_nil in Hin.
  - cbn [load_loop]. apply elem_of_cons in Hin as [<-|Hin].
    + rewrite Hf, print_then_eq. apply list_elem_of_here.
    + destruct (load_record g); rewrite print_then_eq;
        apply list_elem_of_further; by eapply IH.
Qed.

Lemma frame_rows_pd_DataFrame l : frame_rows (pd_DataFrame l) = l.
Proof. by destruct l. Qed.

Lemma load_claude_json_files_spec json_folder :
  glob_coded json_folder ≠ [] ->
  outcome (load_claude_json_files json_folder)
    = Return (pd_DataFrame (omap loadable (glob_coded json_folder)))
  ∧ forall f e, f ∈ glob_coded json_folder -> load_record f = Raise e ->
      ErrorLoading (file_name f) e ∈ printed (load_claude_json_files json_folder).
Proof.
  intros Hne. unfold load_claude_json_files.
  destruct (glob_coded json_folder) as [|f0 files] eqn:G; [contradiction|].
  rewrite print_then_eq. cbn [outcome printed fst snd].
  rewrite outcome_bind, printed_bind, load_loop_outcome. cbn [app].
  split.
  - by rewrite print_then_eq.
  - intros f e Hin Hf. apply list_elem_of_further, elem_of_app. left.
    by apply load_loop_error_printed.
Qed.

Lemma extract_outcome f :
  outcome (extract_metrics_from_file f) = Return (extractable f).
Proof.
  unfold extractable, extract_metrics_from_file.
  destruct (content f) as [| |data]; try reflexivity.
  destruct (extracted_data f data); reflexivity.
Qed.

Lemma collect_loop_outcome coded_files : forall all_metrics,
  outcome (collect_loop coded_files all_metrics)
  = Return (all_metrics ++ omap extractable coded_files).
Proof.
  induction coded_files as [|f rest IH]; intros all_metrics.
  - cbn. by rewrite app_nil_r.
  - cbn [collect_loop omap list_omap]. rewrite outcome_bind, extract_outcome.
    destruct (extractable f) as [m|]; [|apply IH].
    rewrite IH. by rewrite <- app_assoc.
Qed.

Lemma collect_loop_failed_printed coded_files : forall all_metrics f,
  f ∈ coded_files -> content f = Malformed ->
  FailedToParse (file_name f) ∈ printed (collect_loop coded_files all_metrics).
Proof.
  induction coded_files as [|g rest IH]; intros all_metrics f Hin Hf.
  - by apply elem_of_nil in Hin.
  - cbn [collect_loop]. rewrite printed_bind. apply elem_of_app.
    apply elem_of_cons in Hin as [<-|Hin].
    + left. unfold extract_metrics_from_file. rewrite Hf. apply list_elem_of_here.
    + right. rewrite extract_outcome. destruct (extractable g); by apply IH.
Qed.

(** C8.  Take a folder and one of its coded files whose content is not
    valid JSON.  Loading the folder returns a table; the table consists of
    the records of the files that load, in order, so the malformed file
    contributes no row and every loadable file contributes its record; and
    the error is printed for that file.  The metric extractor behaves the
    same way: it returns the extracted records of the other files and logs
    the parse failure of this one. *)
Theorem malformed_file_is_skipped (json_folder : list File) (f : File) :
  f ∈ glob_coded json_folder ->
  content f = Malformed ->
  loadable f = None
  ∧ extractable f = None
  ∧ (∃ claude_df,
       outcome (load_claude_json_files json_folder) = Return claude_df
       ∧ frame_rows claude_df = omap loadable (glob_coded json_folder)
       ∧ forall g record, g ∈ glob_coded json_folder -> load_record g = Return record ->
           record ∈ frame_rows claude_df)
  ∧ ErrorLoading (file_name f) JSONDecodeError
      ∈ printed (load_claude_json_files json_folder)
  ∧ outcome (collect_all_metrics json_folder)
    = Return (omap extractable (glob_coded json_folder))
  ∧ FailedToParse (file_name f) ∈ printed (collect_all_metrics json_folder).
Proof.
  intros Hin Hbad.
  assert (Hrec : load_record f = Raise JSONDecodeError)
    by (unfold load_record; by rewrite Hbad).
  assert (Hne : glob_coded json_folder ≠ [])
    by (intros E; rewrite E in Hin; by apply elem_of_nil in Hin).
  destruct (load_claude_json_files_spec json_folder Hne) as [Hout Hpr].
  split; [unfold loadable; by rewrite Hrec|].
  split; [unfold extractable, extract_metrics_from_file; by rewrite Hbad|].
  split; [|split; [|split]].
  - eexists. split; [exact Hout|]. rewrite frame_rows_pd_DataFrame.
    split; [reflexivity|].
    intros g record Hg Hload. apply list_elem_of_omap. exists g.
    split; [exact Hg|]. unfold loadable. by rewrite Hload.
  - by apply Hpr.
  - unfold collect_all_metrics, find_coded_json_files.
    rewrite outcome_bind, print_then_eq. cbn [outcome snd mret Run_ret].
    rewrite outcome_bind, collect_loop_outcome.
    cbn [app]. by rewrite print_then_eq.
  - unfold collect_all_metrics, find_coded_json_files.
    rewrite printed_bind, print_then_eq. cbn [outcome printed fst snd mret Run_ret].
    apply list_elem_of_further. cbn [app].
    rewrite printed_bind. apply elem_of_app. left.
    by apply collect_loop_failed_printed.
Qed.

Lemma malformed_file_is_skipped_witness :
  frame_rows <$> returned (load_claude_json_files folder_with_malformed)
    = Some [mkClaude "P02" (Num 5) (Num 3) (Num 1) (Num (1 # 5))]
  ∧ ErrorLoading "P09_coded.json" JSONDecodeError
      ∈ printed (load_claude_json_files folder_with_malformed)
  ∧ FailedToParse "P09_coded.json" ∈ printed (collect_all_metrics folder_with_malformed).
Proof.
  destruct (malformed_file_is_skipped folder_with_malformed (mkFile "P09_coded.json" Malformed))
    as (_ & _ & _ & Herr & _ & Hfail).
  - vm_compute. apply list_elem_of_further, list_elem_of_here.
  - reflexivity.
  - split; [vm_compute; reflexivity|]. split; [exact Herr|exact Hfail].
Defined.

(* ===================================================================== *)
(** ** The inner join *)
(* ===================================================================== *)

Lemma pd_merge_inner_cons m manual_df claude_rows :
  pd_merge_inner (m :: manual_df) claude_rows
  = ((fun c => mkMerged m c ∅) <$> filter (fun c => c_ParticipantID c = m_ParticipantID m) claude_rows)
    ++ pd_merge_inner manual_df claude_rows.
Proof.
  unfold pd_merge_inner. cbn [mbind list_bind]. f_equal.
Qed.



Lemma filter_unique_key (claude_rows : list ClaudeRow) id :
  NoDup (c_ParticipantID <$> claude_rows) ->
  length (filter (fun c => c_ParticipantID c = id) claude_rows)
  = if decide (id ∈ claude_ids claude_rows) then 1%nat else 0%nat.
Proof.
  unfold claude_ids. induction claude_rows as [|c rows IH]; intros Hnd.
  - cbn. rewrite decide_False; [reflexivity|set_solver].
  - cbn [fmap list_fmap] in Hnd. apply NoDup_cons in Hnd as [Hnotin Hnd].
    rewrite filter_cons. specialize (IH Hnd). cbn [fmap list_fmap list_to_set].
    destruct (decide (c_ParticipantID c = id)) as [E|E].
    + cbn [length]. rewrite IH.
      rewrite (decide_True (P := id ∈ _ ∪ _)) by set_solver.
      rewrite decide_False; [reflexivity|].
      rewrite elem_of_list_to_set, <- E. exact Hnotin.
    + rewrite IH. destruct (decide (id ∈ list_to_set (c_ParticipantID <$> rows))).
      * rewrite decide_True by set_solver. reflexivity.
      * rewrite decide_False by set_solver. reflexivity.
Qed.

(** With unique identifiers on both sides the join has one row per
    identifier present in both tables. *)
Lemma pd_merge_inner_length manual_df claude_rows :
  NoDup (m_ParticipantID <$> manual_df) ->
  NoDup (c_ParticipantID <$> claude_rows) ->
  length (pd_merge_inner manual_df claude_rows)
  = size (manual_ids manual_df ∩ claude_ids claude_rows).
Proof.
  intros Hm Hc. induction manual_df as [|m manual_df IH].
  - unfold manual_ids. cbn.
    replace (∅ ∩ claude_ids claude_rows) with (∅ : gset string) by set_solver.
    by rewrite size_empty.
  - cbn [fmap list_fmap] in Hm. apply NoDup_cons in Hm as [Hnotin Hm].
    rewrite pd_merge_inner_cons, length_app, length_fmap, (filter_unique_key _ _ Hc).
    rewrite (IH Hm). unfold manual_ids. cbn [fmap list_fmap list_to_set].
    fold (manual_ids manual_df).
    assert (Hfresh : m_ParticipantID m ∉ manual_ids manual_df)
      by (unfold manual_ids; by rewrite elem_of_list_to_set).
    destruct (decide (m_ParticipantID m ∈ claude_ids claude_rows)) as [Hin|Hout].
    + replace (({[m_ParticipantID m]} ∪ manual_ids manual_df) ∩ claude_ids claude_rows)
        with ({[m_ParticipantID m]} ∪ (manual_ids manual_df ∩ claude_ids claude_rows))
        by set_solver.
      rewrite (size_union {[m_ParticipantID m]} (manual_ids manual_df ∩ claude_ids claude_rows))
        by set_solver.
      by rewrite size_singleton.
    + replace (({[m_ParticipantID m]} ∪ manual_ids manual_df) ∩ claude_ids claude_rows)
        with (manual_ids manual_df ∩ claude_ids claude_rows)
        by set_solver.
      reflexivity.
Qed.

Lemma warn_if_nonempty_printed mk s :
  printed (warn_if_nonempty mk s) = if decide (s = ∅) then [] else [mk (size s) s].
Proof. unfold warn_if_nonempty. by destruct (decide (s = ∅)). Qed.

Lemma warn_if_nonempty_outcome mk s : outcome (warn_if_nonempty mk s) = Return tt.
Proof. unfold warn_if_nonempty. by destruct (decide (s = ∅)). Qed.

Lemma merge_datasets_frame manual_df claude_rows :
  merge_datasets manual_df (Frame claude_rows)
  = (MergedDataset (length (pd_merge_inner manual_df claude_rows))
       :: printed (warn_if_nonempty WarnManualOnly
                     (manual_ids manual_df ∖ claude_ids claude_rows))
       ++ printed (warn_if_nonempty WarnClaudeOnly
                     (claude_ids claude_rows ∖ manual_ids manual_df)),
     Return (pd_merge_inner manual_df claude_rows)).
Proof.
  unfold merge_datasets. rewrite print_then_eq. f_equal.
  - f_equal. rewrite printed_bind, warn_if_nonempty_outcome. f_equal.
    rewrite printed_bind, warn_if_nonempty_outcome. cbn. by rewrite app_nil_r.
  - rewrite outcome_bind, warn_if_nonempty_outcome.
    rewrite outcome_bind, warn_if_nonempty_outcome. reflexivity.
Qed.

(** On two tables that both have their identifier column and no repeated
    identifier, the aligner returns as many rows as there are identifiers
    common to both, and prints each one-sided set of identifiers unless it
    is empty. *)
Lemma merge_datasets_unique_ids manual_df claude_rows :
  NoDup (m_ParticipantID <$> manual_df) ->
  NoDup (c_ParticipantID <$> claude_rows) ->
  ∃ merged_df,
    outcome (merge_datasets manual_df (Frame claude_rows)) = Return merged_df
    ∧ length merged_df = size (manual_ids manual_df ∩ claude_ids claude_rows)
    ∧ (forall id, id ∈ manual_ids manual_df -> id ∉ claude_ids claude_rows ->
         WarnManualOnly (size (manual_ids manual_df ∖ claude_ids claude_rows))
                        (manual_ids manual_df ∖ claude_ids claude_rows)
           ∈ printed (merge_datasets manual_df (Frame claude_rows)))
    ∧ (forall id, id ∈ claude_ids claude_rows -> id ∉ manual_ids manual_df ->
         WarnClaudeOnly (size (claude_ids claude_rows ∖ manual_ids manual_df))
                        (claude_ids claude_rows ∖ manual_ids manual_df)
           ∈ printed (merge_datasets manual_df (Frame claude_rows))).
Proof.
  intros Hm Hc. rewrite merge_datasets_frame. cbn [outcome printed fst snd].
  eexists. split; [reflexivity|]. split; [by apply pd_merge_inner_length|].
  rewrite !warn_if_nonempty_printed. split.
  - intros id H1 H2. apply list_elem_of_further, elem_of_app. left.
    rewrite decide_False by set_solver. apply list_elem_of_here.
  - intros id H1 H2. apply list_elem_of_further, elem_of_app. right.
    rewrite decide_False by set_solver. apply list_elem_of_here.
Qed.

(** C4.  A folder whose only coded file is not valid JSON: the loader
    returns the frame built from an empty list of records, which has no
    [ParticipantID] column; the aligner then raises [KeyError] instead of
    returning an empty aligned table and reporting the manual subjects as
    unmatched, and [main] stops there. *)
Theorem empty_automated_table_breaks_merge :
  returned (load_claude_json_files folder_all_malformed) = Some NoColumns
  ∧ manual_ids (rename_row <$> one_common_subject_sheet)
      ∩ claude_ids (frame_rows NoColumns) = ∅
  ∧ merge_datasets (rename_row <$> one_common_subject_sheet) NoColumns
    = ([], Raise (KeyError "ParticipantID"))
  ∧ main example_numerics folder_all_malformed one_common_subject_sheet
    = ([FoundFiles 1; ErrorLoading "P09_coded.json" JSONDecodeError;
        SuccessfullyLoaded 0; LoadedManual 2;
        ErrorDuringAnalysis (KeyError "ParticipantID")], None).
Proof. repeat split; vm_compute; reflexivity. Qed.



Lemma merge_datasets_unique_ids_example :
  ∃ merged_df,
    outcome (merge_datasets (rename_row <$> one_common_subject_sheet)
               (Frame (omap loadable one_common_subject_folder))) = Return merged_df
    ∧ length merged_df = 1%nat.
Proof.
  destruct (merge_datasets_unique_ids (rename_row <$> one_common_subject_sheet)
              (omap loadable one_common_subject_folder))
    as (merged_df & Hret & Hlen & _).
  - vm_compute. repeat constructor; set_solver.
  - vm_compute. repeat constructor; set_solver.
  - exists merged_df. split; [exact Hret|]. rewrite Hlen. vm_compute. reflexivity.
Qed.

(* ===================================================================== *)
(** ** The analysed dimensions *)
(* ===================================================================== *)

Lemma column_metric_exists metric :
  metric ∈ metrics ->
  is_Some (column (metric +:+ "_Manual")) ∧ is_Some (column (metric +:+ "_Claude")).
Proof.
  unfold metrics. rewrite !elem_of_cons, elem_of_nil.
  intros [->|[->|[->|[]]]]; split; eexists; reflexivity.
Qed.

Lemma metrics_all : Forall (fun m => m ∈ metrics) metrics.
Proof. apply Forall_forall. auto. Qed.

Lemma metrics_cases (P : string -> Prop) :
  P "Fluency" -> P "Flexibility" -> P "Elaboration" -> forall m, m ∈ metrics -> P m.
Proof.
  intros H1 H2 H3 m. unfold metrics. rewrite !elem_of_cons, elem_of_nil.
  intros [->|[->|[->|[]]]]; assumption.
Qed.

(* ===================================================================== *)
(** ** Dictionaries *)
(* ===================================================================== *)

Lemma dict_get_set_eq key v d : dict_get key (dict_set key v d) = Some v.
Proof.
  induction d as [|[k w] d IH]; cbn.
  - by rewrite String.eqb_refl.
  - destruct (String.eqb k key) eqn:E; cbn; rewrite E; [reflexivity|exact IH].
Qed.

Lemma dict_get_set_ne key key' v d :
  key ≠ key' -> dict_get key' (dict_set key v d) = dict_get key' d.
Proof.
  intros Hne. induction d as [|[k w] d IH]; cbn.
  - destruct (String.eqb_spec key key'); [contradiction|reflexivity].
  - destruct (String.eqb_spec k key) as [->|Hk]; cbn.
    + destruct (String.eqb_spec key key'); [contradiction|reflexivity].
    + destruct (String.eqb k key'); [reflexivity|exact IH].
Qed.

Lemma dict_get_elem {V} key (v : V) d : dict_get key d = Some v -> (key, v) ∈ d.
Proof.
  induction d as [|[k w] d IH]; cbn; [discriminate|].
  destruct (String.eqb_spec k key) as [->|Hk].
  - intros [= ->]. apply list_elem_of_here.
  - intros H. apply list_elem_of_further. auto.
Qed.

(* ===================================================================== *)
(** ** The correlation routine *)
(* ===================================================================== *)

Lemma pearsonr_short lib xs ys :
  (length xs < 2)%nat ->
  pearsonr lib xs ys = Raise (ValueError "x and y must have length at least 2.").
Proof.
  intros H. unfold pearsonr. apply Nat.ltb_lt in H. by rewrite H.
Qed.

Lemma pearsonr_constant lib xs ys :
  (2 <= length xs)%nat ->
  is_constant xs = true ∨ is_constant ys = true ->
  pearsonr lib xs ys = Return (NaN, NaN).
Proof.
  intros H Hc. unfold pearsonr.
  apply Nat.ltb_ge in H. rewrite H.
  destruct Hc as [-> | ->]; [reflexivity|].
  by rewrite orb_true_r.
Qed.

Lemma pearsonr_returns lib xs ys :
  (2 <= length xs)%nat -> ∃ corr p, pearsonr lib xs ys = Return (corr, p).
Proof.
  intros H. unfold pearsonr. apply Nat.ltb_ge in H. rewrite H.
  destruct (is_constant xs || is_constant ys); [eauto|].
  destruct (length xs =? 2)%nat; eauto.
Qed.

Lemma pearsonr_raises_iff lib xs ys e :
  pearsonr lib xs ys = Raise e ->
  (length xs < 2)%nat ∧ e = ValueError "x and y must have length at least 2.".
Proof.
  intros H. destruct (Nat.lt_ge_cases (length xs) 2) as [Hlt|Hge].
  - rewrite pearsonr_short in H by exact Hlt. by injection H as <-.
  - destruct (pearsonr_returns lib xs ys Hge) as (c & p & E). congruence.
Qed.

(* ===================================================================== *)
(** ** Valid pairs *)
(* ===================================================================== *)

Lemma dropna_valid_pairs metric mc cc df :
  column (metric +:+ "_Manual") = Some mc ->
  column (metric +:+ "_Claude") = Some cc ->
  dropna mc cc df = valid_pairs metric df.
Proof.
  intros Hm Hc. unfold dropna, valid_pairs, manual_value, automated_value.
  by rewrite Hm, Hc.
Qed.



(* ===================================================================== *)
(** ** The first loop of the agreement engine *)
(* ===================================================================== *)

Lemma entry_of_cons lib v0 v corr p :
  pearsonr lib (fst <$> v0 :: v) (snd <$> v0 :: v) = Return (corr, p) ->
  entry_of lib (v0 :: v) = Some (stats_of lib (v0 :: v) corr p).
Proof. intros H. unfold entry_of. by rewrite H. Qed.

Lemma agreement_loop_inv lib remaining : forall df results,
  Forall (fun m => m ∈ metrics) remaining ->
  match outcome (agreement_loop lib remaining df results) with
  | Return results' =>
      (forall m, m ∈ remaining -> length (valid_pairs m df) ≠ 1%nat)
      ∧ (forall m, dict_get m results' =
                   if decide (m ∈ remaining)
                   then match entry_of lib (valid_pairs m df) with
                        | Some st => Some st
                        | None => dict_get m results
                        end
                   else dict_get m results)
  | Raise e =>
      e = single_pair_error
      ∧ ∃ m, m ∈ remaining ∧ length (valid_pairs m df) = 1%nat
  end.
Proof.
  induction remaining as [|metric rest IH]; intros df results Hall.
  - cbn. split; [intros m Hm; by apply elem_of_nil in Hm|].
    intros m. rewrite decide_False; [reflexivity|apply not_elem_of_nil].
  - inversion Hall as [|? ? Hm Hrest]; subst.
    destruct (column_metric_exists _ Hm) as [[mc Hmc] [cc Hcc]].
    cbn [agreement_loop]. rewrite Hmc, Hcc.
    rewrite (dropna_valid_pairs _ _ _ _ Hmc Hcc).
    destruct (valid_pairs metric df) as [|v0 v] eqn:V.
    + cbn [length Nat.eqb]. rewrite print_then_eq. cbn [outcome snd].
      specialize (IH df results Hrest).
      destruct (outcome (agreement_loop lib rest df results)) as [results'|e].
      * destruct IH as [IH1 IH2]. split.
        -- intros m [->|Hin]%elem_of_cons; [by rewrite V|auto].
        -- intros m. rewrite IH2.
           destruct (decide (m = metric)) as [->|Hne].
           ++ rewrite (decide_True (P := metric ∈ metric :: rest)) by apply list_elem_of_here.
              rewrite V. cbn [entry_of]. by destruct (decide (metric ∈ rest)).
           ++ destruct (decide (m ∈ rest)) as [Hin|Hnin].
              ** rewrite decide_True by (by apply list_elem_of_further). reflexivity.
              ** rewrite decide_False; [reflexivity|].
                 intros [?|?]%elem_of_cons; contradiction.
      * destruct IH as [-> (m & Hin & Hlen)]. split; [reflexivity|].
        exists m. split; [by apply list_elem_of_further|exact Hlen].
    + cbn [length Nat.eqb].
      destruct (pearsonr lib (fst <$> v0 :: v) (snd <$> v0 :: v)) as [[corr p]|e] eqn:P.
      * rewrite lift_return_bind. rewrite !print_then_eq. cbn [outcome snd].
        pose proof (entry_of_cons _ _ _ _ _ P) as Hentry.
        specialize (IH df (dict_set metric (stats_of lib (v0 :: v) corr p) results) Hrest).
        destruct (outcome (agreement_loop lib rest df _)) as [results'|e].
        -- destruct IH as [IH1 IH2]. split.
           ++ intros m [->|Hin]%elem_of_cons; [|auto].
              rewrite V. intros Hlen.
              assert (length (fst <$> v0 :: v) < 2)%nat as Hshort
                by (rewrite length_fmap; lia).
              rewrite (pearsonr_short lib _ (snd <$> v0 :: v) Hshort) in P. discriminate.
           ++ intros m. rewrite IH2.
              destruct (decide (m = metric)) as [->|Hne].
              ** rewrite (decide_True (P := metric ∈ metric :: rest)) by apply list_elem_of_here.
                 rewrite V, Hentry, dict_get_set_eq. by destruct (decide (metric ∈ rest)).
              ** rewrite dict_get_set_ne by congruence.
                 destruct (decide (m ∈ rest)) as [Hin|Hnin].
                 --- rewrite decide_True by (by apply list_elem_of_further). reflexivity.
                 --- rewrite decide_False; [reflexivity|].
                     intros [?|?]%elem_of_cons; contradiction.
        -- destruct IH as [-> (m & Hin & Hlen)]. split; [reflexivity|].
           exists m. split; [by apply list_elem_of_further|exact Hlen].
      * rewrite lift_raise_bind. cbn [outcome snd].
        destruct (pearsonr_raises_iff _ _ _ _ P) as [Hshort ->].
        split; [reflexivity|]. exists metric. split; [apply list_elem_of_here|].
        rewrite V. rewrite length_fmap in Hshort. cbn [length] in *. lia.
Qed.

Lemma agreement_loop_printed lib remaining : forall df results results',
  Forall (fun m => m ∈ metrics) remaining ->
  outcome (agreement_loop lib remaining df results) = Return results' ->
  forall m, m ∈ remaining ->
    (valid_pairs m df = [] ->
       NoValidData m ∈ printed (agreement_loop lib remaining df results))
    ∧ (forall st, entry_of lib (valid_pairs m df) = Some st ->
         MetricStats m st ∈ printed (agreement_loop lib remaining df results)
         ∧ Interpretation m (correlation_tier (correlation st))
             ∈ printed (agreement_loop lib remaining df results)).
Proof.
  induction remaining as [|metric rest IH]; intros df results results' Hall Hret m Hin.
  - by apply elem_of_nil in Hin.
  - inversion Hall as [|? ? Hm Hrest]; subst.
    destruct (column_metric_exists _ Hm) as [[mc Hmc] [cc Hcc]].
    revert Hret. cbn [agreement_loop]. rewrite Hmc, Hcc.
    rewrite (dropna_valid_pairs _ _ _ _ Hmc Hcc).
    destruct (valid_pairs metric df) as [|v0 v] eqn:V.
    + cbn [length Nat.eqb]. rewrite print_then_eq. cbn [outcome printed fst snd].
      intros Hret.
      apply elem_of_cons in Hin as [->|Hin].
      * split; [intros _; apply list_elem_of_here|].
        intros st. rewrite V. discriminate.
      * destruct (IH df results results' Hrest Hret m Hin) as [H1 H2].
        split; [intros E; apply list_elem_of_further; auto|].
        intros st E. destruct (H2 st E). split; by apply list_elem_of_further.
    + cbn [length Nat.eqb].
      destruct (pearsonr lib (fst <$> v0 :: v) (snd <$> v0 :: v)) as [[corr p]|e] eqn:P.
      * rewrite lift_return_bind. rewrite !print_then_eq. cbn [outcome printed fst snd].
        intros Hret.
        destruct (decide (m = metric)) as [->|Hne].
        -- split; [rewrite V; discriminate|].
           intros st. rewrite V, (entry_of_cons _ _ _ _ _ P). intros [= <-].
           split; [apply list_elem_of_here|].
           apply list_elem_of_further, list_elem_of_here.
        -- apply elem_of_cons in Hin as [->|Hin]; [contradiction|].
           destruct (IH df _ results' Hrest Hret m Hin) as [H1 H2].
           split; [intros E; do 2 apply list_elem_of_further; auto|].
           intros st E. destruct (H2 st E). split; by do 2 apply list_elem_of_further.
      * rewrite lift_raise_bind. discriminate.
Qed.

(* ===================================================================== *)
(** ** The ICC pass *)
(* ===================================================================== *)

Lemma core_set_icc st v : core (set_icc st v) = core st.
Proof. reflexivity. Qed.

Lemma icc_loop_inv lib remaining : forall df results,
  ∃ results', outcome (icc_loop lib remaining df results) = Return results'
    ∧ forall m, core <$> dict_get m results' = core <$> dict_get m results.
Proof.
  induction remaining as [|metric rest IH]; intros df results.
  - exists results. split; reflexivity.
  - cbn [icc_loop].
    destruct (calculate_icc lib df metric) as [icc_result|e].
    + destruct (dict_get metric results) as [st|] eqn:G.
      * rewrite !print_then_eq. cbn [outcome snd].
        destruct (IH df (dict_set metric (set_icc st icc_result) results))
          as (results' & Hret & Hcore).
        exists results'. split; [exact Hret|].
        intros m. rewrite Hcore.
        destruct (decide (m = metric)) as [->|Hne].
        -- by rewrite dict_get_set_eq, G.
        -- by rewrite dict_get_set_ne by congruence.
      * rewrite print_then_eq. cbn [outcome snd]. apply IH.
    + rewrite print_then_eq. cbn [outcome snd]. apply IH.
Qed.

(* ===================================================================== *)
(** ** [calculate_agreement_statistics] as a whole *)
(* ===================================================================== *)

Lemma core_entry_of lib v : core <$> entry_of lib v = entry_of lib v.
Proof.
  unfold entry_of. destruct v as [|v0 v]; [reflexivity|].
  destruct (pearsonr _ _ _) as [[c p]|e]; reflexivity.
Qed.

Lemma calculate_agreement_statistics_spec lib df :
  match outcome (calculate_agreement_statistics lib df) with
  | Return results =>
      (forall m, m ∈ metrics -> length (valid_pairs m df) ≠ 1%nat)
      ∧ (forall m, core <$> dict_get m results =
                   if decide (m ∈ metrics) then entry_of lib (valid_pairs m df)
                   else None)
  | Raise e =>
      e = single_pair_error
      ∧ ∃ m, m ∈ metrics ∧ length (valid_pairs m df) = 1%nat
  end.
Proof.
  unfold calculate_agreement_statistics. rewrite outcome_bind.
  pose proof (agreement_loop_inv lib metrics df [] metrics_all) as Hinv.
  destruct (outcome (agreement_loop lib metrics df [])) as [results|e]; [|exact Hinv].
  destruct Hinv as [H1 H2].
  assert (Hcore : forall m, core <$> dict_get m results =
                   if decide (m ∈ metrics) then entry_of lib (valid_pairs m df) else None).
  { intros m. rewrite H2. destruct (decide (m ∈ metrics)); [|reflexivity].
    destruct (entry_of lib (valid_pairs m df)) as [st|] eqn:E; [|reflexivity].
    rewrite <- E at 2. rewrite <- core_entry_of, E. reflexivity. }
  destruct (PINGOUIN_AVAILABLE lib).
  - destruct (icc_loop_inv lib metrics df results) as (results' & -> & Hc).
    split; [exact H1|]. intros m. rewrite Hc. apply Hcore.
  - cbn. split; [exact H1|exact Hcore].
Qed.

Lemma calculate_agreement_statistics_printed lib df results :
  outcome (calculate_agreement_statistics lib df) = Return results ->
  forall m, m ∈ metrics ->
    (valid_pairs m df = [] ->
       NoValidData m ∈ printed (calculate_agreement_statistics lib df))
    ∧ (forall st, entry_of lib (valid_pairs m df) = Some st ->
         MetricStats m st ∈ printed (calculate_agreement_statistics lib df)
         ∧ Interpretation m (correlation_tier (correlation st))
             ∈ printed (calculate_agreement_statistics lib df)).
Proof.
  unfold calculate_agreement_statistics. rewrite outcome_bind, printed_bind.
  destruct (outcome (agreement_loop lib metrics df [])) as [results0|e] eqn:E;
    [|discriminate].
  intros _ m Hm.
  destruct (agreement_loop_printed lib metrics df [] results0 metrics_all E m Hm)
    as [H1 H2].
  split.
  - intros V. apply elem_of_app. left. auto.
  - intros st Hst. destruct (H2 st Hst). split; apply elem_of_app; left; assumption.
Qed.

(* ===================================================================== *)
(** ** Degenerate samples *)
(* ===================================================================== *)

(** A dimension with exactly one valid pair makes the whole computation
    raise scipy's [ValueError]. *)
Lemma single_pair_raises lib df metric :
  metric ∈ metrics -> length (valid_pairs metric df) = 1%nat ->
  outcome (calculate_agreement_statistics lib df) = Raise single_pair_error.
Proof.
  intros Hm Hlen.
  pose proof (calculate_agreement_statistics_spec lib df) as H.
  destruct (outcome (calculate_agreement_statistics lib df)) as [results|e].
  - destruct H as [H _]. exfalso. exact (H metric Hm Hlen).
  - destruct H as [-> _]. reflexivity.
Qed.

(** Without such a dimension the computation returns. *)
Lemma no_single_pair_returns lib df :
  (forall m, m ∈ metrics -> length (valid_pairs m df) ≠ 1%nat) ->
  ∃ results, outcome (calculate_agreement_statistics lib df) = Return results.
Proof.
  intros Hno.
  pose proof (calculate_agreement_statistics_spec lib df) as H.
  destruct (outcome (calculate_agreement_statistics lib df)) as [results|e]; [eauto|].
  destruct H as [_ (m & Hm & Hlen)]. exfalso. exact (Hno m Hm Hlen).
Qed.

(** A dimension without any valid pair gets no entry and is announced as
    ["No valid data"], whenever the computation returns. *)
Lemma no_valid_data_reported lib df results metric :
  outcome (calculate_agreement_statistics lib df) = Return results ->
  metric ∈ metrics -> valid_pairs metric df = [] ->
  dict_get metric results = None
  ∧ NoValidData metric ∈ printed (calculate_agreement_statistics lib df).
Proof.
  intros Hret Hm V.
  pose proof (calculate_agreement_statistics_spec lib df) as H.
  rewrite Hret in H. destruct H as [_ H]. specialize (H metric).
  rewrite decide_True, V in H by exact Hm. cbn in H.
  split; [by destruct (dict_get metric results)|].
  by apply (calculate_agreement_statistics_printed lib df results Hret metric Hm).
Qed.

(** C1.  One subject coded by both raters (P03: Fluency 4 by hand, 6 by the
    model; P01 and P02 each present on one side only): the aligned table
    has one row, every dimension has exactly one valid pair, the
    correlation routine raises [ValueError] on the first dimension, the
    agreement engine propagates it, and [main] stops: no dimension is
    reported as unavailable, no discrepancy analysis and no report follow. *)
Theorem one_common_subject_aborts_run :
  returned (load_and_merge one_common_subject_folder one_common_subject_sheet)
    = Some one_common_subject_merged
  ∧ valid_pairs "Fluency" one_common_subject_merged = [(4%Q, 6%Q)]
  ∧ calculate_agreement_statistics example_numerics one_common_subject_merged
    = ([], Raise single_pair_error)
  ∧ snd (main example_numerics one_common_subject_folder one_common_subject_sheet) = None
  ∧ last (fst (main example_numerics one_common_subject_folder one_common_subject_sheet))
    = Some (ErrorDuringAnalysis single_pair_error).
Proof. repeat split; vm_compute; reflexivity. Qed.

(* ===================================================================== *)
(** ** Zero variance *)
(* ===================================================================== *)

Lemma is_constant_true xs : constant_sample xs -> is_constant xs = true.
Proof.
  intros H. destruct xs as [|x0 xs]; [reflexivity|].
  unfold is_constant. apply forallb_forall. intros x Hx.
  apply Qeq_bool_iff. apply H; [by apply list_elem_of_In|apply list_elem_of_here].
Qed.

Lemma cell_sum_nan_absorbs l : foldl cell_add NaN l = NaN.
Proof. induction l as [|c l IH]; [reflexivity|exact IH]. Qed.

Lemma cell_sum_nan l : forall acc, NaN ∈ l -> foldl cell_add acc l = NaN.
Proof.
  induction l as [|c l IH]; intros acc H; [by apply elem_of_nil in H|].
  cbn [foldl]. apply elem_of_cons in H as [<-|H]; [|by apply IH].
  destruct acc; apply cell_sum_nan_absorbs.
Qed.

Lemma np_mean_nan l : NaN ∈ l -> np_mean l = NaN.
Proof.
  intros H. unfold np_mean. destruct l as [|c l]; [reflexivity|].
  by rewrite cell_sum_nan.
Qed.

Lemma overall_assessment_nan avg_mae : overall_assessment NaN avg_mae = PoorAgreement.
Proof. reflexivity. Qed.

Lemma correlation_tier_nan : correlation_tier NaN = Poor.
Proof. reflexivity. Qed.

(** C2 (as amended).  Take a dimension whose valid pairs, two or more, have
    equal manual values or equal automated values, in a table where no
    dimension has exactly one valid pair.  Then computing the agreement
    statistics returns; the entry of that dimension holds NaN as its
    correlation and as its p-value; the tier printed for it is the one of a
    NaN, ["Poor agreement"]; and in the report the average correlation is
    NaN and the conclusion is the poor-agreement one. *)
Theorem zero_variance_stores_nan (lib : Numerics) (df : list MergedRow) (metric : string) :
  metric ∈ metrics ->
  (forall m, m ∈ metrics -> length (valid_pairs m df) ≠ 1%nat) ->
  (2 <= length (valid_pairs metric df))%nat ->
  constant_sample (fst <$> valid_pairs metric df)
    ∨ constant_sample (snd <$> valid_pairs metric df) ->
  ∃ results st,
    outcome (calculate_agreement_statistics lib df) = Return results
    ∧ dict_get metric results = Some st
    ∧ correlation st = NaN ∧ p_value st = NaN
    ∧ Interpretation metric Poor ∈ printed (calculate_agreement_statistics lib df)
    ∧ avg_corr (generate_summary_report df results) = NaN
    ∧ conclusion (generate_summary_report df results) = PoorAgreement.
Proof.
  intros Hm Hno Hlen Hconst.
  destruct (no_single_pair_returns lib df Hno) as [results Hret].
  pose proof (calculate_agreement_statistics_spec lib df) as Hspec.
  rewrite Hret in Hspec. destruct Hspec as [_ Hspec]. specialize (Hspec metric).
  rewrite decide_True in Hspec by exact Hm.
  assert (Hp : pearsonr lib (fst <$> valid_pairs metric df) (snd <$> valid_pairs metric df)
               = Return (NaN, NaN)).
  { apply pearsonr_constant; [by rewrite length_fmap|].
    destruct Hconst as [H|H]; [left|right]; by apply is_constant_true. }
  assert (He : entry_of lib (valid_pairs metric df)
               = Some (stats_of lib (valid_pairs metric df) NaN NaN)).
  { unfold entry_of. rewrite Hp.
    destruct (valid_pairs metric df); [cbn in Hlen; lia|reflexivity]. }
  rewrite He in Hspec.
  destruct (dict_get metric results) as [st|] eqn:G; [|discriminate].
  assert (Hc : correlation st = NaN).
  { apply (f_equal (fmap correlation)) in Hspec. by injection Hspec. }
  assert (Hpv : p_value st = NaN).
  { apply (f_equal (fmap p_value)) in Hspec. by injection Hspec. }
  exists results, st. repeat split; try assumption.
  - destruct (calculate_agreement_statistics_printed lib df results Hret metric Hm)
      as [_ Hpr].
    destruct (Hpr _ He) as [_ Hi]. exact Hi.
  - cbn. apply np_mean_nan. apply list_elem_of_fmap.
    exists (metric, st). split; [cbn; by rewrite Hc|by apply dict_get_elem].
  - cbn. rewrite np_mean_nan; [reflexivity|]. apply list_elem_of_fmap.
    exists (metric, st). split; [cbn; by rewrite Hc|by apply dict_get_elem].
Qed.

Lemma is_constant_sound xs : is_constant xs = true -> constant_sample xs.
Proof.
  destruct xs as [|x0 xs]; intros H x y Hx Hy; [by apply elem_of_nil in Hx|].
  unfold is_constant in H. rewrite forallb_forall in H.
  apply list_elem_of_In in Hx, Hy.
  apply H, Qeq_bool_iff in Hx. apply H, Qeq_bool_iff in Hy.
  by rewrite Hx, Hy.
Qed.

Lemma zero_variance_stores_nan_witness :
  ∃ results st,
    outcome (calculate_agreement_statistics example_numerics flat_fluency_merged)
      = Return results
    ∧ dict_get "Fluency" results = Some st
    ∧ correlation st = NaN ∧ p_value st = NaN
    ∧ Interpretation "Fluency" Poor
        ∈ printed (calculate_agreement_statistics example_numerics flat_fluency_merged)
    ∧ avg_corr (generate_summary_report flat_fluency_merged results) = NaN
    ∧ conclusion (generate_summary_report flat_fluency_merged results) = PoorAgreement.
Proof.
  apply (zero_variance_stores_nan example_numerics flat_fluency_merged "Fluency").
  - apply list_elem_of_here.
  - apply metrics_cases; vm_compute; lia.
  - vm_compute. lia.
  - left. apply is_constant_sound. vm_compute. reflexivity.
Defined.

(** Two subjects with the same manual Fluency (5 and 5; automated 3 and 4):
    the correlation stored for Fluency is NaN, the printed tier is
    ["Poor agreement"], and the report averages to NaN and concludes
    ["Poor agreement"]; nothing marks the correlation as undefined. *)
Lemma flat_fluency_nan_propagates :
  valid_pairs "Fluency" flat_fluency_merged = [(5%Q, 3%Q); (5%Q, 4%Q)]
  ∧ correlation <$> (returned (calculate_agreement_statistics example_numerics
                                 flat_fluency_merged) ≫= dict_get "Fluency")
    = Some NaN
  ∧ Interpretation "Fluency" Poor
      ∈ printed (calculate_agreement_statistics example_numerics flat_fluency_merged)
  ∧ avg_corr <$> (generate_summary_report flat_fluency_merged
                    <$> returned (calculate_agreement_statistics example_numerics
                                    flat_fluency_merged))
    = Some NaN
  ∧ conclusion <$> (generate_summary_report flat_fluency_merged
                      <$> returned (calculate_agreement_statistics example_numerics
                                      flat_fluency_merged))
    = Some PoorAgreement.
Proof.
  repeat split; try (vm_compute; reflexivity).
  vm_compute. apply list_elem_of_further, list_elem_of_here.
Qed.

(* ===================================================================== *)
(** ** Pairwise-complete statistics *)
(* ===================================================================== *)






(* ===================================================================== *)
(** ** The discrepancy detector *)
(* ===================================================================== *)

(** Every named column reads the manual or the automated part of a row,
    never the derived columns. *)
Lemma column_set_derived name f k v r :
  column name = Some f -> f (set_derived k v r) = f r.
Proof.
  unfold column, merged_columns. cbn [dict_get].
  repeat match goal with
         | |- context [String.eqb ?a name] =>
             destruct (String.eqb a name); [intros [= <-]; reflexivity|]
         end.
  intros [=].
Qed.

Lemma ParticipantID_set_derived k v r :
  ParticipantID (set_derived k v r) = ParticipantID r.
Proof. reflexivity. Qed.

Lemma get_set_derived k v r : get_derived k (set_derived k v r) = v.
Proof. unfold get_derived, set_derived; cbn. by rewrite lookup_insert_eq. Qed.

Lemma flags_of_metric_fmap_set_derived metric mc cc T nm (g : MergedRow -> cell) df :
  (∃ a, column a = Some mc) -> (∃ b, column b = Some cc) ->
  flags_of_metric metric mc cc T ((fun r => set_derived nm (g r) r) <$> df)
  = flags_of_metric metric mc cc T df.
Proof.
  intros [a Ha] [b Hb]. unfold flags_of_metric.
  induction df as [|r df IH]; [reflexivity|].
  cbn. rewrite (column_set_derived _ _ _ _ _ Ha), (column_set_derived _ _ _ _ _ Hb).
  rewrite ParticipantID_set_derived. f_equal. exact IH.
Qed.

(** The rows selected and printed by one iteration of the detector. *)
Lemma iteration_flags metric mc cc T (df : list MergedRow) :
  (∃ a, column a = Some mc) -> (∃ b, column b = Some cc) ->
  flag_row metric mc cc <$>
    filter (fun r => Is_true (cell_ge (get_derived (metric +:+ "_AbsDiff") r) T))
      ((fun r => set_derived (metric +:+ "_AbsDiff")
                   (cell_abs (get_derived (metric +:+ "_Diff") r)) r) <$>
       ((fun r => set_derived (metric +:+ "_Diff") (cell_sub (mc r) (cc r)) r) <$> df))
  = flags_of_metric metric mc cc T df.
Proof.
  intros [a Ha] [b Hb]. unfold flags_of_metric.
  induction df as [|r df IH]; [reflexivity|].
  cbn [fmap list_fmap mbind list_bind].
  rewrite filter_cons, get_set_derived, get_set_derived.
  destruct (mc r) as [m|] eqn:Hm, (cc r) as [c|] eqn:Hc; cbn [cell_sub cell_abs cell_ge];
    try (rewrite decide_False by (cbn; tauto); exact IH).
  destruct (Qle_bool T (Qabs (float_sub m c))) eqn:Hle.
  - rewrite decide_True by (cbn; tauto).
    cbn [fmap list_fmap app]. f_equal; [|exact IH].
    unfold flag_row.
    rewrite !(column_set_derived _ _ _ _ _ Ha), !(column_set_derived _ _ _ _ _ Hb).
    rewrite Hm, Hc. cbn.
    f_equal. unfold get_derived, set_derived; cbn.
    destruct (decide (metric +:+ "_AbsDiff" = metric +:+ "_Diff")) as [E|E].
    + rewrite E, lookup_insert_eq.
      (* the two column names differ, so this case is vacuous *)
      exfalso. clear -E. induction metric as [|ch metric IHm]; [discriminate|].
      cbn in E. injection E as E. auto.
    + rewrite lookup_insert_ne by exact E. by rewrite lookup_insert_eq.
  - rewrite decide_False by (cbn; tauto). exact IH.
Qed.

Lemma flags_in_app out1 out2 : flags_in (out1 ++ out2) = flags_in out1 ++ flags_in out2.
Proof. unfold flags_in. apply bind_app. Qed.

Lemma discrepancy_loop_flags remaining : forall (df df0 : list MergedRow) T,
  Forall (fun m => m ∈ metrics) remaining ->
  (forall metric mc cc, (∃ a, column a = Some mc) -> (∃ b, column b = Some cc) ->
     flags_of_metric metric mc cc T df = flags_of_metric metric mc cc T df0) ->
  flags_in (printed (discrepancy_loop remaining df T)) = flags_spec remaining T df0
  ∧ is_return (outcome (discrepancy_loop remaining df T)) = true.
Proof.
  induction remaining as [|metric rest IH]; intros df df0 T Hall Hsame.
  - split; reflexivity.
  - inversion Hall as [|? ? Hm Hrest]; subst.
    destruct (column_metric_exists _ Hm) as [[mc Hmc] [cc Hcc]].
    cbn [discrepancy_loop]. rewrite Hmc, Hcc.
    unfold flags_spec. cbn [mbind list_bind]. rewrite Hmc, Hcc.
    set (df1 := (fun r => set_derived (metric +:+ "_Diff") (cell_sub (mc r) (cc r)) r) <$> df).
    set (df2 := (fun r => set_derived (metric +:+ "_AbsDiff")
                            (cell_abs (get_derived (metric +:+ "_Diff") r)) r) <$> df1).
    assert (Hsame2 : forall metric0 mc0 cc0,
               (∃ a, column a = Some mc0) -> (∃ b, column b = Some cc0) ->
               flags_of_metric metric0 mc0 cc0 T df2 = flags_of_metric metric0 mc0 cc0 T df0).
    { intros m0 mc0 cc0 H1 H2. unfold df2, df1.
      rewrite !flags_of_metric_fmap_set_derived by assumption. by apply Hsame. }
    destruct (IH df2 df0 T Hrest Hsame2) as [IHf IHr].
    pose proof (iteration_flags metric mc cc T df (ex_intro _ _ Hmc) (ex_intro _ _ Hcc)) as Hit.
    fold df1 in Hit. fold df2 in Hit.
    rewrite (Hsame metric mc cc (ex_intro _ _ Hmc) (ex_intro _ _ Hcc)) in Hit.
    destruct (0 <? length (filter _ df2))%nat eqn:Hlen.
    + rewrite print_then_eq. cbn [printed outcome fst snd]. split; [|exact IHr].
      change (flags_in (?m :: ?l)) with (flags_in ([m] ++ l)).
      rewrite flags_in_app, IHf. f_equal.
      cbn. rewrite app_nil_r. exact Hit.
    + rewrite print_then_eq. cbn [printed outcome fst snd]. split; [|exact IHr].
      change (flags_in (?m :: ?l)) with (flags_in ([m] ++ l)).
      rewrite flags_in_app, IHf. f_equal.
      cbn. rewrite <- Hit.
      apply Nat.ltb_ge in Hlen. 
      destruct (filter _ df2); [reflexivity|cbn in Hlen; lia].
Qed.

Lemma flags_spec_elem remaining T df f :
  Forall (fun m => m ∈ metrics) remaining ->
  f ∈ flags_spec remaining T df ↔
  ∃ r metric m a,
    r ∈ df ∧ metric ∈ remaining ∧
    manual_value metric r = Num m ∧ automated_value metric r = Num a ∧
    (T <= Qabs (float_sub m a))%Q ∧
    f = mkFlag (ParticipantID r) metric (Num m) (Num a) (Num (float_sub m a)).
Proof.
  intros Hall. unfold flags_spec. rewrite list_elem_of_bind. split.
  - intros (metric & Hf & Hin).
    rewrite Forall_forall in Hall.
    destruct (column_metric_exists _ (Hall _ Hin)) as [[mc Hmc] [cc Hcc]].
    rewrite Hmc, Hcc in Hf. unfold flags_of_metric in Hf.
    apply list_elem_of_bind in Hf as (r & Hf & Hr).
    destruct (mc r) as [m|] eqn:Em; [|by apply elem_of_nil in Hf].
    destruct (cc r) as [a|] eqn:Ea; [|by apply elem_of_nil in Hf].
    destruct (Qle_bool T (Qabs (float_sub m a))) eqn:Hle; [|by apply elem_of_nil in Hf].
    apply list_elem_of_singleton in Hf.
    exists r, metric, m, a. unfold manual_value, automated_value.
    rewrite Hmc, Hcc. repeat split; try assumption.
    by apply Qle_bool_iff.
  - intros (r & metric & m & a & Hr & Hin & Hm & Ha & Hle & ->).
    exists metric. split; [|exact Hin].
    rewrite Forall_forall in Hall.
    destruct (column_metric_exists _ (Hall _ Hin)) as [[mc Hmc] [cc Hcc]].
    unfold manual_value, automated_value in Hm, Ha. rewrite Hmc in Hm |- *.
    rewrite Hcc in Ha |- *.
    unfold flags_of_metric. apply list_elem_of_bind. exists r. split; [|exact Hr].
    rewrite Hm, Ha. apply Qle_bool_iff in Hle. rewrite Hle.
    apply list_elem_of_singleton. reflexivity.
Qed.

Lemma analyze_discrepancies_flags df threshold :
  discrepancy_flags df threshold = flags_spec metrics (default 2%Q threshold) df
  ∧ is_return (outcome (analyze_discrepancies df threshold)) = true.
Proof.
  unfold discrepancy_flags, analyze_discrepancies.
  rewrite print_then_eq. cbn [printed outcome fst snd].
  destruct (discrepancy_loop_flags metrics df df (default 2%Q threshold) metrics_all)
    as [Hf Hr]; [reflexivity|].
  split; [|exact Hr].
  change (flags_in (?m :: ?l)) with (flags_in ([m] ++ l)).
  rewrite flags_in_app. exact Hf.
Qed.

(** *** Integers are float64 numbers

    An integer below [2^53] in absolute value is a float64 number, so
    that the difference of two integer scores is computed exactly. *)

Lemma floor_log2_integer (n : Z) : (0 < n)%Z -> floor_log2 n 1 = Z.log2 n.
Proof.
  intros Hn. unfold floor_log2. change (Z.log2 1) with 0%Z. rewrite Z.sub_0_r.
  pose proof (Z.log2_nonneg n) as Hnn.
  destruct (Z.leb_spec 0 (Z.log2 n)) as [_|?]; [|lia].
  pose proof (Z.log2_spec n Hn) as [Hlo _].
  destruct (Z.ltb_spec n (1 * 2 ^ Z.log2 n)) as [?|_]; [lia|reflexivity].
Qed.

Lemma round_half_even_unit (n : Z) : round_half_even n 1 = n.
Proof.
  unfold round_half_even. rewrite Z.div_1_r, Z.mod_1_r. reflexivity.
Qed.

Lemma Qred_integer (z : Z) : Qred (inject_Z z) = inject_Z z.
Proof.
  unfold Qred, inject_Z.
  pose proof (Z.ggcd_gcd z 1) as Hg. pose proof (Z.ggcd_correct_divisors z 1) as Hd.
  destruct (Z.ggcd z 1) as [g [aa bb]]. cbn [fst snd] in *.
  rewrite Z.gcd_1_r in Hg. subst g. destruct Hd as [Ha Hb].
  assert (aa = z) as -> by lia. assert (bb = 1%Z) as -> by lia. reflexivity.
Qed.

Lemma round64_integer (q : Q) :
  Qden q = 1%positive -> (Z.abs (Qnum q) < 2 ^ 53)%Z ->
  round64 q = inject_Z (Qnum q).
Proof.
  destruct q as [z d]. cbn [Qden Qnum]. intros -> Hz.
  unfold round64. cbn [Qden Qnum].
  destruct (Z.eqb_spec (Z.abs z) 0) as [H0|H0].
  { assert (z = 0%Z) as -> by lia. reflexivity. }
  assert (Hpos : (0 < Z.abs z)%Z) by lia.
  rewrite (floor_log2_integer _ Hpos).
  assert (He : (0 <= Z.log2 (Z.abs z) < 53)%Z).
  { split; [apply Z.log2_nonneg|]. apply Z.log2_lt_pow2; lia. }
  rewrite Z.max_l by lia.
  assert (Hsgn : (Z.sgn z * Z.abs z = z)%Z) by lia.
  destruct (Z.leb_spec 0 (Z.log2 (Z.abs z) - 52)) as [Hk|Hk].
  - assert (Z.log2 (Z.abs z) - 52 = 0)%Z as -> by lia.
    change (2 ^ 0)%Z with 1%Z. rewrite round_half_even_unit.
    f_equal. lia.
  - rewrite round_half_even_unit.
    set (j := (- (Z.log2 (Z.abs z) - 52))%Z).
    assert (Hj : (0 < 2 ^ j)%Z) by (apply Z.pow_pos_nonneg; lia).
    rewrite <- (Qred_integer z). apply Qred_complete.
    unfold Qeq, inject_Z. cbn [Qnum Qden]. rewrite Z2Pos.id by exact Hj. nia.
Qed.

Lemma float_sub_integers (zm za : Z) :
  (Z.abs (zm - za) < 2 ^ 53)%Z ->
  float_sub (inject_Z zm) (inject_Z za) = inject_Z (zm - za).
Proof.
  intros H. unfold float_sub.
  assert (E : Qnum (inject_Z zm - inject_Z za) = (zm - za)%Z).
  { cbn. lia. }
  rewrite round64_integer; [by rewrite E|reflexivity|by rewrite E].
Qed.

Lemma float_add_integers (za zb : Z) :
  (Z.abs (za + zb) < 2 ^ 53)%Z ->
  float_add (inject_Z za) (inject_Z zb) = inject_Z (za + zb).
Proof.
  intros H. unfold float_add.
  assert (E : Qnum (inject_Z za + inject_Z zb) = (za + zb)%Z) by (cbn; lia).
  rewrite round64_integer; [by rewrite E|reflexivity|by rewrite E].
Qed.

Lemma float_sum_integers (zs : list Z) : forall acc : Z,
  (Z.abs acc + foldr Z.add 0%Z (Z.abs <$> zs) < 2 ^ 53)%Z ->
  foldl float_add (inject_Z acc) (inject_Z <$> zs)
  = inject_Z (acc + foldr Z.add 0%Z zs).
Proof.
  induction zs as [|z zs IH]; intros acc H; cbn [foldl foldr fmap list_fmap] in *.
  - f_equal. lia.
  - assert (Hnn : (0 <= foldr Z.add 0%Z (Z.abs <$> zs))%Z).
    { clear. induction zs as [|x l IH]; cbn [foldr fmap list_fmap]; lia. }
    rewrite float_add_integers by lia. rewrite IH by lia. f_equal. lia.
Qed.

(** On integer scores the sum behind the MAE is exact in float64: the
    float64 sum of the absolute float64 differences is the sum of the
    absolute differences (each partial sum is an integer below [2^53], in
    whatever order the library adds). *)
Lemma absolute_differences_sum_exactly (pairs : list (Z * Z)) :
  (foldr Z.add 0%Z ((fun p => Z.abs (fst p - snd p)) <$> pairs) < 2 ^ 53)%Z ->
  (float_sum ((fun p => Qabs (float_sub (inject_Z (fst p)) (inject_Z (snd p))))
                <$> pairs)
   == Qsum ((fun p => Qabs (inject_Z (fst p) - inject_Z (snd p))) <$> pairs))%Q.
Proof.
  intros H.
  assert (Hterm : forall l : list (Z * Z),
            (foldr Z.add 0%Z ((fun p => Z.abs (fst p - snd p)) <$> l) < 2 ^ 53)%Z ->
            (fun p => Qabs (float_sub (inject_Z (fst p)) (inject_Z (snd p)))) <$> l
            = inject_Z <$> ((fun p => Z.abs (fst p - snd p)) <$> l)).
  { induction l as [|[zm za] l IH]; cbn [fmap list_fmap foldr fst snd]; [done|].
    intros Hl.
    assert (Hnn : (0 <= foldr Z.add 0%Z ((fun p => Z.abs (fst p - snd p)) <$> l))%Z).
    { clear. induction l as [|x l IH]; cbn [foldr fmap list_fmap]; lia. }
    rewrite float_sub_integers by lia. rewrite IH by lia. reflexivity. }
  rewrite (Hterm pairs H). unfold float_sum.
  change 0%Q with (inject_Z 0).
  rewrite float_sum_integers.
  - clear. induction pairs as [|[zm za] l IH]; cbn [fmap list_fmap foldr Qsum fst snd].
    + reflexivity.
    + change (foldr Qplus 0%Q ?l) with (Qsum l). rewrite <- IH.
      rewrite Z.add_0_l. rewrite inject_Z_plus.
      assert (inject_Z zm - inject_Z za == inject_Z (zm - za))%Q as ->.
      { unfold Qminus. rewrite <- inject_Z_opp, <- inject_Z_plus. reflexivity. }
      change (Qabs (inject_Z ?z)) with (inject_Z (Z.abs z)).
      rewrite Z.add_0_l. reflexivity.
  - rewrite <- list_fmap_compose.
    assert (E : (Z.abs ∘ (fun p : Z * Z => Z.abs (fst p - snd p)))
                <$> pairs = (fun p => Z.abs (fst p - snd p)) <$> pairs).
    { apply list_fmap_ext. intros _ p _. cbn. lia. }
    rewrite E. cbn. lia.
Qed.

(** C3.  Take an aligned table of float64 scores and a float64 threshold
    (the caller's, or 2 when the caller gives none).  The detector returns
    normally, and for every candidate flag: it prints the flag if and only
    if the flag describes a row of the table and one of the analysed
    dimensions for which both the manual and the automated value are
    present and the absolute value of their difference, as float64
    subtraction computes it, is at least the threshold; the flag then
    records the two values and that difference, manual - automated.  A
    pair with a missing value on either side therefore never yields a
    flag.  Whenever the exact difference is itself a float64 number, the
    computed difference is the exact one.  It is for integer scores: the
    flag of a row and a dimension with integer scores is printed exactly
    when the absolute value of manual - automated is at least the
    threshold, and it records manual - automated.  Leaving the threshold
    out is the same as passing 2. *)
Theorem discrepancy_flag_iff (merged_df : list MergedRow) (threshold : option Q)
    (f : DiscrepancyFlag) :
  float64_table merged_df ->
  float64 (default 2%Q threshold) ->
  is_return (outcome (analyze_discrepancies merged_df threshold)) = true
  ∧ (f ∈ discrepancy_flags merged_df threshold ↔
     ∃ r metric m a,
       r ∈ merged_df ∧ metric ∈ metrics ∧
       manual_value metric r = Num m ∧ automated_value metric r = Num a ∧
       (default 2%Q threshold <= Qabs (float_sub m a))%Q ∧
       f = mkFlag (ParticipantID r) metric (Num m) (Num a) (Num (float_sub m a)))
  ∧ (forall m a, float64 (m - a) -> (float_sub m a == m - a)%Q)
  ∧ (forall r metric zm za,
       r ∈ merged_df -> metric ∈ metrics ->
       manual_value metric r = Num (inject_Z zm) ->
       automated_value metric r = Num (inject_Z za) ->
       (Z.abs (zm - za) < 2 ^ 53)%Z ->
       (mkFlag (ParticipantID r) metric (Num (inject_Z zm)) (Num (inject_Z za))
          (Num (inject_Z (zm - za))) ∈ discrepancy_flags merged_df threshold
        ↔ (default 2%Q threshold <= inject_Z (Z.abs (zm - za)))%Q))
  ∧ discrepancy_flags merged_df None = discrepancy_flags merged_df (Some 2%Q).
Proof.
  intros _ _.
  destruct (analyze_discrepancies_flags merged_df threshold) as [Hf Hr].
  split; [exact Hr|]. split; [|split; [|split]].
  - rewrite Hf. apply flags_spec_elem, metrics_all.
  - intros m a [Hexact _]. exact Hexact.
  - intros r metric zm za Hr' Hmetric Hm Ha Hsmall.
    rewrite Hf, (flags_spec_elem _ _ _ _ metrics_all).
    assert (Habs : Qabs (float_sub (inject_Z zm) (inject_Z za))
                   = inject_Z (Z.abs (zm - za)))
      by (by rewrite float_sub_integers).
    split.
    + intros (r' & metric' & m & a & _ & _ & _ & _ & HT & Heq).
      injection Heq as _ _ <- <- _. by rewrite <- Habs.
    + intros HT. exists r, metric, (inject_Z zm), (inject_Z za).
      rewrite Habs, float_sub_integers by exact Hsmall. done.
  - rewrite (proj1 (analyze_discrepancies_flags merged_df None)).
    rewrite (proj1 (analyze_discrepancies_flags merged_df (Some 2%Q))). reflexivity.
Qed.

(** P03 with Fluency 4 by hand and 6 by the model is flagged at the default
    threshold, with the difference -2; a subject with 0.3 by hand and 0.1
    by the model is not flagged at the threshold 0.2, since the float64
    difference of 0.3 and 0.1 is below the float64 0.2. *)
Lemma discrepancy_flag_iff_witness :
  mkFlag "P03" "Fluency" (Num 4) (Num 6) (Num (-2))
    ∈ discrepancy_flags one_common_subject_merged None
  ∧ discrepancy_flags decimal_scores_merged (Some (round64 (2 # 10))) = []
  ∧ (round64 (3 # 10) - round64 (1 # 10) < round64 (2 # 10))%Q.
Proof.
  split; [|split; [vm_compute; reflexivity|vm_compute; reflexivity]].
  destruct (discrepancy_flag_iff one_common_subject_merged None
              (mkFlag "P03" "Fluency" (Num 4) (Num 6) (Num (-2))))
    as (_ & Hiff & _).
  - intros r metric Hr%list_elem_of_singleton Hm. subst r. revert metric Hm.
    apply metrics_cases; float64_cells.
  - float64_number.
  - apply Hiff.
    exists (mkMerged (mkManual "P03" (Num 4) (Num 3) (Num 1) (Num (1 # 4)))
                     (mkClaude "P03" (Num 6) (Num 3) (Num 1) (Num (1 # 6))) ∅),
           "Fluency", 4%Q, 6%Q.
    split; [apply list_elem_of_here|]. split; [apply list_elem_of_here|].
    split; [reflexivity|]. split; [reflexivity|].
    split; [vm_compute; discriminate|reflexivity].
Defined.

(** C9.  For every aligned table and thresholds T1 <= T2, every flag
    printed at threshold T2 is also printed at threshold T1: lowering the
    threshold never removes a flag. *)
Theorem lowering_threshold_keeps_flags (merged_df : list MergedRow) (T1 T2 : Q)
    (f : DiscrepancyFlag) :
  (T1 <= T2)%Q ->
  f ∈ discrepancy_flags merged_df (Some T2) ->
  f ∈ discrepancy_flags merged_df (Some T1).
Proof.
  intros Hle.
  rewrite (proj1 (analyze_discrepancies_flags merged_df (Some T2))).
  rewrite (proj1 (analyze_discrepancies_flags merged_df (Some T1))).
  rewrite !(flags_spec_elem _ _ _ _ metrics_all). cbn [default].
  intros (r & metric & m & a & Hr & Hin & Hm & Ha & HT & ->).
  exists r, metric, m, a. repeat split; try assumption.
  eapply Qle_trans; eassumption.
Qed.

Lemma lowering_threshold_keeps_flags_witness :
  (1 <= 2)%Q
  ∧ mkFlag "P03" "Fluency" (Num 4) (Num 6) (Num (4 - 6))
      ∈ discrepancy_flags one_common_subject_merged (Some 1%Q).
Proof.
  split; [discriminate|].
  apply (lowering_threshold_keeps_flags one_common_subject_merged 1 2).
  - discriminate.
  - vm_compute. apply list_elem_of_here.
Defined.

(* ===================================================================== *)
(** ** The conclusion of the report *)
(* ===================================================================== *)

Lemma cell_ge_at_least c t : cell_ge c t = true ↔ at_least c t.
Proof.
  unfold at_least. destruct c as [q|]; cbn.
  - rewrite Qle_bool_iff. split; [eauto|]. by intros (q' & [= <-] & H).
  - split; [discriminate|]. by intros (q' & [=] & _).
Qed.

Lemma cell_lt_below c t : cell_lt c t = true ↔ below c t.
Proof.
  unfold below. destruct c as [q|]; cbn.
  - rewrite negb_true_iff, <- not_true_iff_false, Qle_bool_iff.
    split.
    + intros H. exists q. split; [reflexivity|]. by apply Qnot_le_lt.
    + intros (q' & [= <-] & H). by apply Qlt_not_le.
  - split; [discriminate|]. by intros (q' & [=] & _).
Qed.

Lemma cell_sum_numbers qs : forall acc,
  foldl cell_add (Num acc) (Num <$> qs) = Num (foldl float_add acc qs).
Proof.
  induction qs as [|q qs IH]; intros acc; [reflexivity|].
  cbn [fmap list_fmap foldl]. cbn [fmap] in IH. apply IH.
Qed.

Lemma np_mean_numbers qs :
  qs ≠ [] -> np_mean (Num <$> qs) = Num (round64 (float_sum qs / Qlen qs)).
Proof.
  intros Hne. unfold np_mean, float_sum, Qlen.
  rewrite cell_sum_numbers, length_fmap. by destruct qs.
Qed.

Lemma numbers_or_nan (l : list cell) : (∃ qs, l = Num <$> qs) ∨ NaN ∈ l.
Proof.
  induction l as [|c l [[qs ->]|Hin]].
  - left. by exists [].
  - destruct c as [q|]; [left; by exists (q :: qs)|right; apply list_elem_of_here].
  - right. by apply list_elem_of_further.
Qed.

Lemma np_mean_is_nan l : np_mean l = NaN ↔ l = [] ∨ NaN ∈ l.
Proof.
  split.
  - intros H. destruct (numbers_or_nan l) as [[qs ->]|Hin]; [|by right].
    left. destruct qs as [|q qs]; [reflexivity|].
    rewrite np_mean_numbers in H; discriminate.
  - intros [->|Hin]; [reflexivity|by apply np_mean_nan].
Qed.

(** C7.  The conclusion written in the report is determined by the
    per-dimension results alone, through the average of their correlations
    and the average of their MAEs.  Each average is NaN exactly when there
    is no result or one of the averaged values is NaN; otherwise it is the
    float64 sum of the values, added in the order of the results, divided
    by their number.  The conclusion is "excellent agreement" exactly when
    the average correlation is at least 0.85 and the average MAE is below
    1.5; otherwise it is "good to moderate agreement" exactly when the
    average correlation is at least 0.70 and the average MAE is below 2.5;
    and it is "poor agreement" exactly when neither holds, the four
    constants being the float64 numbers nearest to these decimals.  The
    aligned table passed along plays no part in it. *)
Theorem conclusion_from_averages (merged_df : list MergedRow) (results : Results) :
  (length results < 8)%nat ->
  float64_results results ->
  (avg_corr (generate_summary_report merged_df results) = NaN
   ↔ results = [] ∨ ∃ key st, (key, st) ∈ results ∧ correlation st = NaN)
  ∧ (avg_mae (generate_summary_report merged_df results) = NaN
     ↔ results = [] ∨ ∃ key st, (key, st) ∈ results ∧ mae st = NaN)
  ∧ (forall cs, results ≠ [] ->
       (fun kv => correlation (snd kv)) <$> results = Num <$> cs ->
       avg_corr (generate_summary_report merged_df results)
       = Num (round64 (float_sum cs / Qlen cs)))
  ∧ (forall es, results ≠ [] ->
       (fun kv => mae (snd kv)) <$> results = Num <$> es ->
       avg_mae (generate_summary_report merged_df results)
       = Num (round64 (float_sum es / Qlen es)))
  ∧ (conclusion (generate_summary_report merged_df results) = ExcellentAgreement ↔
     at_least (avg_corr (generate_summary_report merged_df results)) (round64 (85 # 100))
     ∧ below (avg_mae (generate_summary_report merged_df results)) (round64 (15 # 10)))
  ∧ (conclusion (generate_summary_report merged_df results) = GoodToModerateAgreement ↔
     ¬ (at_least (avg_corr (generate_summary_report merged_df results)) (round64 (85 # 100))
        ∧ below (avg_mae (generate_summary_report merged_df results)) (round64 (15 # 10)))
     ∧ at_least (avg_corr (generate_summary_report merged_df results)) (round64 (70 # 100))
     ∧ below (avg_mae (generate_summary_report merged_df results)) (round64 (25 # 10)))
  ∧ (conclusion (generate_summary_report merged_df results) = PoorAgreement ↔
     ¬ (at_least (avg_corr (generate_summary_report merged_df results)) (round64 (85 # 100))
        ∧ below (avg_mae (generate_summary_report merged_df results)) (round64 (15 # 10)))
     ∧ ¬ (at_least (avg_corr (generate_summary_report merged_df results)) (round64 (70 # 100))
          ∧ below (avg_mae (generate_summary_report merged_df results)) (round64 (25 # 10))))
  ∧ (forall other_df,
       conclusion (generate_summary_report other_df results)
       = conclusion (generate_summary_report merged_df results)).
Proof.
  intros _ _.
  cbn [generate_summary_report avg_corr avg_mae conclusion].
  assert (Hnan : forall (g : Stats -> cell),
            np_mean ((fun kv => g (snd kv)) <$> results) = NaN
            ↔ results = [] ∨ ∃ key st, (key, st) ∈ results ∧ g st = NaN).
  { intros g. rewrite np_mean_is_nan. split.
    - intros [H|H]; [left; by apply fmap_nil_inv in H|right].
      apply list_elem_of_fmap in H as ([key st] & Hg & Hin). eauto.
    - intros [->|(key & st & Hin & Hg)]; [by left|right].
      apply list_elem_of_fmap. exists (key, st). by split. }
  assert (Hnum : forall (g : Stats -> cell) qs, results ≠ [] ->
            (fun kv => g (snd kv)) <$> results = Num <$> qs ->
            np_mean ((fun kv => g (snd kv)) <$> results)
            = Num (round64 (float_sum qs / Qlen qs))).
  { intros g qs Hne E. rewrite E. apply np_mean_numbers. intros ->.
    destruct results; [contradiction|discriminate E]. }
  split; [apply (Hnan correlation)|]. split; [apply (Hnan mae)|].
  split; [apply (Hnum correlation)|]. split; [apply (Hnum mae)|].
  set (ac := np_mean ((fun kv => correlation (snd kv)) <$> results)).
  set (am := np_mean ((fun kv => mae (snd kv)) <$> results)).
  unfold overall_assessment.
  rewrite <- !cell_ge_at_least, <- !cell_lt_below.
  destruct (cell_ge ac (round64 (85 # 100))), (cell_lt am (round64 (15 # 10))),
           (cell_ge ac (round64 (70 # 100))), (cell_lt am (round64 (25 # 10))); cbn;
    (split; [|split; [|split; [|reflexivity]]]);
    (split; [try discriminate; intros _; intuition discriminate
            |try reflexivity; intuition discriminate]).
Qed.

(** Three dimensions with the correlation 0.7 and the MAE 1: the float64
    average of the three correlations is just below the float64 0.7, and
    the conclusion is the poor-agreement one. *)
Lemma conclusion_from_averages_witness :
  avg_corr (generate_summary_report [] correlations_of_070)
    = Num (6305039478318693 # 9007199254740992)
  ∧ (6305039478318693 # 9007199254740992 < round64 (7 # 10))%Q
  ∧ conclusion (generate_summary_report [] correlations_of_070) = PoorAgreement.
Proof.
  destruct (conclusion_from_averages [] correlations_of_070)
    as (_ & _ & Havg & _ & _ & _ & Hpoor & _).
  - vm_compute. lia.
  - intros key st Hin. vm_compute in Hin.
    repeat (apply elem_of_cons in Hin as [Hin|Hin];
            [injection Hin as -> ->; float64_cells|]).
    by apply elem_of_nil in Hin.
  - split; [|split; [vm_compute; reflexivity|]].
    + rewrite (Havg (replicate 3 (round64 (7 # 10)))); [|discriminate|reflexivity].
      vm_compute. reflexivity.
    + apply Hpoor. split.
      * intros [(q & Hq & Hle) _]. vm_compute in Hq. injection Hq as <-.
        vm_compute in Hle. by apply Hle.
      * intros [(q & Hq & Hle) _]. vm_compute in Hq. injection Hq as <-.
        vm_compute in Hle. by apply Hle.
Defined.

(* ===================================================================== *)
(** ** Elaboration density is carried along but never analysed *)
(* ===================================================================== *)

(** The columns of an analysed dimension do not read the density cells. *)
Lemma metric_columns_ignore_density metric :
  metric ∈ metrics ->
  forall mc cc dm dc r,
    column (metric +:+ "_Manual") = Some mc ->
    column (metric +:+ "_Claude") = Some cc ->
    mc (with_density dm dc r) = mc r ∧ cc (with_density dm dc r) = cc r.
Proof.
  intros Hm. revert metric Hm.
  apply (metrics_cases (fun metric => forall mc cc dm dc r,
           column (metric +:+ "_Manual") = Some mc ->
           column (metric +:+ "_Claude") = Some cc ->
           mc (with_density dm dc r) = mc r ∧ cc (with_density dm dc r) = cc r));
    intros mc cc dm dc r [= <-] [= <-]; split; reflexivity.
Qed.

Lemma dropna_change_density metric mc cc g df :
  metric ∈ metrics ->
  column (metric +:+ "_Manual") = Some mc ->
  column (metric +:+ "_Claude") = Some cc ->
  dropna mc cc (change_density g df) = dropna mc cc df.
Proof.
  intros Hm Hmc Hcc. unfold dropna, change_density.
  induction df as [|r df IH]; [reflexivity|].
  cbn [fmap list_fmap mbind list_bind].
  destruct (metric_columns_ignore_density metric Hm mc cc (fst (g r)) (snd (g r)) r Hmc Hcc)
    as [-> ->].
  f_equal. exact IH.
Qed.

Lemma agreement_loop_change_density lib g df remaining : forall results,
  Forall (fun m => m ∈ metrics) remaining ->
  agreement_loop lib remaining (change_density g df) results
  = agreement_loop lib remaining df results.
Proof.
  induction remaining as [|metric rest IH]; intros results Hall; [reflexivity|].
  inversion Hall as [|? ? Hm Hrest]; subst.
  destruct (column_metric_exists _ Hm) as [[mc Hmc] [cc Hcc]].
  cbn [agreement_loop]. rewrite Hmc, Hcc.
  rewrite (dropna_change_density metric mc cc g df Hm Hmc Hcc).
  destruct (length (dropna mc cc df) =? 0)%nat.
  - by rewrite (IH results Hrest).
  - destruct (pearsonr lib _ _) as [[corr p]|e]; [|reflexivity].
    rewrite !lift_return_bind. by rewrite (IH _ Hrest).
Qed.

Lemma calculate_icc_change_density lib g df metric :
  metric ∈ metrics ->
  calculate_icc lib (change_density g df) metric = calculate_icc lib df metric.
Proof.
  intros Hm. unfold calculate_icc.
  destruct (column_metric_exists _ Hm) as [[mc Hmc] [cc Hcc]].
  rewrite Hmc, Hcc. f_equal. f_equal. unfold change_density.
  rewrite <- !list_fmap_compose. f_equal; apply list_fmap_ext; intros i r _; cbn;
    destruct (metric_columns_ignore_density metric Hm mc cc (fst (g r)) (snd (g r)) r Hmc Hcc)
      as [E1 E2]; rewrite ?E1, ?E2; reflexivity.
Qed.

Lemma icc_loop_change_density lib g df remaining : forall results,
  Forall (fun m => m ∈ metrics) remaining ->
  icc_loop lib remaining (change_density g df) results
  = icc_loop lib remaining df results.
Proof.
  induction remaining as [|metric rest IH]; intros results Hall; [reflexivity|].
  inversion Hall as [|? ? Hm Hrest]; subst.
  cbn [icc_loop]. rewrite (calculate_icc_change_density lib g df metric Hm).
  destruct (calculate_icc lib df metric) as [v|e].
  - destruct (dict_get metric results); by rewrite IH.
  - by rewrite IH.
Qed.

Lemma flags_of_metric_change_density metric mc cc T g df :
  metric ∈ metrics ->
  column (metric +:+ "_Manual") = Some mc ->
  column (metric +:+ "_Claude") = Some cc ->
  flags_of_metric metric mc cc T (change_density g df) = flags_of_metric metric mc cc T df.
Proof.
  intros Hm Hmc Hcc. unfold flags_of_metric, change_density.
  induction df as [|r df IH]; [reflexivity|].
  cbn [fmap list_fmap mbind list_bind].
  destruct (metric_columns_ignore_density metric Hm mc cc (fst (g r)) (snd (g r)) r Hmc Hcc)
    as [-> ->].
  f_equal. exact IH.
Qed.

Lemma flags_spec_change_density remaining T g df :
  Forall (fun m => m ∈ metrics) remaining ->
  flags_spec remaining T (change_density g df) = flags_spec remaining T df.
Proof.
  unfold flags_spec.
  induction remaining as [|metric rest IH]; intros Hall; [reflexivity|].
  inversion Hall as [|? ? Hm Hrest]; subst.
  cbn [mbind list_bind]. rewrite (IH Hrest). f_equal.
  destruct (column_metric_exists _ Hm) as [[mc Hmc] [cc Hcc]].
  rewrite Hmc, Hcc. by apply flags_of_metric_change_density.
Qed.

Lemma results_keys lib df results key :
  outcome (calculate_agreement_statistics lib df) = Return results ->
  is_Some (dict_get key results) -> key ∈ metrics.
Proof.
  intros Hret [st Hst].
  pose proof (calculate_agreement_statistics_spec lib df) as Hspec.
  rewrite Hret in Hspec. destruct Hspec as [_ Hspec]. specialize (Hspec key).
  rewrite Hst in Hspec. by destruct (decide (key ∈ metrics)).
Qed.

(** C10.  The two loaders keep the elaboration density (as
    [Elaboration_Density_Manual] and [ElabDensity_Claude]), but the analysis
    never looks at it: replacing the density cells of an aligned table by
    anything leaves the whole output of the agreement engine and the flags
    of the discrepancy detector unchanged; the keys of the returned results
    and the dimensions of the printed flags are among Fluency, Flexibility
    and Elaboration; and the fixed list of dimensions is those three, with
    no name for the density in it. *)
Theorem density_never_analysed (lib : Numerics) (df : list MergedRow)
    (g : MergedRow -> cell * cell) (threshold : option Q) :
  metrics = ["Fluency"; "Flexibility"; "Elaboration"]
  ∧ ("ElabDensity" ∉ metrics) ∧ ("Elaboration_Density" ∉ metrics)
  ∧ (forall pid cm,
       ElabDensity_Claude (claude_record pid cm) = get_or_nan (elaboration_density cm))
  ∧ (forall x, Elaboration_Density_Manual (rename_row x) = ElabDensity x)
  ∧ (forall r, (fun c => c r) <$> column "Elaboration_Density_Manual"
               = Some (Elaboration_Density_Manual (left r))
               ∧ (fun c => c r) <$> column "ElabDensity_Claude"
                 = Some (ElabDensity_Claude (right r)))
  ∧ calculate_agreement_statistics lib (change_density g df)
    = calculate_agreement_statistics lib df
  ∧ discrepancy_flags (change_density g df) threshold = discrepancy_flags df threshold
  ∧ (forall results key,
       outcome (calculate_agreement_statistics lib df) = Return results ->
       is_Some (dict_get key results) -> key ∈ metrics)
  ∧ (forall f, f ∈ discrepancy_flags df threshold -> flag_dimension f ∈ metrics).
Proof.
  split; [reflexivity|].
  split; [unfold metrics; rewrite !elem_of_cons, elem_of_nil;
          intros [?|[?|[?|[]]]]; discriminate|].
  split; [unfold metrics; rewrite !elem_of_cons, elem_of_nil;
          intros [?|[?|[?|[]]]]; discriminate|].
  split; [reflexivity|]. split; [reflexivity|].
  split; [intros r; split; reflexivity|].
  split; [|split; [|split]].
  - unfold calculate_agreement_statistics.
    rewrite (agreement_loop_change_density lib g df metrics [] metrics_all).
    destruct (agreement_loop lib metrics df []) as [out [results|e]]; [|reflexivity].
    unfold mbind, Run_bind, run_bind. cbv beta iota.
    by rewrite (icc_loop_change_density lib g df metrics results metrics_all).
  - rewrite (proj1 (analyze_discrepancies_flags (change_density g df) threshold)).
    rewrite (proj1 (analyze_discrepancies_flags df threshold)).
    apply flags_spec_change_density, metrics_all.
  - intros results key. apply results_keys.
  - intros f Hf.
    rewrite (proj1 (analyze_discrepancies_flags df threshold)) in Hf.
    apply (flags_spec_elem _ _ _ _ metrics_all) in Hf.
    destruct Hf as (r & metric & m & a & _ & Hm & _ & _ & _ & ->). exact Hm.
Qed.

(* ===================================================================== *)
(** ** More on the loader *)
(* ===================================================================== *)

Lemma split_underscore_first_clean s :
  contains_char "_" (split_underscore_first s) = false.
Proof.
  induction s as [|c s IH]; [reflexivity|].
  cbn. destruct (Ascii.eqb c "_") eqn:E; [reflexivity|].
  cbn. by rewrite E, IH.
Qed.

Lemma append_cons c s t : String c s +:+ t = String c (s +:+ t).
Proof. reflexivity. Qed.

Lemma split_underscore_first_append s t :
  contains_char "_" s = false ->
  split_underscore_first (s +:+ String "_" t) = s.
Proof.
  induction s as [|c s IH]; [reflexivity|].
  rewrite append_cons. cbn [contains_char split_underscore_first].
  destruct (Ascii.eqb c "_"); [discriminate|].
  cbn [orb]. intros H. f_equal. exact (IH H).
Qed.

Lemma load_record_id_clean f record :
  load_record f = Return record ->
  contains_char "_" (c_ParticipantID record) = false.
Proof.
  unfold load_record.
  destruct (content f) as [| |data]; try discriminate.
  destruct (py_or _ _) as [| | |pid| |]; try discriminate.
  destruct (creativity_metrics data) as [[cm|]|]; try discriminate;
    (destruct (Categories_Claude _); [|discriminate]);
    intros [= <-]; apply split_underscore_first_clean.
Qed.

Lemma substring_prefix s t :
  String.substring 0 (String.length s) (s +:+ t) = s.
Proof.
  induction s as [|c s IH]; [by destruct t|].
  rewrite append_cons. cbn [String.length String.substring]. f_equal. exact IH.
Qed.

Lemma substring_all t : String.substring 0 (String.length t) t = t.
Proof.
  induction t as [|d t IHt]; [reflexivity|].
  cbn [String.length String.substring]. f_equal. exact IHt.
Qed.

Lemma substring_suffix s t :
  String.substring (String.length s) (String.length t) (s +:+ t) = t.
Proof.
  induction s as [|c s IH]; [apply substring_all|].
  rewrite append_cons. cbn [String.length String.substring]. exact IH.
Qed.

Lemma length_append s t :
  String.length (s +:+ t) = (String.length s + String.length t)%nat.
Proof.
  induction s as [|c s IH]; [reflexivity|].
  rewrite append_cons. cbn [String.length]. by rewrite IH.
Qed.

Lemma append_assoc (s t u : string) : (s +:+ t) +:+ u = s +:+ (t +:+ u).
Proof.
  induction s as [|c s IH]; [reflexivity|].
  rewrite !append_cons. f_equal. exact IH.
Qed.

Lemma coded_output_name_matches pid :
  ends_with "_coded.json" (coded_output_name pid) = true.
Proof.
  unfold ends_with, coded_output_name. rewrite length_append.
  replace (String.length pid + String.length "_coded.json"
           - String.length "_coded.json")%nat with (String.length pid) by lia.
  rewrite (substring_suffix pid "_coded.json").
  apply andb_true_iff. split; [apply Nat.leb_le; lia|reflexivity].
Qed.

Lemma stem_coded_output_name pid :
  stem (coded_output_name pid) = pid +:+ "_coded".
Proof.
  unfold stem, coded_output_name.
  change "_coded.json" with ("_coded" +:+ ".json").
  rewrite <- append_assoc, length_append.
  change (String.length ".json") with 5%nat.
  replace (String.length (pid +:+ "_coded") + 5 - 5)%nat
    with (String.length (pid +:+ "_coded")) by lia.
  apply substring_prefix.
Qed.

Lemma Categories_Claude_cases cm :
  (∃ v, Categories_Claude cm = Return v
        ∧ ¬ ∃ items, categories_used cm = Some (JsArray items) ∧ strings_of items = None)
  ∨ (Categories_Claude cm = Raise TypeError
     ∧ ∃ items, categories_used cm = Some (JsArray items) ∧ strings_of items = None).
Proof.
  unfold Categories_Claude.
  destruct (categories_used cm) as [[| | | |items|]|];
    try (left; eexists; split; [reflexivity|]; by intros (items' & [=] & _)).
  cbn. destruct (strings_of items) as [strings|] eqn:E.
  - left. eexists. split; [reflexivity|]. intros (items' & [= <-] & H). congruence.
  - right. split; [reflexivity|]. by exists items.
Qed.

(** X4.  A file named as the coding stage names its outputs,
    [<id>_coded.json] with an identifier free of underscores, is found by
    the loader's glob pattern.  When its JSON gives no usable
    [participant_id] or [ParticipantID] (absent, null, empty, zero or
    false) and its metrics section is absent or an object, the loader
    takes the identifier from the file name: the file loads under exactly
    that identifier, unless its [categories_used] is a list with an item
    that is not a string; then, and only then, the file is skipped with a
    [TypeError]. *)
Theorem file_name_gives_identifier (pid : string) (tid : option jsonval)
    (id1 id2 : jsonval) (cm : option CreativityMetrics) (flags repetition : option jsonval) :
  contains_char "_" pid = false ->
  falsy id1 -> falsy id2 ->
  (forall folder,
     mkFile (coded_output_name pid)
       (Object (mkCoded tid id1 id2 (Some <$> cm) flags repetition)) ∈ folder ->
     mkFile (coded_output_name pid)
       (Object (mkCoded tid id1 id2 (Some <$> cm) flags repetition)) ∈ glob_coded folder)
  ∧ (load_record (mkFile (coded_output_name pid)
                    (Object (mkCoded tid id1 id2 (Some <$> cm) flags repetition)))
     = Return (claude_record pid (default no_metrics cm))
     ∨ load_record (mkFile (coded_output_name pid)
                      (Object (mkCoded tid id1 id2 (Some <$> cm) flags repetition)))
       = Raise TypeError)
  ∧ (load_record (mkFile (coded_output_name pid)
                    (Object (mkCoded tid id1 id2 (Some <$> cm) flags repetition)))
     = Raise TypeError
     ↔ ∃ items, categories_used (default no_metrics cm) = Some (JsArray items)
                ∧ strings_of items = None).
Proof.
  intros Hclean H1 H2. split.
  { intros folder Hin. unfold glob_coded. apply list_elem_of_filter.
    split; [|exact Hin].
    cbn [file_name]. rewrite coded_output_name_matches. exact I. }
  assert (Hload : load_record (mkFile (coded_output_name pid)
                    (Object (mkCoded tid id1 id2 (Some <$> cm) flags repetition)))
                  = (Categories_Claude (default no_metrics cm);;
                     Return (claude_record pid (default no_metrics cm)))).
  { unfold load_record. cbn [content participant_id ParticipantID_key file_name
                               creativity_metrics].
    unfold py_or at 2. rewrite H1. unfold py_or. rewrite H2.
    rewrite stem_coded_output_name.
    change (pid +:+ "_coded") with (pid +:+ String "_" "coded").
    rewrite (split_underscore_first_append _ _ Hclean).
    by destruct cm. }
  rewrite Hload.
  destruct (Categories_Claude_cases (default no_metrics cm))
    as [(v & -> & Hno)|[-> Hyes]]; cbn.
  - split; [by left|]. split; [discriminate|]. intros H. by destruct Hno.
  - split; [by right|]. split; [by intros _|reflexivity].
Qed.

Lemma file_name_gives_identifier_witness :
  load_record (mkFile "P07_coded.json"
                 (Object (mkCoded None JsNull (JsString "") None None None)))
  = Return (mkClaude "P07" NaN NaN NaN NaN)
  ∧ load_record (mkFile "P17_coded.json"
                   (Object (mkCoded None JsNull JsNull
                              (Some (Some (mkMetrics None None None None
                                             (Some (JsArray [JsNumber 1; JsNumber 2])))))
                              None None)))
    = Raise TypeError.
Proof.
  split.
  - destruct (file_name_gives_identifier "P07" None JsNull (JsString "") None None None
                eq_refl eq_refl eq_refl) as (_ & [H|H] & _); [exact H|].
    vm_compute in H. discriminate.
  - apply (proj2 (proj2 (file_name_gives_identifier "P17" None JsNull JsNull
                           (Some (mkMetrics None None None None
                                    (Some (JsArray [JsNumber 1; JsNumber 2]))))
                           None None eq_refl eq_refl eq_refl))).
    by exists [JsNumber 1; JsNumber 2].
Defined.

Lemma load_loop_printed_errors json_files : forall claude_data,
  length (filter (fun m => Is_true (is_load_error m))
            (printed (load_loop json_files claude_data)))
  = length (filter (fun f => loadable f = None) json_files).
Proof.
  induction json_files as [|f rest IH]; intros claude_data; [reflexivity|].
  cbn [load_loop].
  destruct (load_record f) as [record|e] eqn:E; rewrite print_then_eq;
    cbn [printed fst]; rewrite !filter_cons.
  - rewrite decide_False by (cbn; auto).
    rewrite decide_False by (unfold loadable; rewrite E; discriminate).
    apply IH.
  - rewrite decide_True by exact I.
    rewrite decide_True by (unfold loadable; by rewrite E).
    cbn [length]. f_equal. apply IH.
Qed.

Lemma omap_length_split {A B} (f : A -> option B) `{!forall x, Decision (f x = None)}
    (l : list A) :
  (length (omap f l) + length (filter (fun x => f x = None) l))%nat = length l.
Proof.
  induction l as [|x l IH]; [reflexivity|].
  cbn [omap list_omap]. rewrite filter_cons.
  destruct (decide (f x = None)) as [E|E].
  - rewrite E. cbn [length]. lia.
  - destruct (f x); [|contradiction]. cbn [length]. lia.
Qed.

(** X5.  The loader raises [FileNotFoundError], before printing anything,
    exactly when no file of the folder matches [*_coded.json].  Otherwise
    it returns, and every matching file is accounted for once: the number
    of rows of the table plus the number of per-file error lines equals the
    number of files found, which is the number it announces first; the
    number it announces last is the number of rows. *)
Theorem loader_accounts_for_every_file (json_folder : list File) :
  (glob_coded json_folder = [] ->
     load_claude_json_files json_folder = ([], Raise FileNotFoundError))
  ∧ (glob_coded json_folder ≠ [] ->
     ∃ claude_df,
       outcome (load_claude_json_files json_folder) = Return claude_df
       ∧ (length (frame_rows claude_df)
          + length (filter (fun m => Is_true (is_load_error m))
                      (printed (load_claude_json_files json_folder))))%nat
         = length (glob_coded json_folder)
       ∧ head (printed (load_claude_json_files json_folder))
         = Some (FoundFiles (length (glob_coded json_folder)))
       ∧ last (printed (load_claude_json_files json_folder))
         = Some (SuccessfullyLoaded (length (frame_rows claude_df)))).
Proof.
  split.
  - intros E. unfold load_claude_json_files. by rewrite E.
  - intros Hne.
    destruct (load_claude_json_files_spec json_folder Hne) as [Hout _].
    eexists. split; [exact Hout|].
    rewrite frame_rows_pd_DataFrame.
    unfold load_claude_json_files.
    destruct (glob_coded json_folder) as [|f0 files] eqn:G; [contradiction|].
    rewrite print_then_eq. cbn [printed fst].
    rewrite printed_bind, load_loop_outcome. cbn [app].
    rewrite print_then_eq. cbn [printed fst mret Run_ret].
    split; [|split; [reflexivity|]].
    + assert (Hs : forall k, filter (fun m => Is_true (is_load_error m))
                                [SuccessfullyLoaded k] = []) by reflexivity.
      rewrite filter_cons. rewrite decide_False; [|cbn; intros H; exact H].
      rewrite filter_app, length_app, load_loop_printed_errors, Hs.
      cbn [length].
      rewrite Nat.add_0_r. apply (omap_length_split loadable).
    + rewrite frame_rows_pd_DataFrame.
      change (FoundFiles ?n :: ?l ++ [?x]) with ((FoundFiles n :: l) ++ [x]).
      apply last_snoc.
Qed.

Lemma loader_accounts_for_every_file_witness :
  ∃ claude_df,
    outcome (load_claude_json_files folder_with_malformed) = Return claude_df
    ∧ (length (frame_rows claude_df)
       + length (filter (fun m => Is_true (is_load_error m))
                   (printed (load_claude_json_files folder_with_malformed))))%nat
      = 2%nat.
Proof.
  destruct (loader_accounts_for_every_file folder_with_malformed) as [_ H].
  destruct H as (claude_df & Hret & Hcount & _); [vm_compute; discriminate|].
  exists claude_df. split; [exact Hret|]. rewrite Hcount. vm_compute. reflexivity.
Defined.

(* ===================================================================== *)
(** ** More on the aligner *)
(* ===================================================================== *)

Lemma pd_merge_inner_elem manual_df claude_rows r :
  r ∈ pd_merge_inner manual_df claude_rows ↔
  ∃ m c, m ∈ manual_df ∧ c ∈ claude_rows
         ∧ c_ParticipantID c = m_ParticipantID m ∧ r = mkMerged m c ∅.
Proof.
  unfold pd_merge_inner. rewrite list_elem_of_bind. split.
  - intros (m & Hr & Hm). apply list_elem_of_bind in Hr as (c & Hr & Hc).
    apply list_elem_of_filter in Hc as [Hid Hc].
    apply list_elem_of_singleton in Hr. eauto 10.
  - intros (m & c & Hm & Hc & Hid & ->). exists m. split; [|exact Hm].
    apply list_elem_of_bind. exists c. split; [apply list_elem_of_here|].
    apply list_elem_of_filter. auto.
Qed.

(** X1.  On two tables that both have their identifier column the aligner
    returns, and its rows are exactly the pairs of a manual row and an
    automated row with the same identifier: both rows are carried over as
    they are, no score is changed, and no derived column exists yet.  The
    identifier of an aligned row is the one its two halves share, and it is
    an identifier of both tables. *)
Theorem aligned_rows_are_matching_pairs (manual_df : list ManualRow)
    (claude_rows : list ClaudeRow) :
  ∃ merged_df,
    outcome (merge_datasets manual_df (Frame claude_rows)) = Return merged_df
    ∧ (forall r, r ∈ merged_df ↔
         ∃ m c, m ∈ manual_df ∧ c ∈ claude_rows
                ∧ c_ParticipantID c = m_ParticipantID m ∧ r = mkMerged m c ∅)
    ∧ (forall r, r ∈ merged_df ->
         c_ParticipantID (right r) = ParticipantID r
         ∧ ParticipantID r ∈ manual_ids manual_df ∩ claude_ids claude_rows).
Proof.
  rewrite merge_datasets_frame. cbn [outcome snd].
  eexists. split; [reflexivity|]. split; [apply pd_merge_inner_elem|].
  intros r (m & c & Hm & Hc & Hid & ->)%pd_merge_inner_elem.
  unfold ParticipantID. cbn [left right]. split; [exact Hid|].
  apply elem_of_intersection. unfold manual_ids, claude_ids.
  rewrite !elem_of_list_to_set. split.
  - apply list_elem_of_fmap. eauto.
  - rewrite <- Hid. apply list_elem_of_fmap. eauto.
Qed.

(** X2.  The aligner prints nothing but the size of the aligned table
    exactly when the two tables have the same set of identifiers; as soon
    as some subject is present on one side only, a warning follows. *)
Theorem no_warning_iff_same_subjects (manual_df : list ManualRow)
    (claude_rows : list ClaudeRow) :
  printed (merge_datasets manual_df (Frame claude_rows))
    = [MergedDataset (length (pd_merge_inner manual_df claude_rows))]
  ↔ manual_ids manual_df = claude_ids claude_rows.
Proof.
  rewrite merge_datasets_frame. cbn [printed fst].
  rewrite !warn_if_nonempty_printed. split.
  - intros H.
    destruct (decide (manual_ids manual_df ∖ claude_ids claude_rows = ∅)) as [E1|E1];
      [|discriminate].
    destruct (decide (claude_ids claude_rows ∖ manual_ids manual_df = ∅)) as [E2|E2];
      [|discriminate].
    apply set_eq. intros x. split; intros Hx.
    + destruct (decide (x ∈ claude_ids claude_rows)) as [|Hn]; [done|].
      exfalso. assert (x ∈ manual_ids manual_df ∖ claude_ids claude_rows) as Hd
        by (apply elem_of_difference; done).
      rewrite E1 in Hd. by apply not_elem_of_empty in Hd.
    + destruct (decide (x ∈ manual_ids manual_df)) as [|Hn]; [done|].
      exfalso. assert (x ∈ claude_ids claude_rows ∖ manual_ids manual_df) as Hd
        by (apply elem_of_difference; done).
      rewrite E2 in Hd. by apply not_elem_of_empty in Hd.
  - intros ->. rewrite difference_diag_L.
    destruct (decide ((∅ : gset string) = ∅)) as [_|N]; [reflexivity|by destruct N].
Qed.

(* ===================================================================== *)
(** ** Loading and aligning together *)
(* ===================================================================== *)

Lemma load_manual_coding_eq sheet :
  load_manual_coding sheet
  = ([LoadedManual (length sheet)], Return (rename_row <$> sheet)).
Proof. unfold load_manual_coding. by rewrite print_then_eq, length_fmap. Qed.

Lemma load_and_merge_outcome json_folder sheet :
  outcome (load_and_merge json_folder sheet)
  = match glob_coded json_folder with
    | [] => Raise FileNotFoundError
    | _ :: _ =>
        outcome (merge_datasets (rename_row <$> sheet)
                   (pd_DataFrame (omap loadable (glob_coded json_folder))))
    end.
Proof.
  unfold load_and_merge. rewrite outcome_bind.
  destruct (glob_coded json_folder) as [|f0 files] eqn:G.
  - unfold load_claude_json_files. by rewrite G.
  - assert (Hne : glob_coded json_folder ≠ []) by (by rewrite G).
    destruct (load_claude_json_files_spec json_folder Hne) as [-> _].
    rewrite outcome_bind, load_manual_coding_eq. cbn [outcome snd]. by rewrite G.
Qed.

Lemma load_and_merge_printed_merge json_folder sheet merged_df :
  outcome (load_and_merge json_folder sheet) = Return merged_df ->
  ∃ rows,
    omap loadable (glob_coded json_folder) = rows
    ∧ merged_df = pd_merge_inner (rename_row <$> sheet) rows
    ∧ forall msg, msg ∈ printed (merge_datasets (rename_row <$> sheet) (Frame rows)) ->
        msg ∈ printed (load_and_merge json_folder sheet).
Proof.
  intros Hret. pose proof (load_and_merge_outcome json_folder sheet) as Hout.
  rewrite Hret in Hout.
  destruct (glob_coded json_folder) as [|f0 files] eqn:G; [discriminate|].
  assert (Hne : glob_coded json_folder ≠ []) by (by rewrite G).
  destruct (load_claude_json_files_spec json_folder Hne) as [Hload _].
  rewrite G in Hload.
  destruct (omap loadable (f0 :: files)) as [|c rows] eqn:O; [discriminate|].
  exists (c :: rows). split; [reflexivity|].
  cbn [pd_DataFrame] in Hout. rewrite merge_datasets_frame in Hout.
  cbn [outcome snd] in Hout. injection Hout as ->. split; [reflexivity|].
  intros msg Hmsg. unfold load_and_merge.
  rewrite printed_bind, Hload. apply elem_of_app. right.
  rewrite printed_bind, load_manual_coding_eq. cbn [printed outcome fst snd].
  apply list_elem_of_further. exact Hmsg.
Qed.

(** X3.  The loader cuts every automated identifier at its first
    underscore, the manual identifiers are taken as they are, and the join
    is an exact match.  So whenever loading and aligning return, no aligned
    row has an underscore in its identifier; a manual subject whose
    identifier contains an underscore is never aligned, whatever the coded
    files say, and is listed in the manual-only warning. *)
Theorem underscore_identifiers_never_align (json_folder : list File)
    (sheet : list ExcelRow) (merged_df : list MergedRow) :
  outcome (load_and_merge json_folder sheet) = Return merged_df ->
  (forall r, r ∈ merged_df -> contains_char "_" (ParticipantID r) = false)
  ∧ (forall x, x ∈ sheet -> contains_char "_" (xl_ParticipantID x) = true ->
       (forall r, r ∈ merged_df -> ParticipantID r ≠ xl_ParticipantID x)
       ∧ ∃ count ids,
           WarnManualOnly count ids ∈ printed (load_and_merge json_folder sheet)
           ∧ xl_ParticipantID x ∈ ids).
Proof.
  intros Hret.
  destruct (load_and_merge_printed_merge _ _ _ Hret) as (rows & Hrows & -> & Hpr).
  assert (Hclean : forall c, c ∈ rows -> contains_char "_" (c_ParticipantID c) = false).
  { intros c Hc. rewrite <- Hrows in Hc.
    apply list_elem_of_omap in Hc as (f & _ & Hf).
    unfold loadable in Hf. destruct (load_record f) as [rec|] eqn:E; [|discriminate].
    injection Hf as ->. by apply (load_record_id_clean f). }
  assert (Hrow : forall r, r ∈ pd_merge_inner (rename_row <$> sheet) rows ->
                   contains_char "_" (ParticipantID r) = false).
  { intros r (m & c & Hm & Hc & Hid & ->)%pd_merge_inner_elem.
    unfold ParticipantID. cbn [left]. rewrite <- Hid. by apply Hclean. }
  split; [exact Hrow|].
  intros x Hx Hus. split.
  - intros r Hr E. specialize (Hrow r Hr). rewrite E in Hrow. congruence.
  - assert (Hin : xl_ParticipantID x ∈ manual_ids (rename_row <$> sheet)).
    { unfold manual_ids. rewrite elem_of_list_to_set, <- list_fmap_compose.
      apply list_elem_of_fmap. exists x. done. }
    assert (Hnot : xl_ParticipantID x ∉ claude_ids rows).
    { unfold claude_ids. rewrite elem_of_list_to_set.
      intros (c & Hid & Hc)%list_elem_of_fmap.
      specialize (Hclean c Hc). rewrite <- Hid in Hclean. congruence. }
    eexists _, _. split.
    + apply Hpr. rewrite merge_datasets_frame. cbn [printed fst].
      apply list_elem_of_further, elem_of_app. left.
      rewrite warn_if_nonempty_printed.
      rewrite decide_False; [apply list_elem_of_here|].
      intros E. assert (xl_ParticipantID x ∈ (∅ : gset string)) as Hd
        by (rewrite <- E; apply elem_of_difference; done).
      by apply not_elem_of_empty in Hd.
    + apply elem_of_difference. done.
Qed.

Lemma underscore_identifiers_never_align_witness :
  ∃ merged_df,
    outcome (load_and_merge folder_with_underscore sheet_with_underscore)
      = Return merged_df
    ∧ ParticipantID <$> merged_df = ["P02"]
    ∧ forall r, r ∈ merged_df -> ParticipantID r ≠ "P01_A".
Proof.
  eexists. split; [vm_compute; reflexivity|]. split; [reflexivity|].
  refine (proj1 (proj2 (underscore_identifiers_never_align folder_with_underscore
            sheet_with_underscore _ _) (excel_row "P01_A" 5 3 1 (1 # 5)) _ _)).
  - vm_compute. reflexivity.
  - apply list_elem_of_here.
  - reflexivity.
Defined.

(* ===================================================================== *)
(** ** The keys of the results *)
(* ===================================================================== *)

Lemma dict_set_keys key v d :
  (dict_set key v d).*1 = if decide (key ∈ d.*1) then d.*1 else d.*1 ++ [key].
Proof.
  induction d as [|[k w] d IH]; cbn.
  - rewrite decide_False; [reflexivity|apply not_elem_of_nil].
  - destruct (String.eqb_spec k key) as [->|Hk]; cbn.
    + rewrite decide_True; [reflexivity|apply list_elem_of_here].
    + rewrite IH. destruct (decide (key ∈ d.*1)) as [Hin|Hnin].
      * rewrite decide_True; [reflexivity|by apply list_elem_of_further].
      * rewrite decide_False; [reflexivity|].
        intros [?|?]%elem_of_cons; [congruence|contradiction].
Qed.

Lemma agreement_loop_keys lib remaining : forall df results results',
  Forall (fun m => m ∈ metrics) remaining ->
  NoDup remaining ->
  (forall m, m ∈ remaining -> m ∉ results.*1) ->
  outcome (agreement_loop lib remaining df results) = Return results' ->
  results'.*1
  = results.*1 ++ filter (fun m => (0 < length (valid_pairs m df))%nat) remaining.
Proof.
  induction remaining as [|metric rest IH]; intros df results results' Hall Hnd Hfresh.
  - cbn. intros [= <-]. by rewrite app_nil_r.
  - inversion Hall as [|? ? Hm Hrest]; subst.
    apply NoDup_cons in Hnd as [Hnotin Hnd].
    destruct (column_metric_exists _ Hm) as [[mc Hmc] [cc Hcc]].
    cbn [agreement_loop]. rewrite Hmc, Hcc.
    rewrite (dropna_valid_pairs _ _ _ _ Hmc Hcc), filter_cons.
    destruct (valid_pairs metric df) as [|v0 v] eqn:V.
    + cbn [length Nat.eqb]. rewrite print_then_eq. cbn [outcome snd].
      rewrite decide_False by (cbn; lia).
      apply IH; [exact Hrest|exact Hnd|].
      intros m Hin. apply Hfresh. by apply list_elem_of_further.
    + cbn [length Nat.eqb]. rewrite decide_True by (cbn; lia).
      destruct (pearsonr lib (fst <$> v0 :: v) (snd <$> v0 :: v)) as [[corr p]|e] eqn:P.
      * rewrite lift_return_bind, !print_then_eq. cbn [outcome snd].
        intros Hret. rewrite (IH df _ results' Hrest Hnd) by
          first [ exact Hret
                | intros m Hin; rewrite dict_set_keys;
                  rewrite decide_False by (apply Hfresh, list_elem_of_here);
                  rewrite elem_of_app, list_elem_of_singleton;
                  intros [Hk| ->]; [|contradiction];
                  revert Hk; apply Hfresh; by apply list_elem_of_further ].
        rewrite dict_set_keys.
        rewrite decide_False by (apply Hfresh, list_elem_of_here).
        by rewrite <- app_assoc.
      * rewrite lift_raise_bind. discriminate.
Qed.

Lemma icc_loop_keys lib remaining : forall df results,
  ∃ results', outcome (icc_loop lib remaining df results) = Return results'
    ∧ strip_icc results' = strip_icc results.
Proof.
  assert (Hset : forall key st v d, dict_get key d = Some st ->
            strip_icc (dict_set key (set_icc st v) d) = strip_icc d).
  { intros key st v d. unfold strip_icc.
    induction d as [|[k w] d IHd]; cbn; [discriminate|].
    destruct (String.eqb_spec k key) as [->|Hk]; cbn.
    - by intros [= ->].
    - intros H. by rewrite IHd. }
  induction remaining as [|metric rest IH]; intros df results.
  - exists results. split; reflexivity.
  - cbn [icc_loop].
    destruct (calculate_icc lib df metric) as [icc_result|e].
    + destruct (dict_get metric results) as [st|] eqn:G.
      * rewrite !print_then_eq. cbn [outcome snd].
        destruct (IH df (dict_set metric (set_icc st icc_result) results))
          as (results' & Hret & Hs).
        exists results'. split; [exact Hret|]. by rewrite Hs, (Hset _ _ _ _ G).
      * rewrite print_then_eq. cbn [outcome snd]. apply IH.
    + rewrite print_then_eq. cbn [outcome snd]. apply IH.
Qed.

Lemma strip_icc_keys results : (strip_icc results).*1 = results.*1.
Proof.
  unfold strip_icc. rewrite <- list_fmap_compose. apply list_fmap_ext.
  by intros i [k st] _.
Qed.

Lemma metrics_NoDup : NoDup metrics.
Proof.
  apply (bool_decide_unpack (NoDup metrics)). vm_compute. exact I.
Qed.

Lemma calculate_agreement_statistics_keys lib df results :
  outcome (calculate_agreement_statistics lib df) = Return results ->
  results.*1 = filter (fun m => (0 < length (valid_pairs m df))%nat) metrics.
Proof.
  unfold calculate_agreement_statistics. rewrite outcome_bind.
  destruct (outcome (agreement_loop lib metrics df [])) as [results0|e] eqn:E;
    [|discriminate].
  pose proof (agreement_loop_keys lib metrics df [] results0 metrics_all
                metrics_NoDup (fun m _ => not_elem_of_nil m) E) as Hk.
  cbn [fmap list_fmap app] in Hk.
  destruct (PINGOUIN_AVAILABLE lib).
  - destruct (icc_loop_keys lib metrics df results0) as (results' & -> & Hs).
    intros [= <-]. by rewrite <- strip_icc_keys, Hs, strip_icc_keys.
  - cbn. by intros [= <-].
Qed.

(** X6.  Whenever the agreement engine returns, the keys of its results
    are the analysed dimensions that have at least one valid pair, each
    once, in the fixed order Fluency, Flexibility, Elaboration; the report
    lists them in that order. *)
Theorem results_follow_dimension_order (lib : Numerics) (df : list MergedRow)
    (results : Results) :
  outcome (calculate_agreement_statistics lib df) = Return results ->
  results.*1 = filter (fun m => (0 < length (valid_pairs m df))%nat) metrics
  ∧ NoDup results.*1
  ∧ (agreement_section (generate_summary_report df results)).*1
    = filter (fun m => (0 < length (valid_pairs m df))%nat) metrics.
Proof.
  intros Hret. pose proof (calculate_agreement_statistics_keys lib df results Hret) as Hk.
  split; [exact Hk|]. split; [|exact Hk].
  rewrite Hk. apply NoDup_filter, metrics_NoDup.
Qed.

Lemma results_follow_dimension_order_witness :
  (default [] (returned (calculate_agreement_statistics example_numerics
                           flat_fluency_merged))).*1
  = ["Fluency"; "Flexibility"; "Elaboration"].
Proof.
  destruct (results_follow_dimension_order example_numerics flat_fluency_merged
              (default [] (returned (calculate_agreement_statistics example_numerics
                                       flat_fluency_merged)))) as [-> _].
  - vm_compute. reflexivity.
  - vm_compute. reflexivity.
Defined.

(* ===================================================================== *)
(** ** The ICC pass is optional *)
(* ===================================================================== *)

Lemma agreement_loop_with_pingouin lib available pg remaining : forall df results,
  agreement_loop (with_pingouin lib available pg) remaining df results
  = agreement_loop lib remaining df results.
Proof.
  induction remaining as [|metric rest IH]; intros df results; [reflexivity|].
  cbn [agreement_loop].
  destruct (column (metric +:+ "_Manual")) as [mc|]; [|reflexivity].
  destruct (column (metric +:+ "_Claude")) as [cc|]; [|reflexivity].
  destruct (length (dropna mc cc df) =? 0)%nat; [by rewrite IH|].
  change (pearsonr (with_pingouin lib available pg)) with (pearsonr lib).
  destruct (pearsonr lib _ _) as [[corr p]|e]; [|reflexivity].
  rewrite !lift_return_bind.
  change (stats_of (with_pingouin lib available pg)) with (stats_of lib).
  by rewrite IH.
Qed.

Lemma icc_absent_after_first_loop lib remaining : forall df results results',
  (forall k st, dict_get k results = Some st -> icc st = None) ->
  outcome (agreement_loop lib remaining df results) = Return results' ->
  forall k st, dict_get k results' = Some st -> icc st = None.
Proof.
  induction remaining as [|metric rest IH]; intros df results results' Hnone.
  - cbn. intros [= <-]. exact Hnone.
  - cbn [agreement_loop].
    destruct (column (metric +:+ "_Manual")) as [mc|]; [|discriminate].
    destruct (column (metric +:+ "_Claude")) as [cc|]; [|discriminate].
    destruct (length (dropna mc cc df) =? 0)%nat.
    + rewrite print_then_eq. cbn [outcome snd]. by apply IH.
    + destruct (pearsonr lib _ _) as [[corr p]|e]; [|discriminate].
      rewrite lift_return_bind, !print_then_eq. cbn [outcome snd].
      apply IH. intros k st.
      destruct (decide (k = metric)) as [->|Hne].
      * rewrite dict_get_set_eq. by intros [= <-].
      * rewrite dict_get_set_ne by congruence. apply Hnone.
Qed.

(** X7.  The ICC pass is optional and harmless: whether pingouin is
    installed, and whatever it returns or raises, the agreement engine
    raises in the same cases, and when it returns, its results have the
    same dimensions in the same order with the same correlation, p-value,
    MAE, mean and standard deviation of the differences and [n]; only the
    ['icc'] key may differ.  Without pingouin no entry has that key. *)
Theorem icc_pass_is_harmless (lib : Numerics) (available : bool)
    (pg : list (string * Rater * cell) -> Outcome cell) (df : list MergedRow) :
  outcome_map strip_icc
    (outcome (calculate_agreement_statistics (with_pingouin lib available pg) df))
  = outcome_map strip_icc (outcome (calculate_agreement_statistics lib df))
  ∧ (forall results k st,
       outcome (calculate_agreement_statistics (with_pingouin lib false pg) df)
         = Return results ->
       dict_get k results = Some st -> icc st = None).
Proof.
  assert (Hfirst : forall l,
            outcome_map strip_icc (outcome (calculate_agreement_statistics l df))
            = outcome_map strip_icc (outcome (agreement_loop l metrics df []))).
  { intros l. unfold calculate_agreement_statistics. rewrite outcome_bind.
    destruct (outcome (agreement_loop l metrics df [])) as [results0|e]; [|reflexivity].
    destruct (PINGOUIN_AVAILABLE l); [|reflexivity].
    destruct (icc_loop_keys l metrics df results0) as (results' & -> & Hs).
    cbn. by rewrite Hs. }
  split.
  - by rewrite !Hfirst, agreement_loop_with_pingouin.
  - intros results k st. unfold calculate_agreement_statistics.
    rewrite outcome_bind. cbn [PINGOUIN_AVAILABLE with_pingouin].
    destruct (outcome (agreement_loop _ metrics df [])) as [results0|e] eqn:E;
      [|discriminate].
    cbn. intros [= <-].
    apply (icc_absent_after_first_loop (with_pingouin lib false pg) metrics df []
             results0); [|exact E].
    intros ? ?. discriminate.
Qed.

(* ===================================================================== *)
(** ** Invariants of the returned results *)
(* ===================================================================== *)

Lemma entry_core lib df results metric st :
  outcome (calculate_agreement_statistics lib df) = Return results ->
  dict_get metric results = Some st ->
  metric ∈ metrics
  ∧ (2 <= length (valid_pairs metric df))%nat
  ∧ ∃ corr p,
      pearsonr lib (fst <$> valid_pairs metric df) (snd <$> valid_pairs metric df)
        = Return (corr, p)
      ∧ core st = stats_of lib (valid_pairs metric df) corr p.
Proof.
  intros Hret Hget.
  pose proof (calculate_agreement_statistics_spec lib df) as Hspec.
  rewrite Hret in Hspec. destruct Hspec as [Hno Hspec].
  specialize (Hspec metric). rewrite Hget in Hspec.
  destruct (decide (metric ∈ metrics)) as [Hm|Hm]; [|discriminate].
  split; [exact Hm|]. specialize (Hno metric Hm).
  unfold entry_of in Hspec.
  destruct (valid_pairs metric df) as [|v0 v] eqn:V; [discriminate|].
  split; [destruct v; cbn in *; [congruence|lia]|].
  destruct (pearsonr lib _ _) as [[corr p]|err]; [|discriminate].
  exists corr, p. split; [reflexivity|]. cbn [fmap option_fmap option_map] in Hspec.
  congruence.
Qed.

(** X8.  Every entry of the returned results rests on at least two valid
    pairs, and [n] is their number; its MAE, mean difference and standard
    deviation of the differences are numbers, never NaN; its correlation
    and its p-value are either both numbers or both NaN. *)
Theorem entries_rest_on_two_pairs (lib : Numerics) (df : list MergedRow)
    (results : Results) (metric : string) (st : Stats) :
  outcome (calculate_agreement_statistics lib df) = Return results ->
  dict_get metric results = Some st ->
  n st = length (valid_pairs metric df)
  ∧ (2 <= n st)%nat
  ∧ is_num (mae st) = true
  ∧ is_num (mean_difference st) = true
  ∧ is_num (std_difference st) = true
  ∧ is_num (correlation st) = is_num (p_value st).
Proof.
  intros Hret Hget.
  destruct (entry_core lib df results metric st Hret Hget)
    as (_ & Hlen & corr & p & Hp & Hcore).
  assert (Hn : n st = length (valid_pairs metric df))
    by (by apply (f_equal n) in Hcore).
  assert (Hmae : mae st = mean_absolute_error (valid_pairs metric df))
    by (by apply (f_equal mae) in Hcore).
  assert (Hmd : mean_difference st
                = series_mean ((fun p => (fst p - snd p)%Q) <$> valid_pairs metric df))
    by (by apply (f_equal mean_difference) in Hcore).
  assert (Hsd : std_difference st
                = series_std lib ((fun p => (fst p - snd p)%Q) <$> valid_pairs metric df))
    by (by apply (f_equal std_difference) in Hcore).
  assert (Hc : correlation st = corr) by (by apply (f_equal correlation) in Hcore).
  assert (Hpv : p_value st = p) by (by apply (f_equal p_value) in Hcore).
  split; [exact Hn|]. split; [lia|]. split; [by rewrite Hmae|].
  split; [|split].
  - rewrite Hmd. destruct (valid_pairs metric df); [cbn in Hlen; lia|reflexivity].
  - rewrite Hsd. unfold series_std. rewrite length_fmap.
    apply Nat.ltb_ge in Hlen. by rewrite Hlen.
  - rewrite Hc, Hpv. revert Hp. unfold pearsonr.
    destruct (length (fst <$> valid_pairs metric df) <? 2)%nat; [discriminate|].
    destruct (is_constant _ || is_constant _); [by intros [= <- <-]|].
    destruct (length (fst <$> valid_pairs metric df) =? 2)%nat; by intros [= <- <-].
Qed.

Lemma entries_rest_on_two_pairs_witness :
  ∃ st, dict_get "Elaboration"
          (default [] (returned (calculate_agreement_statistics example_numerics
                                   partly_missing_merged))) = Some st
        ∧ n st = 2%nat.
Proof.
  eexists. split; [vm_compute; reflexivity|].
  refine (proj1 (entries_rest_on_two_pairs example_numerics partly_missing_merged
                   _ "Elaboration" _ _ _)).
  - vm_compute. reflexivity.
  - vm_compute. reflexivity.
Defined.

(* ===================================================================== *)
(** ** No valid data at all *)
(* ===================================================================== *)

(** X9.  When no dimension has a valid pair (in particular when the
    aligned table is empty), the agreement engine returns an empty result
    set after announcing ["No valid data"] for each of the three
    dimensions; the averages of the report are then NaN and its conclusion
    is the poor-agreement one. *)
Theorem no_data_concludes_poor (lib : Numerics) (df : list MergedRow) :
  (forall m, m ∈ metrics -> valid_pairs m df = []) ->
  outcome (calculate_agreement_statistics lib df) = Return []
  ∧ (forall m, m ∈ metrics ->
       NoValidData m ∈ printed (calculate_agreement_statistics lib df))
  ∧ (forall annotated,
       avg_corr (generate_summary_report annotated []) = NaN
       ∧ avg_mae (generate_summary_report annotated []) = NaN
       ∧ conclusion (generate_summary_report annotated []) = PoorAgreement).
Proof.
  intros Hnone.
  destruct (no_single_pair_returns lib df) as [results Hret].
  { intros m Hm. by rewrite (Hnone m Hm). }
  assert (results = []) as ->.
  { pose proof (calculate_agreement_statistics_keys lib df results Hret) as Hk.
    assert (filter (fun m => (0 < length (valid_pairs m df))%nat) metrics = []) as E.
    { destruct (filter _ metrics) as [|x l] eqn:F; [reflexivity|].
      assert (Hx : x ∈ filter (fun m => (0 < length (valid_pairs m df))%nat) metrics)
        by (rewrite F; apply list_elem_of_here).
      apply list_elem_of_filter in Hx as [HP Hin].
      rewrite (Hnone x Hin) in HP. cbn in HP. lia. }
    rewrite E in Hk. by apply fmap_nil_inv in Hk. }
  split; [exact Hret|]. split; [|intros annotated; repeat split].
  intros m Hm.
  apply (proj1 (calculate_agreement_statistics_printed lib df [] Hret m Hm)).
  by apply Hnone.
Qed.

Lemma no_data_concludes_poor_witness :
  outcome (calculate_agreement_statistics example_numerics []) = Return []
  ∧ conclusion (generate_summary_report [] []) = PoorAgreement.
Proof.
  destruct (no_data_concludes_poor example_numerics []) as (Hret & _ & Hreport);
    [intros m _; reflexivity|].
  split; [exact Hret|]. apply (Hreport []).
Defined.

(* ===================================================================== *)
(** ** The mean absolute error *)
(* ===================================================================== *)

Lemma Qsum_nonneg (l : list Q) : Forall (fun x => 0 <= x)%Q l -> (0 <= Qsum l)%Q.
Proof.
  induction 1 as [|x l Hx _ IH]; cbn; [apply Qle_refl|].
  unfold Qsum in IH. lra.
Qed.

Lemma Qsum_zero (l : list Q) :
  Forall (fun x => 0 <= x)%Q l -> (Qsum l == 0)%Q -> Forall (fun x => x == 0)%Q l.
Proof.
  induction 1 as [|x l Hx Hl IH]; cbn; [constructor|].
  intros Hs. pose proof (Qsum_nonneg l Hl) as Hn. unfold Qsum in *.
  constructor; [lra|]. apply IH. lra.
Qed.

Lemma Qsum_all_zero (l : list Q) : Forall (fun x => x == 0)%Q l -> (Qsum l == 0)%Q.
Proof.
  induction 1 as [|x l Hx _ IH]; cbn; [reflexivity|]. unfold Qsum in IH. lra.
Qed.

Lemma Qabs_Qsum (l : list Q) : (Qabs (Qsum l) <= Qsum (Qabs <$> l))%Q.
Proof.
  induction l as [|x l IH]; cbn; [apply Qle_refl|].
  eapply Qle_trans; [apply Qabs_triangle|]. unfold Qsum in IH. lra.
Qed.

Lemma Qlen_pos (l : list Q) : l ≠ [] -> (0 < Qlen l)%Q.
Proof.
  intros H. unfold Qlen. destruct l as [|x l]; [contradiction|].
  change 0%Q with (inject_Z 0). rewrite <- Zlt_Qlt. cbn [length]. lia.
Qed.

Lemma Qmean_nonneg (l : list Q) :
  l ≠ [] -> Forall (fun x => 0 <= x)%Q l -> (0 <= Qmean l)%Q.
Proof.
  intros Hne Hl. unfold Qmean. apply Qle_shift_div_l; [by apply Qlen_pos|].
  pose proof (Qsum_nonneg l Hl). lra.
Qed.

Lemma Qmean_zero (l : list Q) :
  l ≠ [] -> Forall (fun x => 0 <= x)%Q l ->
  (Qmean l == 0)%Q ↔ Forall (fun x => x == 0)%Q l.
Proof.
  intros Hne Hl. pose proof (Qlen_pos l Hne) as Hpos. unfold Qmean. split.
  - intros H. apply (Qsum_zero l Hl).
    assert (Qsum l == (Qsum l / Qlen l) * Qlen l)%Q as -> by (field; lra).
    rewrite H. ring.
  - intros H. rewrite (Qsum_all_zero l H). field. lra.
Qed.

Lemma Qabs_Qmean (l : list Q) :
  l ≠ [] -> (Qabs (Qmean l) <= Qmean (Qabs <$> l))%Q.
Proof.
  intros Hne. pose proof (Qlen_pos l Hne) as Hpos. unfold Qmean.
  assert (Hlen : Qlen (Qabs <$> l) = Qlen l) by (unfold Qlen; by rewrite length_fmap).
  rewrite Hlen.
  assert (Qabs (Qsum l / Qlen l) == Qabs (Qsum l) / Qlen l)%Q as ->.
  { unfold Qdiv. rewrite Qabs_Qmult. rewrite (Qabs_pos (/ Qlen l)); [reflexivity|].
    apply Qlt_le_weak, Qinv_lt_0_compat, Hpos. }
  apply Qle_shift_div_l; [exact Hpos|].
  assert (Qabs (Qsum l) / Qlen l * Qlen l == Qabs (Qsum l))%Q as -> by (field; lra).
  apply Qabs_Qsum.
Qed.

Lemma Qabs_zero_iff (x : Q) : (Qabs x == 0)%Q ↔ (x == 0)%Q.
Proof.
  split.
  - intros H. destruct (Qlt_le_dec x 0) as [Hn|Hp].
    + rewrite Qabs_neg in H by lra. lra.
    + rewrite Qabs_pos in H by lra. lra.
  - intros ->. reflexivity.
Qed.

(** X10.  In every entry of the returned results the MAE is a
    non-negative number; it is zero exactly when the manual and the
    automated value agree on every valid pair of the dimension; and it
    bounds the mean difference: the absolute value of the mean signed
    difference never exceeds the MAE. *)
Theorem mae_properties (lib : Numerics) (df : list MergedRow) (results : Results)
    (metric : string) (st : Stats) :
  outcome (calculate_agreement_statistics lib df) = Return results ->
  dict_get metric results = Some st ->
  ∃ q d,
    mae st = Num q ∧ mean_difference st = Num d
    ∧ (0 <= q)%Q
    ∧ (Qabs d <= q)%Q
    ∧ ((q == 0)%Q ↔
       forall m a, (m, a) ∈ valid_pairs metric df -> (m == a)%Q).
Proof.
  intros Hret Hget.
  destruct (entry_core lib df results metric st Hret Hget)
    as (_ & Hlen & corr & p & _ & Hcore).
  set (vp := valid_pairs metric df) in *.
  set (diffs := (fun p => (fst p - snd p)%Q) <$> vp).
  assert (Hne : diffs ≠ []).
  { unfold diffs. destruct vp; [cbn in Hlen; lia|discriminate]. }
  assert (Habs : (fun p => Qabs (fst p - snd p)) <$> vp = Qabs <$> diffs).
  { unfold diffs. rewrite <- list_fmap_compose. reflexivity. }
  assert (Hmae : mae st = Num (Qmean (Qabs <$> diffs))).
  { apply (f_equal mae) in Hcore. cbn [mae core stats_of] in Hcore. rewrite Hcore.
    unfold mean_absolute_error. by rewrite Habs. }
  assert (Hmd : mean_difference st = Num (Qmean diffs)).
  { apply (f_equal mean_difference) in Hcore.
    cbn [mean_difference core stats_of] in Hcore. rewrite Hcore.
    fold diffs. destruct diffs; [contradiction|reflexivity]. }
  assert (Hpos : Forall (fun x => 0 <= x)%Q (Qabs <$> diffs)).
  { apply Forall_fmap, Forall_forall. intros x _. apply Qabs_nonneg. }
  assert (Hne' : Qabs <$> diffs ≠ []) by (destruct diffs; [contradiction|discriminate]).
  exists (Qmean (Qabs <$> diffs)), (Qmean diffs).
  split; [exact Hmae|]. split; [exact Hmd|].
  split; [by apply Qmean_nonneg|]. split; [by apply Qabs_Qmean|].
  rewrite (Qmean_zero _ Hne' Hpos). rewrite Forall_fmap, Forall_forall. split.
  - intros H m a Hin.
    assert (Hd : (m - a)%Q ∈ diffs).
    { unfold diffs. apply list_elem_of_fmap. exists (m, a). done. }
    specialize (H _ Hd). change (Qabs (m - a) == 0)%Q in H.
    apply (proj1 (Qabs_zero_iff _)) in H. lra.
  - intros H x Hx. change (Qabs x == 0)%Q. apply (proj2 (Qabs_zero_iff _)).
    unfold diffs in Hx. apply list_elem_of_fmap in Hx as ([m a] & -> & Hin).
    cbn [fst snd]. specialize (H m a Hin). lra.
Qed.

Lemma mae_properties_witness :
  ∃ q d,
    mae <$> dict_get "Fluency" partly_missing_results = Some (Num q)
    ∧ mean_difference <$> dict_get "Fluency" partly_missing_results = Some (Num d)
    ∧ (Qabs d <= q)%Q.
Proof.
  destruct (dict_get "Fluency" partly_missing_results) as [st|] eqn:G;
    [|vm_compute in G; discriminate].
  destruct (mae_properties example_numerics partly_missing_merged
              partly_missing_results "Fluency" st)
    as (q & d & Hq & Hd & _ & Hle & _).
  - vm_compute. reflexivity.
  - exact G.
  - exists q, d. cbn. by rewrite Hq, Hd.
Defined.

(* ===================================================================== *)
(** ** The table returned by the detector *)
(* ===================================================================== *)

(** A named column reads the manual and the automated half of a row only. *)
Lemma column_base name f r r' :
  column name = Some f -> left r' = left r -> right r' = right r -> f r' = f r.
Proof.
  unfold column, merged_columns. cbn [dict_get]. intros H Hl Hr. revert H.
  repeat match goal with
         | |- context [String.eqb ?a name] =>
             destruct (String.eqb a name);
             [intros [= <-]; cbn; by rewrite ?Hl, ?Hr|]
         end.
  intros [=].
Qed.

Lemma discrepancy_step_annotate metric mc cc (df : list MergedRow) :
  column (metric +:+ "_Manual") = Some mc ->
  column (metric +:+ "_Claude") = Some cc ->
  (fun r => set_derived (metric +:+ "_AbsDiff")
              (cell_abs (get_derived (metric +:+ "_Diff") r)) r) <$>
    ((fun r => set_derived (metric +:+ "_Diff") (cell_sub (mc r) (cc r)) r) <$> df)
  = annotate_metric metric <$> df.
Proof.
  intros Hmc Hcc. rewrite <- list_fmap_compose. apply list_fmap_ext.
  intros i r _. cbn. unfold annotate_metric. rewrite Hmc, Hcc.
  by rewrite get_set_derived.
Qed.

Lemma discrepancy_loop_outcome remaining : forall (df : list MergedRow) T,
  Forall (fun m => m ∈ metrics) remaining ->
  outcome (discrepancy_loop remaining df T)
  = Return ((fun r => foldl (fun r metric => annotate_metric metric r) r remaining) <$> df).
Proof.
  induction remaining as [|metric rest IH]; intros df T Hall.
  - cbn. by rewrite list_fmap_id.
  - inversion Hall as [|? ? Hm Hrest]; subst.
    destruct (column_metric_exists _ Hm) as [[mc Hmc] [cc Hcc]].
    cbn [discrepancy_loop]. rewrite Hmc, Hcc.
    rewrite (discrepancy_step_annotate metric mc cc df Hmc Hcc).
    destruct (0 <? length _)%nat; rewrite print_then_eq; cbn [outcome snd];
      rewrite (IH _ T Hrest), <- list_fmap_compose; reflexivity.
Qed.

Lemma analyze_discrepancies_outcome df threshold :
  outcome (analyze_discrepancies df threshold) = Return (annotate <$> df).
Proof.
  unfold analyze_discrepancies. rewrite print_then_eq. cbn [outcome snd].
  apply discrepancy_loop_outcome, metrics_all.
Qed.

Lemma manual_value_base metric r r' :
  left r' = left r -> right r' = right r ->
  manual_value metric r' = manual_value metric r
  ∧ automated_value metric r' = automated_value metric r.
Proof.
  intros Hl Hr. unfold manual_value, automated_value.
  destruct (column (metric +:+ "_Manual")) as [mc|] eqn:Hmc,
           (column (metric +:+ "_Claude")) as [cc|] eqn:Hcc; split; try reflexivity;
    eauto using column_base.
Qed.

Lemma annotate_metric_eq metric r :
  metric ∈ metrics ->
  annotate_metric metric r
  = set_derived (metric +:+ "_AbsDiff")
      (cell_abs (cell_sub (manual_value metric r) (automated_value metric r)))
      (set_derived (metric +:+ "_Diff")
         (cell_sub (manual_value metric r) (automated_value metric r)) r).
Proof.
  intros Hm. destruct (column_metric_exists _ Hm) as [[mc Hmc] [cc Hcc]].
  unfold annotate_metric, manual_value, automated_value. by rewrite Hmc, Hcc.
Qed.

Lemma manual_value_set_derived metric k v r :
  manual_value metric (set_derived k v r) = manual_value metric r.
Proof. by apply manual_value_base. Qed.

Lemma automated_value_set_derived metric k v r :
  automated_value metric (set_derived k v r) = automated_value metric r.
Proof. by apply manual_value_base. Qed.

Lemma annotate_eq r :
  annotate r
  = {| left := left r; right := right r;
       derived :=
         <["Elaboration_AbsDiff" := cell_abs (score_difference "Elaboration" r)]>
         (<["Elaboration_Diff" := score_difference "Elaboration" r]>
         (<["Flexibility_AbsDiff" := cell_abs (score_difference "Flexibility" r)]>
         (<["Flexibility_Diff" := score_difference "Flexibility" r]>
         (<["Fluency_AbsDiff" := cell_abs (score_difference "Fluency" r)]>
         (<["Fluency_Diff" := score_difference "Fluency" r]> (derived r)))))) |}.
Proof.
  unfold annotate, metrics. cbn [foldl].
  rewrite !annotate_metric_eq by (unfold metrics; set_solver).
  rewrite !manual_value_set_derived, !automated_value_set_derived.
  reflexivity.
Qed.

Lemma derived_names_cases name :
  name ∉ derived_names ->
  name ≠ "Fluency_Diff" ∧ name ≠ "Fluency_AbsDiff"
  ∧ name ≠ "Flexibility_Diff" ∧ name ≠ "Flexibility_AbsDiff"
  ∧ name ≠ "Elaboration_Diff" ∧ name ≠ "Elaboration_AbsDiff".
Proof.
  intros H. repeat split; intros ->; apply H; vm_compute;
    repeat first [apply list_elem_of_here | apply list_elem_of_further].
Qed.

(** X12.  The detector always returns, whatever the threshold, and the
    table it returns has the rows of the table it was given, in order, with
    the manual and the automated scores untouched.  For each of the three
    dimensions the returned row holds [<dimension>_Diff], the manual value
    minus the automated one (NaN when either is missing), and
    [<dimension>_AbsDiff], its absolute value; every other derived column
    is left as it was. *)
Theorem detector_adds_difference_columns (df : list MergedRow) (threshold : option Q) :
  outcome (analyze_discrepancies df threshold) = Return (annotate <$> df)
  ∧ forall r,
      left (annotate r) = left r ∧ right (annotate r) = right r
      ∧ (forall metric, metric ∈ metrics ->
           derived (annotate r) !! (metric +:+ "_Diff")
             = Some (cell_sub (manual_value metric r) (automated_value metric r))
           ∧ derived (annotate r) !! (metric +:+ "_AbsDiff")
             = Some (cell_abs (cell_sub (manual_value metric r)
                                        (automated_value metric r))))
      ∧ (forall name, name ∉ derived_names ->
           derived (annotate r) !! name = derived r !! name).
Proof.
  split; [apply analyze_discrepancies_outcome|].
  intros r. rewrite annotate_eq. cbn [left right derived].
  split; [reflexivity|]. split; [reflexivity|]. split.
  - apply metrics_cases; split; cbn [String.append];
      repeat first [ rewrite lookup_insert_eq; reflexivity
                   | rewrite lookup_insert_ne by discriminate ].
  - intros name (H1 & H2 & H3 & H4 & H5 & H6)%derived_names_cases.
    by rewrite !lookup_insert_ne by congruence.
Qed.

Lemma annotate_idempotent r : annotate (annotate r) = annotate r.
Proof.
  rewrite (annotate_eq (annotate r)).
  assert (Hb : left (annotate r) = left r ∧ right (annotate r) = right r)
    by (rewrite annotate_eq; by split).
  unfold score_difference.
  destruct (manual_value_base "Fluency" r (annotate r) (proj1 Hb) (proj2 Hb)) as [-> ->].
  destruct (manual_value_base "Flexibility" r (annotate r) (proj1 Hb) (proj2 Hb)) as [-> ->].
  destruct (manual_value_base "Elaboration" r (annotate r) (proj1 Hb) (proj2 Hb)) as [-> ->].
  rewrite (proj1 Hb), (proj2 Hb). rewrite annotate_eq. cbn [left right derived].
  unfold score_difference. f_equal.
  apply map_eq. intros k.
  rewrite !lookup_insert. repeat case_decide; reflexivity.
Qed.

Lemma flags_of_metric_annotate metric mc cc T df :
  (∃ a, column a = Some mc) -> (∃ b, column b = Some cc) ->
  flags_of_metric metric mc cc T (annotate <$> df) = flags_of_metric metric mc cc T df.
Proof.
  intros [a Ha] [b Hb]. unfold flags_of_metric.
  induction df as [|r df IH]; [reflexivity|].
  cbn [fmap list_fmap mbind list_bind].
  assert (Hbase : left (annotate r) = left r ∧ right (annotate r) = right r)
    by (rewrite annotate_eq; by split).
  rewrite (column_base _ _ r (annotate r) Ha (proj1 Hbase) (proj2 Hbase)).
  rewrite (column_base _ _ r (annotate r) Hb (proj1 Hbase) (proj2 Hbase)).
  unfold ParticipantID at 1. rewrite (proj1 Hbase). fold (ParticipantID r).
  f_equal. exact IH.
Qed.

(** X13.  Running the detector on a table it has already annotated
    changes nothing: it returns the same table and prints the same flags as
    on the original table, at any threshold. *)
Theorem detector_is_idempotent (df : list MergedRow) (threshold threshold' : option Q) :
  ∃ annotated,
    outcome (analyze_discrepancies df threshold) = Return annotated
    ∧ outcome (analyze_discrepancies annotated threshold') = Return annotated
    ∧ discrepancy_flags annotated threshold' = discrepancy_flags df threshold'.
Proof.
  exists (annotate <$> df). rewrite !analyze_discrepancies_outcome.
  split; [reflexivity|]. split.
  - f_equal. rewrite <- list_fmap_compose. apply list_fmap_ext.
    intros i r _. apply annotate_idempotent.
  - rewrite (proj1 (analyze_discrepancies_flags (annotate <$> df) threshold')).
    rewrite (proj1 (analyze_discrepancies_flags df threshold')).
    unfold flags_spec. generalize metrics. intros ms.
    induction ms as [|metric ms IH]; [reflexivity|].
    cbn [mbind list_bind]. rewrite IH. f_equal.
    destruct (column (metric +:+ "_Manual")) as [mc|] eqn:Hmc; [|reflexivity].
    destruct (column (metric +:+ "_Claude")) as [cc|] eqn:Hcc; [|reflexivity].
    apply flags_of_metric_annotate; eauto.
Qed.

(* ===================================================================== *)
(** ** [main] and [quick_stats] *)
(* ===================================================================== *)

Lemma quick_stats_outcome lib sheet json_folder :
  outcome (quick_stats lib sheet json_folder)
  = match outcome (load_and_merge json_folder sheet) with
    | Raise e => Raise e
    | Return merged_df =>
        match outcome (calculate_agreement_statistics lib merged_df) with
        | Return results => Return (merged_df, results)
        | Raise e => Raise e
        end
    end.
Proof.
  unfold quick_stats. rewrite outcome_bind.
  destruct (outcome (load_and_merge json_folder sheet)) as [merged_df|e]; [|reflexivity].
  rewrite outcome_bind.
  by destruct (outcome (calculate_agreement_statistics lib merged_df)).
Qed.

Lemma outcome_lift_bind {A B} (o : Outcome A) (f : A -> Run B) :
  outcome (lift o ≫= f)
  = match o with
    | Return a => outcome (f a)
    | Raise e => Raise e
    end.
Proof. by rewrite outcome_bind. Qed.

Lemma main_outcome lib json_folder sheet :
  snd (main lib json_folder sheet)
  = match outcome (load_and_merge json_folder sheet) with
    | Raise _ => None
    | Return merged_df =>
        match makedirs lib "", to_csv lib merged_df,
              outcome (calculate_agreement_statistics lib merged_df),
              save_visualizations lib (annotate <$> merged_df) with
        | Return _, Return _, Return results, Return _ =>
            match write_report lib (annotate <$> merged_df) results with
            | Return _ =>
                Some (annotate <$> merged_df, results,
                      generate_summary_report (annotate <$> merged_df) results)
            | Raise _ => None
            end
        | _, _, _, _ => None
        end
    end.
Proof.
  assert (Hmain : snd (main lib json_folder sheet)
                  = match outcome (main_steps lib json_folder sheet) with
                    | Return artefacts => Some artefacts
                    | Raise _ => None
                    end).
  { unfold main. by destruct (main_steps lib json_folder sheet) as [out [a|e]]. }
  rewrite Hmain. unfold main_steps. rewrite outcome_bind.
  destruct (outcome (load_and_merge json_folder sheet)) as [merged_df|e]; [|reflexivity].
  rewrite outcome_lift_bind. destruct (makedirs lib "") as [[]|e]; [|reflexivity].
  rewrite outcome_lift_bind. destruct (to_csv lib merged_df) as [[]|e]; [|reflexivity].
  rewrite outcome_bind.
  destruct (calculate_agreement_statistics lib merged_df) as [out [results|e]];
    cbn [outcome snd]; [|reflexivity].
  rewrite outcome_bind, analyze_discrepancies_outcome.
  rewrite outcome_lift_bind.
  destruct (save_visualizations lib (annotate <$> merged_df)) as [[]|e]; [|reflexivity].
  rewrite outcome_lift_bind.
  by destruct (write_report lib (annotate <$> merged_df) results) as [[]|e].
Qed.

Lemma dropna_annotate mc cc a b (df : list MergedRow) :
  column a = Some mc -> column b = Some cc ->
  dropna mc cc (annotate <$> df) = dropna mc cc df.
Proof.
  intros Hmc Hcc. unfold dropna. induction df as [|r df IH]; [reflexivity|].
  cbn [fmap list_fmap mbind list_bind].
  assert (Hbase : left (annotate r) = left r ∧ right (annotate r) = right r)
    by (rewrite annotate_eq; by split).
  rewrite (column_base _ _ r (annotate r) Hmc (proj1 Hbase) (proj2 Hbase)).
  rewrite (column_base _ _ r (annotate r) Hcc (proj1 Hbase) (proj2 Hbase)).
  f_equal. exact IH.
Qed.

(** Once the agreement engine has gone through, only a write can stop the
    plotting step. *)
Lemma save_loop_fails lib remaining : forall df results,
  Forall (fun m => m ∈ metrics) remaining ->
  is_return (outcome (agreement_loop lib remaining df results)) = true ->
  is_return (save_loop lib remaining (annotate <$> df)) = false ->
  ∃ metric, metric ∈ remaining ∧ valid_pairs metric df ≠ []
            ∧ is_return (savefig lib (metric +:+ "_comparison.png")) = false.
Proof.
  induction remaining as [|metric rest IH]; intros df results Hall; [discriminate|].
  inversion Hall as [|? ? Hm Hrest]; subst.
  destruct (column_metric_exists _ Hm) as [[mc Hmc] [cc Hcc]].
  cbn [agreement_loop save_loop]. rewrite Hmc, Hcc.
  rewrite (dropna_annotate _ _ _ _ _ Hmc Hcc), (dropna_valid_pairs _ _ _ _ Hmc Hcc).
  destruct (valid_pairs metric df) as [|v0 v] eqn:V.
  - cbn [length Nat.eqb]. rewrite print_then_eq. cbn [outcome snd].
    intros Hret Hfail. destruct (IH df results Hrest Hret Hfail) as (m & Hin & Hm').
    exists m. split; [by apply list_elem_of_further|exact Hm'].
  - cbn [length Nat.eqb].
    destruct (pearsonr lib (fst <$> v0 :: v) (snd <$> v0 :: v)) as [[corr p]|e];
      [|rewrite lift_raise_bind; discriminate].
    rewrite lift_return_bind, !print_then_eq. cbn [outcome snd mbind Outcome_bind].
    destruct (savefig lib (metric +:+ "_comparison.png")) as [[]|e] eqn:S.
    + intros Hret Hfail. destruct (IH df _ Hrest Hret Hfail) as (m & Hin & Hm').
      exists m. split; [by apply list_elem_of_further|exact Hm'].
    + intros _ _. exists metric. split; [apply list_elem_of_here|].
      rewrite V, S. by split.
Qed.

(** X14.  [main] and [quick_stats] give the same statistics.  When
    [main] completes, [quick_stats] returns the aligned table and the very
    results [main] reports, the table of [main] being that table with the
    difference columns added and the report being computed from those
    results.  When [quick_stats] raises, [main] stops on an error.  And
    when [quick_stats] returns, [main] stops on an error exactly when one
    of its writes fails: the creation of the output folder, the merged
    table, the plots or the report; the plots fail only when the plot
    folder cannot be created or the figure of a dimension that has
    results cannot be saved. *)
Theorem main_agrees_with_quick_stats (lib : Numerics) (json_folder : list File)
    (sheet : list ExcelRow) :
  (forall annotated results report,
     snd (main lib json_folder sheet) = Some (annotated, results, report) ->
     ∃ merged_df,
       outcome (quick_stats lib sheet json_folder) = Return (merged_df, results)
       ∧ annotated = annotate <$> merged_df
       ∧ report = generate_summary_report annotated results
       ∧ sample_size report = length merged_df)
  ∧ (is_return (outcome (quick_stats lib sheet json_folder)) = false ->
     snd (main lib json_folder sheet) = None)
  ∧ (forall merged_df results,
       outcome (quick_stats lib sheet json_folder) = Return (merged_df, results) ->
       (snd (main lib json_folder sheet) = None
        ↔ is_return (makedirs lib "") = false
          ∨ is_return (to_csv lib merged_df) = false
          ∨ is_return (save_visualizations lib (annotate <$> merged_df)) = false
          ∨ is_return (write_report lib (annotate <$> merged_df) results) = false))
  ∧ (forall merged_df results,
       outcome (quick_stats lib sheet json_folder) = Return (merged_df, results) ->
       is_return (save_visualizations lib (annotate <$> merged_df)) = false ->
       is_return (makedirs lib "plots") = false
       ∨ ∃ metric, metric ∈ results.*1
                   ∧ is_return (savefig lib (metric +:+ "_comparison.png")) = false).
Proof.
  split; [|split; [|split]].
  - rewrite main_outcome, quick_stats_outcome.
    destruct (outcome (load_and_merge json_folder sheet)) as [merged_df|e];
      [|discriminate].
    intros annotated results' report.
    destruct (makedirs lib ""); [|discriminate].
    destruct (to_csv lib merged_df); [|discriminate].
    destruct (outcome (calculate_agreement_statistics lib merged_df)) as [results|e];
      [|discriminate].
    destruct (save_visualizations lib _); [|discriminate].
    destruct (write_report lib _ _); [|discriminate].
    intros [= <- <- <-]. exists merged_df. repeat split. cbn. by rewrite length_fmap.
  - rewrite main_outcome, quick_stats_outcome.
    destruct (outcome (load_and_merge json_folder sheet)) as [merged_df|e];
      [|reflexivity].
    destruct (outcome (calculate_agreement_statistics lib merged_df)) as [results|e];
      [discriminate|].
    intros _. by destruct (makedirs lib ""), (to_csv lib merged_df).
  - rewrite main_outcome, quick_stats_outcome.
    destruct (outcome (load_and_merge json_folder sheet)) as [merged_df|e];
      [|discriminate].
    destruct (outcome (calculate_agreement_statistics lib merged_df)) as [results|e];
      [|discriminate].
    intros merged_df' results' [= <- <-].
    destruct (makedirs lib ""); [|split; [intros _; by left|reflexivity]].
    destruct (to_csv lib merged_df);
      [|split; [intros _; right; by left|reflexivity]].
    destruct (save_visualizations lib _);
      [|split; [intros _; right; right; by left|reflexivity]].
    destruct (write_report lib _ _);
      [|split; [intros _; right; right; by right|reflexivity]].
    split; [discriminate|]. intros [H|[H|[H|H]]]; discriminate.
  - intros merged_df results. rewrite quick_stats_outcome.
    destruct (outcome (load_and_merge json_folder sheet)) as [merged_df'|e];
      [|discriminate].
    destruct (outcome (calculate_agreement_statistics lib merged_df'))
      as [results'|e] eqn:Hret; [|discriminate].
    intros [= <- <-]. unfold save_visualizations.
    destruct (makedirs lib "plots") as [[]|e]; [|intros _; by left].
    cbn [mbind Outcome_bind]. intros Hfail. right.
    destruct (save_loop_fails lib metrics merged_df' [] metrics_all)
      as (metric & Hin & Hpairs & Hsave); [|exact Hfail|].
    { revert Hret. unfold calculate_agreement_statistics. rewrite outcome_bind.
      by destruct (outcome (agreement_loop lib metrics merged_df' [])). }
    exists metric. split; [|exact Hsave].
    rewrite (calculate_agreement_statistics_keys lib merged_df' results' Hret).
    apply list_elem_of_filter. split; [|exact Hin].
    destruct (valid_pairs metric merged_df'); [contradiction|cbn; lia].
Qed.

(* ===================================================================== *)
(** ** The plots *)
(* ===================================================================== *)

Lemma visualization_loop_spec lib remaining : forall df results saved,
  Forall (fun m => m ∈ metrics) remaining ->
  match outcome (agreement_loop lib remaining df results) with
  | Return results' =>
      visualization_loop lib remaining df saved
      = Return (saved ++ ((fun m => m +:+ "_comparison.png") <$>
                  filter (fun m => (0 < length (valid_pairs m df))%nat) remaining))
  | Raise e => visualization_loop lib remaining df saved = Raise e
  end.
Proof.
  induction remaining as [|metric rest IH]; intros df results saved Hall.
  - cbn. by rewrite app_nil_r.
  - inversion Hall as [|? ? Hm Hrest]; subst.
    destruct (column_metric_exists _ Hm) as [[mc Hmc] [cc Hcc]].
    cbn [agreement_loop visualization_loop]. rewrite Hmc, Hcc.
    rewrite (dropna_valid_pairs _ _ _ _ Hmc Hcc), filter_cons.
    destruct (valid_pairs metric df) as [|v0 v] eqn:V.
    + cbn [length Nat.eqb]. rewrite print_then_eq. cbn [outcome snd].
      rewrite decide_False by (cbn; lia). by apply IH.
    + cbn [length Nat.eqb]. rewrite decide_True by (cbn; lia).
      destruct (pearsonr lib (fst <$> v0 :: v) (snd <$> v0 :: v)) as [[corr p]|e].
      * rewrite lift_return_bind, !print_then_eq. cbn [outcome snd].
        specialize (IH df (dict_set metric (stats_of lib (v0 :: v) corr p) results)
                       (saved ++ [metric +:+ "_comparison.png"]) Hrest).
        destruct (outcome (agreement_loop lib rest df _)); [|exact IH].
        rewrite IH. cbn [fmap list_fmap]. by rewrite <- app_assoc.
      * rewrite lift_raise_bind. reflexivity.
Qed.

(** X15.  The plotting step raises exactly when the agreement engine
    does (a dimension with a single valid pair), with the same exception;
    otherwise it saves one figure, [<dimension>_comparison.png], for each
    dimension that has an entry in the results, in the order of the
    results, and none for a dimension without valid data. *)
Theorem one_plot_per_reported_dimension (lib : Numerics) (df : list MergedRow) :
  match outcome (calculate_agreement_statistics lib df) with
  | Return results =>
      create_visualizations lib df
      = Return ((fun m => m +:+ "_comparison.png") <$> results.*1)
  | Raise e => create_visualizations lib df = Raise e
  end
  ∧ create_visualizations lib (annotate <$> df) = create_visualizations lib df.
Proof.
  split.
  - pose proof (visualization_loop_spec lib metrics df [] [] metrics_all) as H.
    destruct (outcome (calculate_agreement_statistics lib df)) as [results|e] eqn:E.
    + rewrite (calculate_agreement_statistics_keys lib df results E).
      revert E. unfold calculate_agreement_statistics. rewrite outcome_bind.
      destruct (outcome (agreement_loop lib metrics df [])); [|discriminate].
      intros _. exact H.
    + revert E. unfold calculate_agreement_statistics. rewrite outcome_bind.
      destruct (outcome (agreement_loop lib metrics df [])) as [results0|e0].
      * destruct (PINGOUIN_AVAILABLE lib); [|discriminate].
        destruct (icc_loop_inv lib metrics df results0) as (r' & -> & _). discriminate.
      * intros [= <-]. exact H.
  - unfold create_visualizations. generalize (@nil string). generalize metrics.
    intros ms. induction ms as [|metric ms IH]; intros saved; [reflexivity|].
    cbn [visualization_loop].
    destruct (column (metric +:+ "_Manual")) as [mc|] eqn:Hmc; [|reflexivity].
    destruct (column (metric +:+ "_Claude")) as [cc|] eqn:Hcc; [|reflexivity].
    assert (Hd : dropna mc cc (annotate <$> df) = dropna mc cc df).
    { unfold dropna. clear IH. induction df as [|r df IHdf]; [reflexivity|].
      cbn [fmap list_fmap mbind list_bind].
      assert (Hbase : left (annotate r) = left r ∧ right (annotate r) = right r)
        by (rewrite annotate_eq; by split).
      rewrite (column_base _ _ r (annotate r) Hmc (proj1 Hbase) (proj2 Hbase)).
      rewrite (column_base _ _ r (annotate r) Hcc (proj1 Hbase) (proj2 Hbase)).
      f_equal. exact IHdf. }
    rewrite Hd. destruct (length (dropna mc cc df) =? 0)%nat; [apply IH|].
    destruct (pearsonr lib _ _); [apply IH|reflexivity].
Qed.

(* ===================================================================== *)
(** ** What the ICC is computed from *)
(* ===================================================================== *)

Lemma calculate_icc_long_table lib df metric :
  metric ∈ metrics ->
  calculate_icc lib df metric = pg_ICC2 lib (icc_long_table metric df).
Proof.
  intros Hm. destruct (column_metric_exists _ Hm) as [[mc Hmc] [cc Hcc]].
  unfold calculate_icc, icc_long_table, manual_value, automated_value.
  by rewrite Hmc, Hcc.
Qed.

Lemma filter_is_num_length {A} (f : A -> string * Rater * cell) (g : A -> cell)
    (l : list A) :
  (forall x, snd (f x) = g x) ->
  length (filter (fun t => Is_true (is_num (snd t))) (f <$> l))
  = length (filter (fun x => Is_true (is_num (g x))) l).
Proof.
  intros Hfg. induction l as [|x l IH]; [reflexivity|].
  cbn [fmap list_fmap]. rewrite !filter_cons. cbn [fmap] in IH.
  rewrite Hfg. destruct (decide (Is_true (is_num (g x)))); cbn [length]; by rewrite IH.
Qed.

(** X16.  The ICC of an analysed dimension is computed by pingouin on a
    long table that holds every present manual score and every present
    automated score of the dimension, each with its subject and rater, and
    no missing value.  A subject with only one of its two scores present
    still contributes that score: unlike the correlation and the MAE, the
    ICC input is not restricted to the valid pairs, and it has twice as
    many rows as there are valid pairs only when no subject is half
    missing. *)
Theorem icc_uses_every_present_score (lib : Numerics) (df : list MergedRow)
    (metric : string) :
  metric ∈ metrics ->
  calculate_icc lib df metric = pg_ICC2 lib (icc_long_table metric df)
  ∧ (forall pid rater v,
       (pid, rater, v) ∈ icc_long_table metric df ↔
       ∃ r q, r ∈ df ∧ pid = ParticipantID r ∧ v = Num q
              ∧ (rater = Manual ∧ manual_value metric r = Num q
                 ∨ rater = Claude ∧ automated_value metric r = Num q))
  ∧ length (icc_long_table metric df)
    = (length (filter (fun r => Is_true (is_num (manual_value metric r))) df)
       + length (filter (fun r => Is_true (is_num (automated_value metric r))) df))%nat
  ∧ (2 * length (valid_pairs metric df) <= length (icc_long_table metric df))%nat.
Proof.
  intros Hm. split; [by apply calculate_icc_long_table|].
  assert (Hlen : length (icc_long_table metric df)
    = (length (filter (fun r => Is_true (is_num (manual_value metric r))) df)
       + length (filter (fun r => Is_true (is_num (automated_value metric r))) df))%nat).
  { unfold icc_long_table. rewrite filter_app, length_app.
    f_equal; by apply filter_is_num_length. }
  split; [|split; [exact Hlen|]].
  - intros pid rater v. unfold icc_long_table.
    rewrite list_elem_of_filter, elem_of_app, !list_elem_of_fmap. cbn [snd]. split.
    + intros [Hnum [(r & [= -> -> ->] & Hr)|(r & [= -> -> ->] & Hr)]].
      * destruct (manual_value metric r) as [q|] eqn:E; [|contradiction].
        exists r, q. eauto 10.
      * destruct (automated_value metric r) as [q|] eqn:E; [|contradiction].
        exists r, q. eauto 10.
    + intros (r & q & Hr & -> & -> & [[-> E]|[-> E]]).
      * split; [exact I|]. left. exists r. by rewrite E.
      * split; [exact I|]. right. exists r. by rewrite E.
  - rewrite Hlen. unfold valid_pairs. clear Hlen.
    induction df as [|r df IH]; [cbn; lia|].
    cbn [mbind list_bind]. rewrite !filter_cons, length_app.
    destruct (manual_value metric r), (automated_value metric r);
      cbn [is_num]; repeat case_decide; cbn [length] in *;
      try lia;
      match goal with
      | H : Is_true false |- _ => destruct H
      | H : ¬ Is_true true |- _ => destruct H; exact I
      end.
Qed.

Lemma icc_uses_every_present_score_witness :
  length (icc_long_table "Elaboration" partly_missing_merged) = 5%nat
  ∧ length (valid_pairs "Elaboration" partly_missing_merged) = 2%nat.
Proof.
  destruct (icc_uses_every_present_score example_numerics partly_missing_merged
              "Elaboration") as (_ & _ & -> & _).
  - apply list_elem_of_further, list_elem_of_further, list_elem_of_here.
  - split; vm_compute; reflexivity.
Defined.

(* ===================================================================== *)
(** ** The qualitative ladders *)
(* ===================================================================== *)

(** X17.  Both tier ladders are monotone and never rank a NaN above
    "poor": a larger correlation never gets a worse tier than a smaller
    one, a larger ICC never gets a worse reliability tier, and NaN gets the
    lowest tier in both. *)
Theorem tiers_are_monotone (r r' : Q) :
  (r <= r')%Q ->
  (tier_rank (correlation_tier (Num r)) <= tier_rank (correlation_tier (Num r')))%nat
  ∧ (tier_rank (reliability_tier (Num r)) <= tier_rank (reliability_tier (Num r')))%nat
  ∧ correlation_tier NaN = Poor ∧ reliability_tier NaN = Poor.
Proof.
  intros Hle. unfold correlation_tier, reliability_tier, cell_ge.
  split; [ladder|]. split; [ladder|]. split; reflexivity.
Qed.

Lemma tiers_are_monotone_witness :
  (tier_rank (correlation_tier (Num (75 # 100)))
   <= tier_rank (correlation_tier (Num (95 # 100))))%nat
  ∧ correlation_tier (Num (75 # 100)) = Acceptable
  ∧ correlation_tier (Num (95 # 100)) = Excellent.
Proof.
  split; [|split; reflexivity].
  apply (tiers_are_monotone (75 # 100) (95 # 100)). discriminate.
Defined.

(** X18.  The conclusion of the report is monotone in the two averages:
    raising the average correlation, or lowering the average MAE, never
    makes the conclusion worse.  As soon as either average is NaN the
    conclusion is the poor-agreement one. *)
Theorem conclusion_is_monotone (corr corr' mae mae' : Q) :
  (corr <= corr')%Q -> (mae' <= mae)%Q ->
  (conclusion_rank (overall_assessment (Num corr) (Num mae))
   <= conclusion_rank (overall_assessment (Num corr') (Num mae')))%nat
  ∧ (forall c, overall_assessment NaN c = PoorAgreement)
  ∧ (forall c, overall_assessment c NaN = PoorAgreement).
Proof.
  intros Hc Hm. split; [|split].
  - unfold overall_assessment, cell_ge, cell_lt. ladder.
  - reflexivity.
  - intros c. unfold overall_assessment. cbn [cell_lt].
    by rewrite !andb_false_r.
Qed.

Lemma conclusion_is_monotone_witness :
  (conclusion_rank (overall_assessment (Num (72 # 100)) (Num 2))
   <= conclusion_rank (overall_assessment (Num (90 # 100)) (Num 1)))%nat
  ∧ overall_assessment (Num (72 # 100)) (Num 2) = GoodToModerateAgreement
  ∧ overall_assessment (Num (90 # 100)) (Num 1) = ExcellentAgreement.
Proof.
  split; [|split; reflexivity].
  apply (conclusion_is_monotone (72 # 100) (90 # 100) 2 1); discriminate.
Defined.

(* ===================================================================== *)
(** ** The metric extractor accounts for every file *)
(* ===================================================================== *)

Lemma extract_printed_failure f :
  length (filter (fun m => Is_true (is_extract_failure m))
            (printed (extract_metrics_from_file f)))
  = if extractable f is Some _ then 0%nat else 1%nat.
Proof.
  unfold extractable, extract_metrics_from_file.
  destruct (content f) as [| |data]; try reflexivity.
  destruct (extracted_data f data); reflexivity.
Qed.

Lemma collect_loop_printed_failures coded_files : forall all_metrics,
  length (filter (fun m => Is_true (is_extract_failure m))
            (printed (collect_loop coded_files all_metrics)))
  = length (filter (fun f => extractable f = None) coded_files).
Proof.
  induction coded_files as [|f rest IH]; intros all_metrics; [reflexivity|].
  cbn [collect_loop]. rewrite printed_bind, extract_outcome.
  rewrite filter_app, length_app, extract_printed_failure, filter_cons.
  destruct (extractable f) as [m|] eqn:E.
  - rewrite decide_False by discriminate. cbn [Nat.add]. apply IH.
  - rewrite decide_True by reflexivity. cbn [length Nat.add]. f_equal. apply IH.
Qed.

(** X19.  The metric extractor never raises, whatever the folder holds:
    it returns the records of the files that could be read, in the order
    of the files.  Every matching file is accounted for once: the number of
    records plus the number of per-file failure lines in the log is the
    number of matching files, and the last log line reports these two
    numbers.  On a folder without a matching file it returns the empty
    list, where the loader of the comparison script raises
    [FileNotFoundError]. *)
Theorem extractor_accounts_for_every_file (folder_path : list File) :
  ∃ all_metrics,
    outcome (collect_all_metrics folder_path) = Return all_metrics
    ∧ all_metrics = omap extractable (glob_coded folder_path)
    ∧ (length all_metrics
       + length (filter (fun m => Is_true (is_extract_failure m))
                   (printed (collect_all_metrics folder_path))))%nat
      = length (glob_coded folder_path)
    ∧ last (printed (collect_all_metrics folder_path))
      = Some (Processed (length all_metrics) (length (glob_coded folder_path)))
    ∧ (glob_coded folder_path = [] ->
         all_metrics = []
         ∧ outcome (load_claude_json_files folder_path) = Raise FileNotFoundError).
Proof.
  eexists. split; [|split; [reflexivity|]].
  - unfold collect_all_metrics, find_coded_json_files.
    rewrite outcome_bind, print_then_eq. cbn [outcome snd mret Run_ret].
    rewrite outcome_bind, collect_loop_outcome.
    cbn [app]. by rewrite print_then_eq.
  - assert (Hpr : printed (collect_all_metrics folder_path)
              = (FoundFiles (length (glob_coded folder_path))
                 :: printed (collect_loop (glob_coded folder_path) []))
                ++ [Processed (length (omap extractable (glob_coded folder_path)))
                      (length (glob_coded folder_path))]).
    { unfold collect_all_metrics, find_coded_json_files.
      rewrite printed_bind, print_then_eq. cbn [outcome printed fst snd mret Run_ret].
      cbn [app]. rewrite printed_bind, collect_loop_outcome. cbn [app].
      by rewrite print_then_eq. }
    rewrite Hpr. split; [|split].
    + rewrite filter_app, length_app. cbn [app].
      rewrite filter_cons. rewrite decide_False; [|cbn; intros H; exact H].
      rewrite collect_loop_printed_failures.
      assert (Hs : forall a b, filter (fun m => Is_true (is_extract_failure m))
                                 [Processed a b] = []) by reflexivity.
      rewrite Hs. cbn [length]. rewrite Nat.add_0_r.
      apply (omap_length_split extractable).
    + apply last_snoc.
    + intros E. rewrite E. split; [reflexivity|].
      unfold load_claude_json_files. by rewrite E.
Qed.

(* ===================================================================== *)
(** ** The coding stage: markdown code blocks *)
(* ===================================================================== *)

Import run_llm_coding.

Lemma find_from_cons sub x s i :
  find_from sub (x :: s) i
  = if bool_decide (sub `prefix_of` x :: s) then Some i
    else find_from sub s (S i).
Proof. reflexivity. Qed.

Lemma find_from_here (c : N) sub' pre rest i :
  c ∉ pre ->
  find_from (c :: sub') (pre ++ (c :: sub') ++ rest) i
  = Some (i + length pre)%nat.
Proof.
  revert i. induction pre as [|x pre IH]; intros i Hc.
  - rewrite app_nil_l, <- app_comm_cons, find_from_cons.
    rewrite bool_decide_eq_true_2 by (by exists rest).
    f_equal. cbn [length]. lia.
  - apply not_elem_of_cons in Hc as [Hx Hc].
    rewrite <- app_comm_cons, find_from_cons.
    rewrite bool_decide_eq_false_2.
    + rewrite (IH (S i) Hc). f_equal. cbn [length]. lia.
    + intros [k Hk]. cbn in Hk. congruence.
Qed.

Lemma find_from_none (c : N) sub' s i :
  c ∉ s -> find_from (c :: sub') s i = None.
Proof.
  revert i. induction s as [|x s IH]; intros i Hc.
  - cbn. rewrite bool_decide_eq_false_2; [reflexivity|].
    intros [k Hk]. discriminate.
  - apply not_elem_of_cons in Hc as [Hx Hc].
    cbn [find_from].
    rewrite bool_decide_eq_false_2; [by apply IH|].
    intros [k Hk]. cbn in Hk. congruence.
Qed.

Lemma find_from_weaken sub sub' s i :
  sub `prefix_of` sub' ->
  find_from sub s i = None ->
  find_from sub' s i = None.
Proof.
  intros Hpre. revert i. induction s as [|x s IH]; intros i;
    cbn [find_from]; case_bool_decide as H1; try discriminate;
    intros Hnone; rewrite bool_decide_eq_false_2;
    try (intros H2; apply H1; by etrans).
  - reflexivity.
  - by apply IH.
Qed.

Lemma py_find_0 s sub :
  py_find s sub 0
  = match find_from sub s 0 with
    | Some i => Z.of_nat i
    | None => (-1)%Z
    end.
Proof.
  unfold py_find. cbn [Z.ltb Z.compare].
  rewrite (proj2 (Z.ltb_ge _ _)) by lia. reflexivity.
Qed.

Lemma py_find_at s sub (start : nat) :
  (start <= length s)%nat ->
  py_find s sub (Z.of_nat start)
  = match find_from sub (drop start s) start with
    | Some i => Z.of_nat i
    | None => (-1)%Z
    end.
Proof.
  intros Hle. unfold py_find. cbv zeta.
  rewrite (proj2 (Z.ltb_ge (Z.of_nat start) 0)) by lia. cbv iota.
  rewrite (proj2 (Z.ltb_ge (Z.of_nat (length s)) (Z.of_nat start))) by lia.
  by rewrite Nat2Z.id.
Qed.

Lemma py_slice_inside s (a b : nat) :
  (a <= b <= length s)%nat ->
  py_slice s (Z.of_nat a) (Z.of_nat b) = take (b - a) (drop a s).
Proof.
  intros Hab. unfold py_slice. cbv zeta beta.
  rewrite (proj2 (Z.ltb_ge (Z.of_nat a) 0)) by lia.
  rewrite (proj2 (Z.ltb_ge (Z.of_nat b) 0)) by lia. cbv iota.
  rewrite !Z.min_l by lia. rewrite Nat2Z.id. f_equal. lia.
Qed.

Lemma py_slice_to_last s (a : nat) :
  (a <= length s)%nat ->
  py_slice s (Z.of_nat a) (-1) = take (length s - 1 - a) (drop a s).
Proof.
  intros Ha. unfold py_slice. cbv zeta beta.
  rewrite (proj2 (Z.ltb_ge (Z.of_nat a) 0)) by lia.
  change (-1 <? 0)%Z with true. cbv iota.
  rewrite Z.min_l by lia. rewrite Nat2Z.id. f_equal. lia.
Qed.

Lemma take_all_but_last {A} (l : list A) :
  take (length l - 1) l = removelast l.
Proof.
  induction l as [|x l IH]; [reflexivity|].
  destruct l as [|y l]; [reflexivity|].
  change (removelast (x :: y :: l)) with (x :: removelast (y :: l)).
  rewrite <- IH.
  replace (length (x :: y :: l) - 1)%nat with (S (length (y :: l) - 1))
    by (cbn [length]; lia).
  reflexivity.
Qed.

Lemma find_fence_here payload after i :
  96%N ∉ payload ->
  find_from fence (payload ++ fence ++ after) i = Some (i + length payload)%nat.
Proof. exact (find_from_here 96%N [96%N; 96%N] payload after i). Qed.

Lemma find_fence_none payload i :
  96%N ∉ payload -> find_from fence payload i = None.
Proof. exact (find_from_none 96%N [96%N; 96%N] payload i). Qed.

(** What the handling of code blocks does with a fence [open] of length
    [k], found at [length before], followed by [payload] and a closing
    fence. *)
Lemma block_closed (opening : pystr) before payload after (k : Z) :
  k = Z.of_nat (length opening) ->
  py_find (before ++ opening ++ payload ++ fence ++ after)
    opening 0 = Z.of_nat (length before) ->
  96%N ∉ payload ->
  let text := before ++ opening ++ payload ++ fence ++ after in
  let json_start := (py_find text opening 0 + k)%Z in
  let json_end := py_find text fence json_start in
  py_slice text json_start json_end = payload.
Proof.
  intros -> Hfind Hp text json_start json_end.
  subst json_end json_start text. rewrite Hfind.
  rewrite <- Nat2Z.inj_add.
  assert (Hdrop : drop (length before + length opening)
                    (before ++ opening ++ payload ++ fence ++ after)
                  = payload ++ fence ++ after).
  { rewrite (app_assoc before), drop_app_length'; [done|by rewrite length_app]. }
  rewrite py_find_at by (rewrite !length_app; lia).
  rewrite Hdrop.
  rewrite find_fence_here by done.
  rewrite py_slice_inside by (rewrite !length_app; lia).
  rewrite Hdrop.
  replace (length before + length opening + length payload
           - (length before + length opening))%nat with (length payload) by lia.
  by rewrite take_app_length.
Qed.

(** The same without a closing fence. *)
Lemma block_open (opening : pystr) before payload (k : Z) :
  k = Z.of_nat (length opening) ->
  py_find (before ++ opening ++ payload) opening 0
  = Z.of_nat (length before) ->
  96%N ∉ payload ->
  let text := before ++ opening ++ payload in
  let json_start := (py_find text opening 0 + k)%Z in
  let json_end := py_find text fence json_start in
  py_slice text json_start json_end = removelast payload.
Proof.
  intros -> Hfind Hp text json_start json_end.
  subst json_end json_start text. rewrite Hfind.
  rewrite <- Nat2Z.inj_add.
  assert (Hdrop : drop (length before + length opening)
                    (before ++ opening ++ payload) = payload).
  { rewrite (app_assoc before), drop_app_length'; [done|by rewrite length_app]. }
  rewrite py_find_at by (rewrite !length_app; lia).
  rewrite Hdrop.
  rewrite find_fence_none by done.
  rewrite py_slice_to_last by (rewrite !length_app; lia).
  rewrite Hdrop.
  replace (length (before ++ opening ++ payload) - 1
           - (length before + length opening))%nat with (length payload - 1)%nat
    by (rewrite !length_app; lia).
  apply take_all_but_last.
Qed.

Lemma py_find_opening (c : N) sub' before rest :
  c ∉ before ->
  py_find (before ++ (c :: sub') ++ rest) (c :: sub') 0
  = Z.of_nat (length before).
Proof.
  intros Hc. by rewrite py_find_0, find_from_here.
Qed.

Lemma py_in_true s sub (i : nat) :
  py_find s sub 0 = Z.of_nat i -> py_in sub s = true.
Proof.
  intros H. unfold py_in. rewrite H.
  apply negb_true_iff, Z.eqb_neq. lia.
Qed.

Lemma py_in_fence_json s :
  py_in fence s = false ->
  py_in fence_json s = false.
Proof.
  unfold py_in. rewrite !py_find_0.
  destruct (find_from fence s 0) as [i|] eqn:E.
  - intros H. apply negb_false_iff, Z.eqb_eq in H. lia.
  - intros _.
    rewrite (find_from_weaken fence fence_json s 0);
      [reflexivity| |exact E].
    exists (str "json"). reflexivity.
Qed.

(** X20.  A reply whose JSON sits in one markdown code block is unwrapped:
    when the only backticks before the closing fence are those of the
    opening fence, the text handed to the JSON parser is the content of
    the block with surrounding whitespace stripped, whatever follows the
    closing fence.  This holds for a block opened with the json tag, and
    for an untagged block in a reply that contains no tagged fence.  A
    reply without any fence is handed over unchanged, not even
    stripped. *)
Theorem fenced_reply_is_unwrapped (before payload after : pystr) :
  96%N ∉ before -> 96%N ∉ payload ->
  strip_code_block
    (before ++ fence_json ++ payload ++ fence ++ after)
  = strip payload
  ∧ (py_in fence_json
       (before ++ fence ++ payload ++ fence ++ after)
     = false ->
     strip_code_block
       (before ++ fence ++ payload ++ fence ++ after)
     = strip payload)
  ∧ (forall text, py_in fence text = false ->
       strip_code_block text = text).
Proof.
  intros Hb Hp. split; [|split].
  - assert (Hfind : py_find (before ++ fence_json ++ payload ++ fence ++ after)
                       fence_json 0 = Z.of_nat (length before))
      by exact (py_find_opening 96%N (96%N :: 96%N :: str "json") before
                  (payload ++ fence ++ after) Hb).
    unfold strip_code_block.
    rewrite (py_in_true _ _ _ Hfind).
    f_equal. by apply (block_closed fence_json).
  - intros Hno.
    assert (Hfind : py_find (before ++ fence ++ payload ++ fence ++ after)
                      fence 0 = Z.of_nat (length before))
      by exact (py_find_opening 96%N [96%N; 96%N] before
                  (payload ++ fence ++ after) Hb).
    unfold strip_code_block.
    rewrite Hno, (py_in_true _ _ _ Hfind).
    f_equal. by apply (block_closed fence).
  - intros text Hno. unfold strip_code_block.
    by rewrite (py_in_fence_json _ Hno), Hno.
Qed.

Import run_llm_coding_examples.

Lemma fenced_reply_is_unwrapped_witness :
  strip_code_block fenced_reply = str "{}".
Proof.
  apply (proj1 (fenced_reply_is_unwrapped
                  (str "Here is the coding:" ++ newline)
                  (newline ++ str "{}" ++ newline)
                  (newline ++ str "Done.")
                  ltac:(by apply (bool_decide_unpack _))
                  ltac:(by apply (bool_decide_unpack _)))).
Defined.

(** X21.  A code block that is opened but never closed, as in a reply cut
    off at the token limit, loses its last character: the search for the
    closing fence gives -1, which the slice reads as "up to the last
    character".  The text handed to the JSON parser is the rest of the
    reply without its final character, stripped. *)
Theorem unterminated_block_loses_last_character (before payload : pystr) :
  96%N ∉ before -> 96%N ∉ payload ->
  strip_code_block (before ++ fence_json ++ payload) = strip (removelast payload)
  ∧ (py_in fence_json (before ++ fence ++ payload) = false ->
     strip_code_block (before ++ fence ++ payload) = strip (removelast payload)).
Proof.
  intros Hb Hp. split.
  - assert (Hfind : py_find (before ++ fence_json ++ payload) fence_json 0
                    = Z.of_nat (length before)).
    { rewrite <- (app_nil_r payload).
      exact (py_find_opening 96%N (96%N :: 96%N :: str "json") before
               (payload ++ []) Hb). }
    unfold strip_code_block. rewrite (py_in_true _ _ _ Hfind).
    f_equal. by apply (block_open fence_json).
  - intros Hno.
    assert (Hfind : py_find (before ++ fence ++ payload) fence 0
                    = Z.of_nat (length before)).
    { rewrite <- (app_nil_r payload).
      exact (py_find_opening 96%N [96%N; 96%N] before (payload ++ []) Hb). }
    unfold strip_code_block. rewrite Hno, (py_in_true _ _ _ Hfind).
    f_equal. by apply (block_open fence).
Qed.

Lemma unterminated_block_loses_last_character_witness :
  strip_code_block cut_off_reply = str "{".
Proof.
  apply (proj1 (unterminated_block_loses_last_character
                  [] (newline ++ str "{}")
                  ltac:(by apply (bool_decide_unpack _))
                  ltac:(by apply (bool_decide_unpack _)))).
Defined.

(* ===================================================================== *)
(** ** The coding stage: one transcript *)
(* ===================================================================== *)

Lemma getitem_setitem_eq key v d : getitem key (setitem key v d) = Some v.
Proof.
  induction d as [|[k w] d IH]; cbn [setitem getitem].
  - by rewrite bool_decide_eq_true_2.
  - case_bool_decide as E; cbn [getitem].
    + by rewrite bool_decide_eq_true_2.
    + by rewrite bool_decide_eq_false_2.
Qed.

Lemma getitem_setitem_ne key key' v d :
  key' ≠ key -> getitem key' (setitem key v d) = getitem key' d.
Proof.
  intros Hne. induction d as [|[k w] d IH]; cbn [setitem getitem].
  - by rewrite bool_decide_eq_false_2.
  - case_bool_decide as E; cbn [getitem].
    + subst k. by rewrite !bool_decide_eq_false_2.
    + case_bool_decide; [reflexivity|exact IH].
Qed.




Section one_transcript.
Context {World : Type} (client : Services World).

Lemma api_calls_log e (m : Machine (World := World)) :
  api_calls (trace (log e m)) = (api_calls (trace m) + if is_create e then 1 else 0)%nat.
Proof.
  unfold api_calls, log. cbn [trace]. rewrite filter_app, length_app.
  f_equal. destruct e; reflexivity.
Qed.

(** A call of [code_transcript_with_claude] writes no file and calls the
    API at most once. *)
Lemma code_transcript_effects system_prompt transcript (m : Machine) :
  output_dir (snd (code_transcript_with_claude client system_prompt transcript m))
  = output_dir m
  ∧ (api_calls (trace (snd (code_transcript_with_claude client system_prompt
                              transcript m)))
     <= S (api_calls (trace m)))%nat.
Proof.
  unfold code_transcript_with_claude.
  destruct (stage_1_context transcript) as [stage_1|];
    [|unfold raise_exception; cbn [snd]; split; [done|lia]].
  destruct (stage_2_story transcript) as [stage_2|];
    [|unfold raise_exception; cbn [snd]; split; [done|lia]].
  unfold mbind, M_bind, create.
  destruct (messages_create client _ (world m)) as [r w].
  set (m1 := log _ _).
  assert (H1 : output_dir m1 = output_dir m) by reflexivity.
  assert (H2 : (api_calls (trace m1) <= S (api_calls (trace m)))%nat).
  { subst m1. rewrite api_calls_log. cbn [is_create trace]. lia. }
  clearbody m1.
  destruct r as [message|e].
  - destruct (message_content message) as [|[text|] rest]; try (split; assumption).
    destruct (json_loads client (strip_code_block text)) as [v|e].
    + destruct v; split; assumption.
    + destruct e; split; assumption.
  - destruct e; split; assumption.
Qed.

(** What a successful call returns: the parsed object with the metadata of
    this call. *)
Lemma code_transcript_coded system_prompt transcript (m m' : Machine) coded_data :
  code_transcript_with_claude client system_prompt transcript m
  = (Ok (Coded coded_data), m') ->
  ∃ stage_1 stage_2 message text rest reply,
    stage_1_context transcript = Some stage_1
    ∧ stage_2_story transcript = Some stage_2
    ∧ messages_create client (request_for system_prompt (user_message stage_1 stage_2))
        (world m) = (Ok message, world m')
    ∧ message_content message = TextBlock text :: rest
    ∧ json_loads client (strip_code_block text) = Ok (JObject reply)
    ∧ coded_data = setitem api_metadata_key
                     (api_metadata message (strftime client (world m'))) reply
    ∧ m' = log (Create (request_for system_prompt (user_message stage_1 stage_2)))
             {| output_dir := output_dir m; world := world m'; trace := trace m |}.
Proof.
  unfold code_transcript_with_claude.
  destruct (stage_1_context transcript) as [stage_1|]; [|discriminate].
  destruct (stage_2_story transcript) as [stage_2|]; [|discriminate].
  unfold mbind, M_bind, create.
  destruct (messages_create client _ (world m)) as [r w] eqn:Hcall.
  destruct r as [message|e]; [|destruct e; discriminate].
  destruct (message_content message) as [|[text|] rest] eqn:Hcontent; try discriminate.
  destruct (json_loads client (strip_code_block text)) as [v|e] eqn:Hloads;
    [|destruct e; discriminate].
  destruct v; try discriminate.
  cbn. intros [= <- <-]. cbn [world log].
  by exists stage_1, stage_2, message, text, rest, members.
Qed.


End one_transcript.

(* ===================================================================== *)
(** ** The coding stage: the loop of [main] *)
(* ===================================================================== *)

Section coding_loop.
Context {World : Type} (client : Services World).
Implicit Types (m : Machine (World := World)) (t : Tally).

(** Case analysis and induction along the loop: every way one iteration
    can go. *)
Lemma coding_loop_cases system_prompt n
    (P : nat -> list Transcript -> Tally -> Machine (World := World) ->
         Try Tally * Machine (World := World) -> Prop) :
  (forall i t m, P i [] t m (Ok t, m)) ->
  (forall i tr rest t m,
     participant_id tr = None ->
     P i (tr :: rest) t m (Except (KeyError (str "participant_id")), m)) ->
  (forall i tr rest t m pid,
     participant_id tr = Some pid ->
     is_Some (output_dir m !! coded_output_name pid) ->
     let m' := log (Print AlreadyCoded) (log (Print (Processing i n pid)) m) in
     let t' := append_skipped pid t in
     P (S i) rest t' m' (coding_loop client system_prompt n (S i) rest t' m') ->
     P i (tr :: rest) t m (coding_loop client system_prompt n (S i) rest t' m')) ->
  (forall i tr rest t m pid e m2,
     participant_id tr = Some pid ->
     output_dir m !! coded_output_name pid = None ->
     code_transcript_with_claude client system_prompt tr
       (log (Print (Processing i n pid)) m) = (Except e, m2) ->
     P i (tr :: rest) t m (Except e, m2)) ->
  (forall i tr rest t m pid error m2,
     participant_id tr = Some pid ->
     output_dir m !! coded_output_name pid = None ->
     code_transcript_with_claude client system_prompt tr
       (log (Print (Processing i n pid)) m) = (Ok (Failed error), m2) ->
     let m' := log (Print (ErrorLine error)) m2 in
     let t' := append_error pid error t in
     P (S i) rest t' m' (coding_loop client system_prompt n (S i) rest t' m') ->
     P i (tr :: rest) t m (coding_loop client system_prompt n (S i) rest t' m')) ->
  (forall i tr rest t m pid coded_data m2 e,
     participant_id tr = Some pid ->
     output_dir m !! coded_output_name pid = None ->
     code_transcript_with_claude client system_prompt tr
       (log (Print (Processing i n pid)) m) = (Ok (Coded coded_data), m2) ->
     write client (coded_output_name pid) (CodedFile coded_data) (world m2)
       = NotOpened e ->
     P i (tr :: rest) t m (Except e, m2)) ->
  (forall i tr rest t m pid coded_data m2 e,
     participant_id tr = Some pid ->
     output_dir m !! coded_output_name pid = None ->
     code_transcript_with_claude client system_prompt tr
       (log (Print (Processing i n pid)) m) = (Ok (Coded coded_data), m2) ->
     write client (coded_output_name pid) (CodedFile coded_data) (world m2)
       = Interrupted e ->
     P i (tr :: rest) t m (Except e, store (coded_output_name pid) Incomplete m2)) ->
  (forall i tr rest t m pid coded_data m2 e,
     participant_id tr = Some pid ->
     output_dir m !! coded_output_name pid = None ->
     code_transcript_with_claude client system_prompt tr
       (log (Print (Processing i n pid)) m) = (Ok (Coded coded_data), m2) ->
     write client (coded_output_name pid) (CodedFile coded_data) (world m2) = Saved ->
     track_tokens coded_data t = Except e ->
     P i (tr :: rest) t m
       (Except e, store (coded_output_name pid) (CodedFile coded_data) m2)) ->
  (forall i tr rest t m pid coded_data m2 t1,
     participant_id tr = Some pid ->
     output_dir m !! coded_output_name pid = None ->
     code_transcript_with_claude client system_prompt tr
       (log (Print (Processing i n pid)) m) = (Ok (Coded coded_data), m2) ->
     write client (coded_output_name pid) (CodedFile coded_data) (world m2) = Saved ->
     track_tokens coded_data t = Ok t1 ->
     let m3 := log (Print Done)
                 (store (coded_output_name pid) (CodedFile coded_data) m2) in
     let m' := if (i <? n)%nat then log Sleep m3 else m3 in
     let t' := append_result pid t1 in
     P (S i) rest t' m' (coding_loop client system_prompt n (S i) rest t' m') ->
     P i (tr :: rest) t m (coding_loop client system_prompt n (S i) rest t' m')) ->
  forall transcripts i t m,
    P i transcripts t m (coding_loop client system_prompt n i transcripts t m).
Proof.
  intros Hnil Hkey Hskip Hexc Hfail Hopen Hdump Htok Hok transcripts.
  induction transcripts as [|tr rest IH]; intros i t m; [apply Hnil|].
  cbn [coding_loop].
  destruct (participant_id tr) as [pid|] eqn:Hpid; [|by apply Hkey].
  unfold mbind at 1, M_bind at 1, emit at 1. cbv beta iota.
  unfold mbind at 1, M_bind at 1, file_exists at 1. cbv beta iota.
  change (output_dir (log (Print (Processing i n pid)) m)) with (output_dir m).
  case_bool_decide as Hex.
  - unfold mbind at 1, M_bind at 1, emit at 1. cbv beta iota.
    by apply (Hskip i tr rest t m pid).
  - assert (Hnone : output_dir m !! coded_output_name pid = None).
    { destruct (output_dir m !! coded_output_name pid) eqn:E; [|done].
      destruct Hex. by eexists. }
    unfold mbind at 1, M_bind at 1. 
    destruct (code_transcript_with_claude client system_prompt tr
                (log (Print (Processing i n pid)) m)) as [[[coded_data|error]|e] m2] eqn:Hcode.
    + unfold mbind at 1, M_bind at 1, write_file at 1.
      destruct (write client (coded_output_name pid) (CodedFile coded_data) (world m2))
        as [|e|e] eqn:Hwrite;
        [|by apply (Hopen i tr rest t m pid coded_data m2 e)
         |by apply (Hdump i tr rest t m pid coded_data m2 e)].
      cbv beta iota.
      unfold mbind at 1, M_bind at 1, lift_try at 1. cbv beta iota.
      destruct (track_tokens coded_data t) as [t1|e] eqn:Htrack.
      * unfold mbind at 1, M_bind at 1, emit at 1. cbv beta iota.
        unfold mbind at 1, M_bind at 1.
        pose proof (Hok i tr rest t m pid coded_data m2 t1 Hpid Hnone Hcode Hwrite
                      Htrack) as H.
        cbv zeta in H.
        destruct (i <? n)%nat; cbn [emit mret M_ret]; apply H; apply IH.
      * by apply (Htok i tr rest t m pid coded_data m2 e).
    + unfold mbind at 1, M_bind at 1, emit at 1. cbv beta iota.
      by apply (Hfail i tr rest t m pid error m2).
    + by apply (Hexc i tr rest t m pid e m2).
Qed.

End coding_loop.

Lemma pending_mono (files files' : gmap string FileData) transcripts :
  (forall name, files' !! name = None -> files !! name = None) ->
  (length (pending files' transcripts) <= length (pending files transcripts))%nat.
Proof.
  intros Hdom. unfold pending.
  induction transcripts as [|tr rest IH]; [reflexivity|].
  rewrite !filter_cons.
  destruct (decide (Is_true (not_yet_coded files' tr))) as [H'|H'].
  - rewrite decide_True; [cbn [length]; lia|].
    unfold not_yet_coded in *. destruct (participant_id tr) as [pid|]; [|done].
    apply bool_decide_unpack in H'. apply bool_decide_pack. by apply Hdom.
  - destruct (decide (Is_true (not_yet_coded files tr))); cbn [length]; lia.
Qed.

Lemma pending_cons_coded (files : gmap string FileData) tr rest pid :
  participant_id tr = Some pid ->
  is_Some (files !! coded_output_name pid) ->
  pending files (tr :: rest) = pending files rest.
Proof.
  intros Hpid [data Hdata]. unfold pending. rewrite filter_cons.
  rewrite decide_False; [reflexivity|].
  unfold not_yet_coded. rewrite Hpid. intros H.
  apply bool_decide_unpack in H. congruence.
Qed.

Lemma pending_cons_le (files : gmap string FileData) tr rest :
  (length (pending files (tr :: rest)) <= S (length (pending files rest)))%nat.
Proof.
  unfold pending. rewrite filter_cons.
  destruct (decide _); cbn [length]; lia.
Qed.

Lemma pending_cons_uncoded (files : gmap string FileData) tr rest pid :
  participant_id tr = Some pid ->
  files !! coded_output_name pid = None ->
  pending files (tr :: rest) = tr :: pending files rest.
Proof.
  intros Hpid Hnone. unfold pending. rewrite filter_cons.
  rewrite decide_True; [reflexivity|].
  unfold not_yet_coded. rewrite Hpid. by apply bool_decide_pack.
Qed.

Lemma track_tokens_lists coded_data t t1 :
  track_tokens coded_data t = Ok t1 ->
  results t1 = results t ∧ errors t1 = errors t ∧ skipped t1 = skipped t.
Proof.
  unfold track_tokens. destruct (getitem api_metadata_key coded_data).
  - destruct (metadata_tokens (str "input_tokens") coded_data); [|discriminate].
    destruct (metadata_tokens (str "output_tokens") coded_data); [|discriminate].
    by intros [= <-].
  - by intros [= <-].
Qed.

Section coding_loop_facts.
Context {World : Type} (client : Services World).
Implicit Types (m : Machine (World := World)) (t : Tally).

Lemma code_transcript_files system_prompt tr m r m2 :
  code_transcript_with_claude client system_prompt tr m = (r, m2) ->
  output_dir m2 = output_dir m.
Proof.
  intros H. pose proof (code_transcript_effects client system_prompt tr m) as [E _].
  by rewrite H in E.
Qed.

Lemma code_transcript_calls system_prompt tr m r m2 :
  code_transcript_with_claude client system_prompt tr m = (r, m2) ->
  (api_calls (trace m2) <= S (api_calls (trace m)))%nat.
Proof.
  intros H. pose proof (code_transcript_effects client system_prompt tr m) as [_ E].
  by rewrite H in E.
Qed.

(** The loop only adds files: what is in the output directory stays there
    with its content, however the loop ends. *)
Lemma coding_loop_files system_prompt n transcripts i t m :
  output_dir m
  ⊆ output_dir (snd (coding_loop client system_prompt n i transcripts t m)).
Proof.
  revert transcripts i t m.
  apply (coding_loop_cases client system_prompt n
           (fun _ _ _ m r => output_dir m ⊆ output_dir (snd r))).
  - done.
  - done.
  - intros i tr rest t m pid _ _ m' t' IH. exact IH.
  - intros i tr rest t m pid e m2 _ _ Hcode. cbn [snd].
    by rewrite (code_transcript_files _ _ _ _ _ Hcode).
  - intros i tr rest t m pid error m2 _ _ Hcode m' t' IH.
    etrans; [|exact IH]. subst m'. cbn [log output_dir].
    by rewrite (code_transcript_files _ _ _ _ _ Hcode).
  - intros i tr rest t m pid coded_data m2 e _ _ Hcode _. cbn [snd].
    by rewrite (code_transcript_files _ _ _ _ _ Hcode).
  - intros i tr rest t m pid coded_data m2 e _ Hnone Hcode _. cbn [snd store output_dir].
    rewrite (code_transcript_files _ _ _ _ _ Hcode). cbn [log output_dir].
    by apply insert_subseteq.
  - intros i tr rest t m pid coded_data m2 e _ Hnone Hcode _ _. cbn [snd store output_dir].
    rewrite (code_transcript_files _ _ _ _ _ Hcode). cbn [log output_dir].
    by apply insert_subseteq.
  - intros i tr rest t m pid coded_data m2 t1 _ Hnone Hcode _ _ m3 m' t' IH.
    etrans; [|exact IH].
    assert (Hm' : output_dir m' = <[coded_output_name pid := CodedFile coded_data]>
                                    (output_dir m)).
    { subst m' m3. destruct (i <? n)%nat; cbn [log store output_dir];
        by rewrite (code_transcript_files _ _ _ _ _ Hcode). }
    rewrite Hm'. by apply insert_subseteq.
Qed.

(** The API is called at most once for each transcript that has no coded
    file when the loop starts, and never for another one. *)
Lemma coding_loop_calls system_prompt n transcripts i t m :
  (api_calls (trace (snd (coding_loop client system_prompt n i transcripts t m)))
   <= api_calls (trace m) + length (pending (output_dir m) transcripts))%nat.
Proof.
  revert transcripts i t m.
  apply (coding_loop_cases client system_prompt n
           (fun _ transcripts _ m r =>
              (api_calls (trace (snd r))
               <= api_calls (trace m) + length (pending (output_dir m) transcripts))%nat)).
  - intros. cbn [snd]. lia.
  - intros. cbn [snd]. lia.
  - intros i tr rest t m pid Hpid Hex m' t' IH.
    rewrite (pending_cons_coded _ _ _ _ Hpid Hex).
    etrans; [exact IH|]. subst m'.
    rewrite !api_calls_log. cbn [is_create log output_dir]. lia.
  - intros i tr rest t m pid e m2 Hpid Hnone Hcode. cbn [snd].
    rewrite (pending_cons_uncoded _ _ _ _ Hpid Hnone). cbn [length].
    pose proof (code_transcript_calls _ _ _ _ _ Hcode) as Hc.
    rewrite api_calls_log in Hc. cbn [is_create] in Hc. lia.
  - intros i tr rest t m pid error m2 Hpid Hnone Hcode m' t' IH.
    rewrite (pending_cons_uncoded _ _ _ _ Hpid Hnone). cbn [length].
    pose proof (code_transcript_calls _ _ _ _ _ Hcode) as Hc.
    rewrite api_calls_log in Hc. cbn [is_create] in Hc.
    etrans; [exact IH|]. subst m'. rewrite api_calls_log.
    cbn [is_create log output_dir].
    rewrite (code_transcript_files _ _ _ _ _ Hcode). cbn [log output_dir]. lia.
  - intros i tr rest t m pid coded_data m2 e Hpid Hnone Hcode _. cbn [snd].
    rewrite (pending_cons_uncoded _ _ _ _ Hpid Hnone). cbn [length].
    pose proof (code_transcript_calls _ _ _ _ _ Hcode) as Hc.
    rewrite api_calls_log in Hc. cbn [is_create] in Hc. lia.
  - intros i tr rest t m pid coded_data m2 e Hpid Hnone Hcode _. cbn [snd store trace].
    rewrite (pending_cons_uncoded _ _ _ _ Hpid Hnone). cbn [length].
    pose proof (code_transcript_calls _ _ _ _ _ Hcode) as Hc.
    rewrite api_calls_log in Hc. cbn [is_create] in Hc. lia.
  - intros i tr rest t m pid coded_data m2 e Hpid Hnone Hcode _ _. cbn [snd store trace].
    rewrite (pending_cons_uncoded _ _ _ _ Hpid Hnone). cbn [length].
    pose proof (code_transcript_calls _ _ _ _ _ Hcode) as Hc.
    rewrite api_calls_log in Hc. cbn [is_create] in Hc. lia.
  - intros i tr rest t m pid coded_data m2 t1 Hpid Hnone Hcode _ _ m3 m' t' IH.
    rewrite (pending_cons_uncoded _ _ _ _ Hpid Hnone). cbn [length].
    pose proof (code_transcript_calls _ _ _ _ _ Hcode) as Hc.
    rewrite api_calls_log in Hc. cbn [is_create] in Hc.
    etrans; [exact IH|].
    assert (Hcalls : api_calls (trace m') = api_calls (trace m2)).
    { subst m' m3. destruct (i <? n)%nat; rewrite ?api_calls_log;
        cbn [is_create store trace]; lia. }
    assert (Hfiles : output_dir m' = <[coded_output_name pid := CodedFile coded_data]>
                                       (output_dir m)).
    { subst m' m3. destruct (i <? n)%nat; cbn [log store output_dir];
        by rewrite (code_transcript_files _ _ _ _ _ Hcode). }
    rewrite Hcalls, Hfiles.
    assert (Hmono : (length (pending (<[coded_output_name pid := CodedFile coded_data]>
                                       (output_dir m)) rest)
                     <= length (pending (output_dir m) rest))%nat).
    { apply pending_mono. intros name Hname.
      apply lookup_insert_None in Hname. tauto. }
    lia.
Qed.

End coding_loop_facts.

Section coding_loop_tally.
Context {World : Type} (client : Services World).
Implicit Types (m : Machine (World := World)) (t : Tally).

(** When the loop ends normally, every transcript went to exactly one of
    the three lists, and every transcript that still has no coded file is
    among the errors. *)
Lemma coding_loop_tally system_prompt n transcripts i t m t' :
  fst (coding_loop client system_prompt n i transcripts t m) = Ok t' ->
  (length (results t') + length (skipped t') + length (errors t')
   = length (results t) + length (skipped t) + length (errors t)
     + length transcripts)%nat
  ∧ (length (pending
               (output_dir (snd (coding_loop client system_prompt n i transcripts t m)))
               transcripts)
     + length (errors t) <= length (errors t'))%nat.
Proof.
  revert transcripts i t m t'.
  apply (coding_loop_cases client system_prompt n
           (fun _ transcripts t _ r => forall t', fst r = Ok t' ->
              (length (results t') + length (skipped t') + length (errors t')
               = length (results t) + length (skipped t) + length (errors t)
                 + length transcripts)%nat
              ∧ (length (pending (output_dir (snd r)) transcripts)
                 + length (errors t) <= length (errors t'))%nat)).
  - intros i t m t' [= <-]. cbn [length pending filter snd]. split; [lia|].
    unfold pending. rewrite filter_nil. cbn [length]. lia.
  - intros; discriminate.
  - intros i tr rest t m pid Hpid Hex m' t1 IH t' Hret.
    destruct (IH t' Hret) as [Hcount Hleft]. subst t1.
    cbn [append_skipped results skipped errors] in *.
    rewrite length_app in Hcount. cbn [length] in *. split; [lia|].
    rewrite (pending_cons_coded _ _ _ pid Hpid); [exact Hleft|].
    destruct Hex as [data Hdata]. exists data.
    eapply lookup_weaken; [|apply coding_loop_files]. exact Hdata.
  - intros; discriminate.
  - intros i tr rest t m pid error m2 Hpid Hnone Hcode m' t1 IH t' Hret.
    destruct (IH t' Hret) as [Hcount Hleft]. subst t1.
    cbn [append_error results skipped errors] in *.
    rewrite length_app in Hcount, Hleft. cbn [length] in *. split; [lia|].
    pose proof (pending_cons_le
                  (output_dir (snd (coding_loop client system_prompt n (S i) rest
                                      (append_error pid error t) m'))) tr rest).
    cbn [append_error] in *. lia.
  - intros; discriminate.
  - intros; discriminate.
  - intros; discriminate.
  - intros i tr rest t m pid coded_data m2 t1 Hpid Hnone Hcode _ Htrack m3 m' t2 IH t'
      Hret.
    destruct (IH t' Hret) as [Hcount Hleft]. subst t2.
    destruct (track_tokens_lists _ _ _ Htrack) as (Hr & He & Hs).
    cbn [append_result results skipped errors] in *.
    rewrite length_app, Hr, Hs, He in Hcount. rewrite He in Hleft.
    cbn [length] in *. split; [lia|].
    rewrite (pending_cons_coded _ _ _ pid Hpid); [exact Hleft|].
    exists (CodedFile coded_data).
    eapply lookup_weaken; [|apply coding_loop_files].
    subst m' m3. destruct (i <? n)%nat; cbn [log store output_dir];
      apply lookup_insert_eq.
Qed.




End coding_loop_tally.

(* ===================================================================== *)
(** ** The coding stage: a whole run *)
(* ===================================================================== *)

Section whole_run.
Context {World : Type} (client : Services World).
Implicit Types (m : Machine (World := World)) (t : Tally).

(** A run that lacks the API key, the prompt or the prepared transcripts
    stops before it calls the API or writes a file. *)
Lemma main_stops env m :
  LLM_API_KEY env = None ∨ LLM_API_KEY env = Some []
  ∨ prompt_file env = None ∨ input_file env = None ->
  fst (main client env m) = Ok tt
  ∧ output_dir (snd (main client env m)) = output_dir m
  ∧ api_calls (trace (snd (main client env m))) = api_calls (trace m).
Proof.
  intros H. unfold main, load_system_prompt, mbind, M_bind, emit.
  destruct (LLM_API_KEY env) as [[|c key]|];
    [|destruct (prompt_file env) as [system_prompt|];
      [destruct (input_file env) as [transcripts|];
       [by destruct H as [H|[H|[H|H]]]|]|]|];
    cbv beta iota; cbn [fst snd]; rewrite ?api_calls_log;
    cbn [is_create log output_dir]; (split; [done|split; [done|lia]]).
Qed.

(** A run that has them creates the output directory, runs the loop and
    writes the summary; it ends where the first of the three fails. *)
Lemma main_runs env m c key system_prompt transcripts :
  LLM_API_KEY env = Some (c :: key) ->
  prompt_file env = Some system_prompt ->
  input_file env = Some transcripts ->
  let m0 := log (Print (LoadedTranscripts (length transcripts)))
              (log (Print (PromptLoaded (length system_prompt)
                             (py_slice system_prompt 0 200)))
                 (log (Print ClientInitialized) (log (Print ApiKeyLoaded) m))) in
  let r := coding_loop client system_prompt (length transcripts) 1 transcripts
             empty_tally m0 in
  match mkdir client (world m0), fst r with
  | Except e, _ => main client env m = (Except e, m0)
  | Ok _, Except e => main client env m = (Except e, snd r)
  | Ok _, Ok t =>
      let summary := summary_of transcripts t (strftime client (world (snd r))) in
      match write client summary_file (SummaryFile summary) (world (snd r)) with
      | Saved =>
          fst (main client env m) = Ok tt
          ∧ output_dir (snd (main client env m))
            = <[summary_file := SummaryFile summary]> (output_dir (snd r))
          ∧ api_calls (trace (snd (main client env m))) = api_calls (trace (snd r))
      | NotOpened e => main client env m = (Except e, snd r)
      | Interrupted e =>
          main client env m = (Except e, store summary_file Incomplete (snd r))
      end
  end.
Proof.
  intros Hkey Hprompt Hinput m0 r.
  unfold main, load_system_prompt, mbind, M_bind, emit, time_strftime, write_file,
    make_output_dir.
  rewrite Hkey, Hprompt, Hinput. cbv beta iota.
  fold m0. destruct (mkdir client (world m0)) as [[]|e]; [|reflexivity].
  fold r. destruct r as [[t|e] ml]; cbn [fst snd]; [|reflexivity].
  cbv zeta.
  destruct (write client summary_file _ (world ml)); [|reflexivity..].
  destruct (errors t); cbv beta iota; cbn [fst snd mret M_ret];
    rewrite ?api_calls_log; cbn [is_create log store output_dir trace];
    (split; [done|split; [done|lia]]).
Qed.


Lemma pending_insert_summary (files : gmap string FileData) data transcripts :
  (length (pending (<[summary_file := data]> files) transcripts)
   <= length (pending files transcripts))%nat.
Proof.
  apply pending_mono. intros name Hname.
  apply lookup_insert_None in Hname. tauto.
Qed.


(** A run that gets to the loop and ends normally: the tally behind its
    summary. *)
Lemma main_summary env m c key system_prompt transcripts :
  LLM_API_KEY env = Some (c :: key) ->
  prompt_file env = Some system_prompt ->
  input_file env = Some transcripts ->
  fst (main client env m) = Ok tt ->
  let m0 := log (Print (LoadedTranscripts (length transcripts)))
              (log (Print (PromptLoaded (length system_prompt)
                             (py_slice system_prompt 0 200)))
                 (log (Print ClientInitialized) (log (Print ApiKeyLoaded) m))) in
  let r := coding_loop client system_prompt (length transcripts) 1 transcripts
             empty_tally m0 in
  ∃ t,
    fst r = Ok t
    ∧ output_dir (snd (main client env m))
      = <[summary_file := SummaryFile
            (summary_of transcripts t (strftime client (world (snd r))))]>
          (output_dir (snd r))
    ∧ api_calls (trace (snd (main client env m))) = api_calls (trace (snd r)).
Proof.
  intros Hkey Hprompt Hinput Hok m0 r.
  pose proof (main_runs env m c key system_prompt transcripts Hkey Hprompt Hinput)
    as Hrun.
  cbv zeta in Hrun. fold m0 in Hrun. fold r in Hrun.
  destruct (mkdir client (world m0)) as [[]|e];
    [|rewrite Hrun in Hok; discriminate].
  destruct (fst r) as [t|e]; [|rewrite Hrun in Hok; discriminate].
  destruct (write client summary_file _ (world (snd r)));
    [|rewrite Hrun in Hok; discriminate..].
  exists t. destruct Hrun as (_ & H2 & H3). done.
Qed.

End whole_run.


(** A write that fails ends the run: on a full disk the first transcript
    is sent to the API, its coded file is left incomplete, and the run
    ends with the exception, without a summary. *)
Lemma failed_write_ends_run :
  let r := main full_disk_client example_env example_machine in
  fst r = Except (OtherException (str "[Errno 28] No space left on device"))
  ∧ output_dir (snd r) !! coded_output_name "P01" = Some Incomplete
  ∧ output_dir (snd r) !! summary_file = None
  ∧ api_calls (trace (snd r)) = 1%nat.
Proof. vm_compute. repeat split; reflexivity. Qed.

(** X22.  When [code_transcript_with_claude] returns coded data, the
    data is the object parsed from the first text block of the reply
    (after the handling of code blocks), with this call's metadata under
    ["_api_metadata"] - whatever the reply had there is replaced - and
    every other key as in the reply.  The function called the API exactly
    once and touched no file. *)
Theorem coded_data_carries_call_metadata {World : Type} (client : Services World)
    (system_prompt : pystr) (transcript : Transcript)
    (m m' : Machine (World := World)) (coded_data : dict) :
  code_transcript_with_claude client system_prompt transcript m
  = (Ok (Coded coded_data), m') ->
  ∃ stage_1 stage_2 message text rest reply,
    stage_1_context transcript = Some stage_1
    ∧ stage_2_story transcript = Some stage_2
    ∧ messages_create client (request_for system_prompt (user_message stage_1 stage_2))
        (world m) = (Ok message, world m')
    ∧ message_content message = TextBlock text :: rest
    ∧ json_loads client (strip_code_block text) = Ok (JObject reply)
    ∧ getitem api_metadata_key coded_data
      = Some (api_metadata message (strftime client (world m')))
    ∧ (forall key, key ≠ api_metadata_key ->
         getitem key coded_data = getitem key reply)
    ∧ output_dir m' = output_dir m
    ∧ trace m'
      = trace m ++ [Create (request_for system_prompt (user_message stage_1 stage_2))].
Proof.
  intros Hcode.
  destruct (code_transcript_coded client _ _ _ _ _ Hcode)
    as (stage_1 & stage_2 & message & text & rest & reply
        & H1 & H2 & Hcall & Hcontent & Hloads & -> & ->).
  exists stage_1, stage_2, message, text, rest, reply.
  repeat (split; [assumption|]).
  split; [apply getitem_setitem_eq|].
  split; [intros key Hkey; by apply getitem_setitem_ne|].
  split; reflexivity.
Qed.

Lemma coded_data_carries_call_metadata_witness :
  ∃ message,
    getitem api_metadata_key
      [(api_metadata_key,
        api_metadata (mkMessage (str "msg_1") (str "claude-sonnet-4-20250514")
                        [TextBlock fenced_reply] 1200 300)
          (str "2025-01-01 00:00:00"))]
    = Some (api_metadata message (str "2025-01-01 00:00:00")).
Proof.
  destruct (coded_data_carries_call_metadata example_client (str "Code the story.")
              (mkTranscript (Some "P01") (Some (str "Once")) (Some (str "Then")))
              example_machine
              (snd (code_transcript_with_claude example_client (str "Code the story.")
                      (mkTranscript (Some "P01") (Some (str "Once"))
                         (Some (str "Then")))
                      example_machine))
              [(api_metadata_key,
                api_metadata (mkMessage (str "msg_1") (str "claude-sonnet-4-20250514")
                                [TextBlock fenced_reply] 1200 300)
                  (str "2025-01-01 00:00:00"))]
              eq_refl)
    as (stage_1 & stage_2 & message & text & rest & reply
        & _ & _ & _ & _ & _ & Hmeta & _).
  exists message. exact Hmeta.
Defined.



(** X24.  No run overwrites a coded file: whatever the environment and
    however the run ends, every file that was in the output directory
    before the run is still there with the same content, the summary file
    excepted.  And the API is called at most once per transcript that had
    no coded file when the run started; a run that lacks the key, the
    prompt or the transcripts calls it not at all. *)
Theorem existing_codings_are_kept {World : Type} (client : Services World)
    (env : Env) (m : Machine (World := World)) :
  (forall name data,
     name ≠ summary_file ->
     output_dir m !! name = Some data ->
     output_dir (snd (main client env m)) !! name = Some data)
  ∧ (api_calls (trace (snd (main client env m)))
     <= api_calls (trace m)
        + length (pending (output_dir m) (default [] (input_file env))))%nat.
Proof.
  destruct (LLM_API_KEY env) as [[|c key]|] eqn:Hkey;
    [destruct (main_stops client env m) as (_ & Hf & Hc); [tauto|];
     rewrite Hf, Hc; split; [done|lia]| |
     destruct (main_stops client env m) as (_ & Hf & Hc); [tauto|];
     rewrite Hf, Hc; split; [done|lia]].
  destruct (prompt_file env) as [system_prompt|] eqn:Hprompt;
    [|destruct (main_stops client env m) as (_ & Hf & Hc); [tauto|];
      rewrite Hf, Hc; split; [done|lia]].
  destruct (input_file env) as [transcripts|] eqn:Hinput;
    [|destruct (main_stops client env m) as (_ & Hf & Hc); [tauto|];
      rewrite Hf, Hc; split; [done|cbn [default]; lia]].
  cbn [default].
  pose proof (main_runs client env m c key system_prompt transcripts Hkey Hprompt Hinput)
    as Hrun.
  cbv zeta in Hrun.
  set (m0 := log _ _) in Hrun.
  pose proof (coding_loop_files client system_prompt (length transcripts) transcripts
                1 empty_tally m0) as Hgrow.
  pose proof (coding_loop_calls client system_prompt (length transcripts) transcripts
                1 empty_tally m0) as Hcalls.
  assert (Hm0 : output_dir m0 = output_dir m) by reflexivity.
  assert (Hc0 : api_calls (trace m0) = api_calls (trace m)).
  { subst m0. rewrite !api_calls_log. cbn [is_create]. lia. }
  rewrite Hm0 in Hgrow, Hcalls. rewrite Hc0 in Hcalls.
  destruct (mkdir client (world m0)) as [[]|e];
    [|rewrite Hrun; cbn [snd]; rewrite Hm0, Hc0; split; [done|lia]].
  destruct (fst (coding_loop client system_prompt (length transcripts) 1 transcripts
                   empty_tally m0)) as [t|e].
  - destruct (write client summary_file _ _).
    + destruct Hrun as (_ & Hfiles & Hc). rewrite Hfiles, Hc.
      split; [|exact Hcalls].
      intros name data Hname Hdata. rewrite lookup_insert_ne by done.
      by eapply lookup_weaken.
    + rewrite Hrun. cbn [snd]. split; [|exact Hcalls].
      intros name data _ Hdata. by eapply lookup_weaken.
    + rewrite Hrun. cbn [snd store output_dir trace]. split; [|exact Hcalls].
      intros name data Hname Hdata. rewrite lookup_insert_ne by done.
      by eapply lookup_weaken.
  - rewrite Hrun. cbn [snd]. split; [|exact Hcalls].
    intros name data _ Hdata. by eapply lookup_weaken.
Qed.

(** X25.  A second run only retries what failed.  After a run that got to
    the loop and ended normally, running the stage again on the same
    input - with whatever API - makes at most as many API calls as the
    summary of the first run counts errors; none, if it counts none. *)
Theorem second_run_only_retries_errors {World : Type}
    (client client' : Services World) (env : Env) (m : Machine (World := World))
    (c : N) (key system_prompt : pystr) (transcripts : list Transcript)
    (summary : Summary) :
  LLM_API_KEY env = Some (c :: key) ->
  prompt_file env = Some system_prompt ->
  input_file env = Some transcripts ->
  fst (main client env m) = Ok tt ->
  output_dir (snd (main client env m)) !! summary_file = Some (SummaryFile summary) ->
  (api_calls (trace (snd (main client' env (snd (main client env m)))))
   <= api_calls (trace (snd (main client env m))) + errors_count summary)%nat.
Proof.
  intros Hkey Hprompt Hinput Hok Hsummary.
  destruct (main_summary client env m c key system_prompt transcripts
              Hkey Hprompt Hinput Hok) as (t & Ht & Hfiles & _).
  rewrite Hfiles, lookup_insert_eq in Hsummary. injection Hsummary as <-.
  cbn [summary_of errors_count].
  destruct (coding_loop_tally client _ _ _ _ _ _ _ Ht) as [_ Hleft].
  cbn [empty_tally errors length] in Hleft.
  set (m1 := snd (main client env m)) in *.
  pose proof (main_runs client' env m1 c key system_prompt transcripts
                Hkey Hprompt Hinput) as Hrun.
  cbv zeta in Hrun.
  set (m0 := log _ _) in Hrun.
  pose proof (coding_loop_calls client' system_prompt (length transcripts) transcripts
                1 empty_tally m0) as Hcalls.
  assert (Hm0 : output_dir m0 = output_dir m1) by reflexivity.
  assert (Hc0 : api_calls (trace m0) = api_calls (trace m1)).
  { subst m0. rewrite !api_calls_log. cbn [is_create]. lia. }
  rewrite Hm0, Hc0, Hfiles in Hcalls.
  pose proof (pending_insert_summary
                (output_dir (snd (coding_loop client system_prompt (length transcripts)
                                    1 transcripts empty_tally
                                    (log (Print (LoadedTranscripts (length transcripts)))
                                       (log (Print (PromptLoaded (length system_prompt)
                                                      (py_slice system_prompt 0 200)))
                                          (log (Print ClientInitialized)
                                             (log (Print ApiKeyLoaded) m)))))))
                (SummaryFile (summary_of transcripts t
                                (strftime client
                                   (world (snd (coding_loop client system_prompt
                                                  (length transcripts) 1 transcripts
                                                  empty_tally
                                                  (log (Print (LoadedTranscripts
                                                                 (length transcripts)))
                                                     (log (Print (PromptLoaded
                                                                    (length system_prompt)
                                                                    (py_slice system_prompt 0 200)))
                                                        (log (Print ClientInitialized)
                                                           (log (Print ApiKeyLoaded) m))))))))))
                transcripts) as Hins.
  destruct (mkdir client' (world m0)) as [[]|e];
    [|rewrite Hrun; cbn [snd]; lia].
  destruct (fst (coding_loop client' system_prompt (length transcripts) 1 transcripts
                   empty_tally m0)) as [t2|e].
  - destruct (write client' summary_file _ _).
    + destruct Hrun as (_ & _ & Hc). rewrite Hc. lia.
    + rewrite Hrun. cbn [snd]. lia.
    + rewrite Hrun. cbn [snd store trace]. lia.
  - rewrite Hrun. cbn [snd]. lia.
Qed.

Lemma second_run_only_retries_errors_witness :
  (api_calls (trace (snd (main example_client example_env
                            (snd (main example_client example_env example_machine)))))
   <= api_calls (trace (snd (main example_client example_env example_machine))) + 1)%nat.
Proof.
  exact (second_run_only_retries_errors example_client example_client example_env
           example_machine 107%N (str "ey") (str "Code the story.")
           (default [] (input_file example_env))
           (match output_dir (snd (main example_client example_env example_machine))
                  !! summary_file with
            | Some (SummaryFile summary) => summary
            | _ => summary_of [] empty_tally []
            end) eq_refl eq_refl eq_refl eq_refl eq_refl).
Defined.



(* ===================================================================== *)
(** ** The preparation stage *)
(* ===================================================================== *)

Import prepare_and_mask prepare_and_mask_examples.

Lemma parse_transcript_lines lib file :
  Forall (fun line => Is_true (loop_line line)) (fst (parse_transcript lib file)).
Proof.
  unfold parse_transcript. destruct (text file) as [content|e]; [|constructor].
  destruct (find_split lib markers content); repeat constructor.
Qed.

(** The loop prints its own lines only, and appends to its two lists what
    it makes of each file, in order. *)
Lemma process_files_spec lib files : forall transcripts errors,
  Forall (fun line => Is_true (loop_line line))
    (fst (process_files lib files transcripts errors))
  ∧ snd (process_files lib files transcripts errors)
    = (transcripts ++ omap (prepared lib) files, errors ++ omap (failure lib) files).
Proof.
  induction files as [|file rest IH]; intros transcripts errors.
  - cbn. by rewrite !app_nil_r.
  - cbn [process_files omap list_omap]. unfold prepared at 1, failure at 1, processed.
    pose proof (parse_transcript_lines lib file) as Hout.
    fold (participant_of file).
    destruct (parse_transcript lib file) as [out parsed]. cbn [fst snd] in *.
    destruct parsed as [[stage_1_raw [|c stage_2_raw]]|e].
    + destruct (IH transcripts (errors ++ [NoStage2Content (participant_of file)]))
        as [Hlines Hsnd].
      destruct (process_files lib rest transcripts _) as [out' r].
      cbn [fst snd] in *. split.
      * apply Forall_app. split; [exact Hout|]. by constructor.
      * rewrite Hsnd. by rewrite <- app_assoc.
    + destruct (IH (transcripts ++
                      [{| participant_id := Some (participant_of file);
                          stage_1_context := Some (mask_speaker_labels lib stage_1_raw);
                          stage_2_story :=
                            Some (mask_speaker_labels lib (c :: stage_2_raw)) |}])
                  errors) as [Hlines Hsnd].
      destruct (process_files lib rest _ errors) as [out' r].
      cbn [fst snd] in *. split.
      * apply Forall_app. split; [exact Hout|]. by constructor.
      * rewrite Hsnd. by rewrite <- app_assoc.
    + destruct (IH transcripts (errors ++ [Raised (participant_of file) e]))
        as [Hlines Hsnd].
      destruct (process_files lib rest transcripts _) as [out' r].
      cbn [fst snd] in *. split.
      * apply Forall_app. split; [exact Hout|]. by constructor.
      * rewrite Hsnd. by rewrite <- app_assoc.
Qed.




(** The verification either raises the [KeyError] or finds nothing. *)
Lemma verify_spec transcripts :
  (existsb labelled transcripts = true
   ∧ verify transcripts [] = Except (KeyError (str "transcript_id")))
  ∨ (existsb labelled transcripts = false ∧ verify transcripts [] = Ok []).
Proof.
  induction transcripts as [|t rest IH]; [by right|].
  cbn [verify existsb]. unfold labelled at 1 3.
  destruct (py_in (str "ROBOT:") (transcript_text t)); [by left|].
  destruct (py_in (str "EXPERIMENTER:") (transcript_text t)); [by left|].
  exact IH.
Qed.

(** What a run on an existing raw directory leaves behind. *)
Lemma main_spec lib folder :
  ∃ out transcripts errors,
    snd (process_files lib (sorted (glob_txt folder)) [] []) = (transcripts, errors)
    ∧ fst (process_files lib (sorted (glob_txt folder)) [] []) = out
    ∧ output_file (main lib (Some folder))
      = match transcripts with [] => None | _ :: _ => Some transcripts end
    ∧ ending (main lib (Some folder))
      = match verify transcripts [] with Ok _ => Ok tt | Except e => Except e end
    ∧ printed_lines (main lib (Some folder))
      = [ProcessingFrom] ++ out
        ++ ([ProcessingSummary (length (glob_txt folder)) (length transcripts)
               (length errors)]
            ++ match errors with [] => [] | _ :: _ => [ErrorsEncountered errors] end)
        ++ match verify transcripts [] with
           | Ok [] => [AllLabelsMasked; OutputSaved]
           | Ok (i :: issues) => [IssuesFound (i :: issues); OutputSaved]
           | Except _ => []
           end.
Proof.
  unfold main.
  destruct (process_files lib (sorted (glob_txt folder)) [] [])
    as [out [transcripts errors]].
  exists out, transcripts, errors. cbn [fst snd].
  destruct (verify transcripts []) as [[|i issues]|e]; cbn [printed_lines output_file ending];
    repeat split; by rewrite <- ?app_assoc, ?app_nil_r.
Qed.



(** X28.  The verification step cannot report an issue.  When a prepared
    transcript still contains ["ROBOT:"] or ["EXPERIMENTER:"], building
    the issue line reads the key ['transcript_id'], which the transcripts
    do not have: the run ends with [KeyError], after the output file was
    written, and prints neither the issues nor the success line.
    Otherwise the run ends normally and prints the success line.  The
    issue list is never printed. *)
Theorem leftover_label_aborts_verification (lib : Library) (folder : list RawFile)
    (transcripts : list Transcript) :
  output_file (main lib (Some folder)) = Some transcripts ->
  (existsb labelled transcripts = true ->
     ending (main lib (Some folder)) = Except (KeyError (str "transcript_id"))
     ∧ AllLabelsMasked ∉ printed_lines (main lib (Some folder)))
  ∧ (existsb labelled transcripts = false ->
     ending (main lib (Some folder)) = Ok tt
     ∧ AllLabelsMasked ∈ printed_lines (main lib (Some folder)))
  ∧ (forall issues, IssuesFound issues ∉ printed_lines (main lib (Some folder))).
Proof.
  intros Hwritten.
  destruct (main_spec lib folder)
    as (out & ts & errors & Hsnd & Hfst & Hfile & Houtcome & Hprinted).
  destruct (process_files_spec lib (sorted (glob_txt folder)) [] []) as [Hlines _].
  rewrite Hfst in Hlines.
  assert (ts = transcripts) as ->.
  { rewrite Hfile in Hwritten. destruct ts; [discriminate|]. by injection Hwritten. }
  assert (Hhead : forall line,
            line ∈ [ProcessingFrom] ++ out
                   ++ ([ProcessingSummary (length (glob_txt folder)) (length transcripts)
                          (length errors)]
                       ++ match errors with
                          | [] => []
                          | _ :: _ => [ErrorsEncountered errors]
                          end) ->
            line ≠ AllLabelsMasked ∧ forall issues, line ≠ IssuesFound issues).
  { intros line Hin.
    apply elem_of_cons in Hin as [->|Hin]; [by split|].
    apply elem_of_app in Hin as [Hin|Hin].
    - rewrite Forall_forall in Hlines. specialize (Hlines line Hin).
      by destruct line.
    - apply elem_of_cons in Hin as [->|Hin]; [by split|].
      destruct errors; [by apply elem_of_nil in Hin|].
      apply list_elem_of_singleton in Hin as ->. by split. }
  rewrite Houtcome, Hprinted.
  destruct (verify_spec transcripts) as [[Hlab Hver]|[Hlab Hver]]; rewrite Hver, Hlab.
  - split; [|split].
    + intros _. split; [reflexivity|]. rewrite app_nil_r, app_assoc.
      intros Hin. rewrite <- app_assoc in Hin. by destruct (Hhead _ Hin).
    + discriminate.
    + intros issues Hin. rewrite app_nil_r, app_assoc in Hin.
      rewrite <- app_assoc in Hin.
      destruct (Hhead _ Hin) as [_ H]. by apply (H issues).
  - split; [|split].
    + discriminate.
    + intros _. split; [reflexivity|].
      rewrite !app_assoc. apply elem_of_app. right. apply list_elem_of_here.
    + intros issues Hin. rewrite !app_assoc in Hin.
      apply elem_of_app in Hin as [Hin|Hin].
      * rewrite <- !app_assoc in Hin. destruct (Hhead _ Hin) as [_ H].
        by apply (H issues).
      * apply elem_of_cons in Hin as [?|Hin]; [discriminate|].
        apply list_elem_of_singleton in Hin. discriminate.
Qed.

Lemma leftover_label_aborts_verification_witness :
  ending (main ascii_library (Some example_raw_dir))
  = Except (KeyError (str "transcript_id"))
  ∧ AllLabelsMasked ∉ printed_lines (main ascii_library (Some example_raw_dir)).
Proof.
  apply (proj1 (leftover_label_aborts_verification ascii_library example_raw_dir
                  (default [] (output_file (main ascii_library (Some example_raw_dir))))
                  eq_refl)).
  reflexivity.
Defined.

(* ===================================================================== *)
(** ** From preparation to coding *)
(* ===================================================================== *)

(** X29.  The coding stage does not read what the preparation stage
    writes.  Preparation saves its transcripts as
    [transcripts_prepared_masked.json]; coding opens
    [transcripts_prepared_masked_ok.json] in the same directory.  So when
    that second file is not there, a coding run that follows a
    preparation run - whatever the raw directory held - ends without
    calling the API and without writing a file. *)
Theorem coding_stage_reads_another_file {World : Type} (lib : Library)
    (raw_dir : option (list RawFile)) (client : Services World)
    (key prompt : option pystr) (files : gmap string (list Transcript))
    (m : Machine (World := World)) :
  files !! coding_input_path = None ->
  let env := coding_env key prompt
               (after_preparation (prepare_and_mask.main lib raw_dir) files) in
  input_file env = None
  ∧ fst (run_llm_coding.main client env m) = Ok tt
  ∧ output_dir (snd (run_llm_coding.main client env m)) = output_dir m
  ∧ api_calls (trace (snd (run_llm_coding.main client env m))) = api_calls (trace m).
Proof.
  intros Hnone env.
  assert (Hinput : input_file env = None).
  { subst env. unfold coding_env, after_preparation. cbn [input_file].
    destruct (output_file (prepare_and_mask.main lib raw_dir)); [|exact Hnone].
    rewrite lookup_insert_ne; [exact Hnone|]. discriminate. }
  split; [exact Hinput|]. apply main_stops. tauto.
Qed.

Lemma coding_stage_reads_another_file_witness :
  fst (run_llm_coding.main example_client
         (coding_env (Some (str "key")) (Some (str "Code the story."))
            (after_preparation
               (prepare_and_mask.main ascii_library (Some example_raw_dir)) ∅))
         example_machine) = Ok tt
  ∧ api_calls (trace (snd (run_llm_coding.main example_client
                             (coding_env (Some (str "key")) (Some (str "Code the story."))
                                (after_preparation
                                   (prepare_and_mask.main ascii_library
                                      (Some example_raw_dir)) ∅))
                             example_machine)))
    = api_calls (trace example_machine).
Proof.
  destruct (coding_stage_reads_another_file ascii_library (Some example_raw_dir)
              example_client (Some (str "key")) (Some (str "Code the story.")) ∅
              example_machine (lookup_empty _)) as (_ & H1 & _ & H2).
  split; [exact H1|exact H2].
Defined.


